(** * dogdish: the update dispatcher of [dogdish/dispatcher.py]

    A shallow embedding of the models ([Application], [Update]), the request
    handler ([Get]) and the web application ([Dispatcher]) of
    [dogdish/dispatcher.py], and the properties of the update registry and
    of the manifest it serves. *)

From Stdlib Require Import ZArith NArith String Ascii List Strings.Byte Lia Permutation.
From Stdlib Require Import DecimalString.
From stdpp Require Import base option gmap list strings.

Local Open Scope string_scope.
Local Open Scope Z_scope.

(** ** Python strings

    [str] values are [string]s; the operations below are the ones the
    dispatcher uses: [startswith], [endswith], slicing and [strip]. *)

Module Py.

(** [s.startswith(p)] *)
Fixpoint startswith (s p : string) : bool :=
  match p, s with
  | EmptyString, _ => true
  | String c p', String d s' => if Ascii.eqb c d then startswith s' p' else false
  | String _ _, EmptyString => false
  end.

(** [s[n:]] for [0 <= n] *)
Fixpoint drop (n : nat) (s : string) : string :=
  match n, s with
  | O, _ => s
  | S n', String _ s' => drop n' s'
  | S _, EmptyString => EmptyString
  end.

(** [s[:n]] for [0 <= n] *)
Fixpoint take (n : nat) (s : string) : string :=
  match n, s with
  | O, _ => EmptyString
  | S n', String c s' => String c (take n' s')
  | S _, EmptyString => EmptyString
  end.

(** [s.endswith(q)]: the last [len(q)] characters of [s] are [q]. *)
Definition endswith (s q : string) : bool :=
  (String.length q <=? String.length s)%nat
  && String.eqb (drop (String.length s - String.length q) s) q.

(** An index of a slice, as Python normalises it: a negative index counts
    from the end, and both ends are clamped to [0 .. len]. *)
Definition slice_index (len i : Z) : Z :=
  if i <? 0 then Z.max 0 (len + i) else Z.min i len.

(** [s[i:j]] *)
Definition slice (s : string) (i j : Z) : string :=
  let len := Z.of_nat (String.length s) in
  let a := slice_index len i in
  let b := slice_index len j in
  take (Z.to_nat (b - a)) (drop (Z.to_nat a) s).

(** [len(s)] as a Python integer *)
Definition len (s : string) : Z := Z.of_nat (String.length s).

(** [s.lstrip(c)] for a single character [c] *)
Fixpoint lstrip (c : ascii) (s : string) : string :=
  match s with
  | String d s' => if Ascii.eqb d c then lstrip c s' else s
  | EmptyString => EmptyString
  end.

(** [s.rstrip(c)] *)
Fixpoint rstrip (c : ascii) (s : string) : string :=
  match s with
  | String d s' =>
      match rstrip c s' with
      | EmptyString => if Ascii.eqb d c then EmptyString else String d EmptyString
      | r => String d r
      end
  | EmptyString => EmptyString
  end.

(** [s.strip(c)] *)
Definition strip (c : ascii) (s : string) : string := rstrip c (lstrip c s).

(** [s.lower()], on the ASCII letters *)
Definition lower_char (c : ascii) : ascii :=
  let n := nat_of_ascii c in
  if ((65 <=? n) && (n <=? 90))%nat then ascii_of_nat (n + 32) else c.

Fixpoint lower (s : string) : string :=
  match s with
  | String c s' => String (lower_char c) (lower s')
  | EmptyString => EmptyString
  end.

(** [sep.join(l)] *)
Fixpoint join (sep : string) (l : list string) : string :=
  match l with
  | [] => EmptyString
  | [x] => x
  | x :: l' => x +:+ sep +:+ join sep l'
  end.

(** [str(n)] for an integer [n], and [bool(s)] for a string [s] *)
Definition str_int (n : Z) : string := NilEmpty.string_of_int (Z.to_int n).

Definition truthy (s : string) : bool :=
  match s with
  | EmptyString => false
  | String _ _ => true
  end.

(** [os.path.join(a, b)] of [posixpath] *)
Definition path_join (a b : string) : string :=
  if startswith b "/" then b
  else if String.eqb a "" || endswith a "/" then a +:+ b
  else a +:+ "/" +:+ b.

(** [os.path.split(p)[-1]]: what follows the last slash of [p];
    [acc] is what follows the last slash met so far. *)
Fixpoint split_tail (acc p : string) : string :=
  match p with
  | String c p' =>
      if Ascii.eqb c "/" then split_tail EmptyString p'
      else split_tail (acc +:+ String c EmptyString) p'
  | EmptyString => acc
  end.

End Py.

(** ** SHA-512

    [hashlib.sha512(data).hexdigest()], which [Update.hash] stores, is the
    function of FIPS 180-4; it is written here on 64-bit words held in [Z],
    every addition reduced modulo [2^64]. *)

Module SHA512.

Definition wrap (x : Z) : Z := x mod 2 ^ 64.

Definition add (x y : Z) : Z := wrap (x + y).

Definition rotr (n x : Z) : Z :=
  wrap (Z.lor (Z.shiftr x n) (Z.shiftl x (64 - n))).

Definition shr (n x : Z) : Z := Z.shiftr x n.

Definition not64 (x : Z) : Z := Z.lxor x (2 ^ 64 - 1).

Definition Ch (x y z : Z) : Z := Z.lxor (Z.land x y) (Z.land (not64 x) z).

Definition Maj (x y z : Z) : Z :=
  Z.lxor (Z.lxor (Z.land x y) (Z.land x z)) (Z.land y z).

Definition Sigma0 (x : Z) : Z := Z.lxor (Z.lxor (rotr 28 x) (rotr 34 x)) (rotr 39 x).
Definition Sigma1 (x : Z) : Z := Z.lxor (Z.lxor (rotr 14 x) (rotr 18 x)) (rotr 41 x).
Definition sigma0 (x : Z) : Z := Z.lxor (Z.lxor (rotr 1 x) (rotr 8 x)) (shr 7 x).
Definition sigma1 (x : Z) : Z := Z.lxor (Z.lxor (rotr 19 x) (rotr 61 x)) (shr 6 x).

(** The eighty round constants. *)
Definition K : list Z := [
  0x428a2f98d728ae22; 0x7137449123ef65cd; 0xb5c0fbcfec4d3b2f; 0xe9b5dba58189dbbc;
  0x3956c25bf348b538; 0x59f111f1b605d019; 0x923f82a4af194f9b; 0xab1c5ed5da6d8118;
  0xd807aa98a3030242; 0x12835b0145706fbe; 0x243185be4ee4b28c; 0x550c7dc3d5ffb4e2;
  0x72be5d74f27b896f; 0x80deb1fe3b1696b1; 0x9bdc06a725c71235; 0xc19bf174cf692694;
  0xe49b69c19ef14ad2; 0xefbe4786384f25e3; 0x0fc19dc68b8cd5b5; 0x240ca1cc77ac9c65;
  0x2de92c6f592b0275; 0x4a7484aa6ea6e483; 0x5cb0a9dcbd41fbd4; 0x76f988da831153b5;
  0x983e5152ee66dfab; 0xa831c66d2db43210; 0xb00327c898fb213f; 0xbf597fc7beef0ee4;
  0xc6e00bf33da88fc2; 0xd5a79147930aa725; 0x06ca6351e003826f; 0x142929670a0e6e70;
  0x27b70a8546d22ffc; 0x2e1b21385c26c926; 0x4d2c6dfc5ac42aed; 0x53380d139d95b3df;
  0x650a73548baf63de; 0x766a0abb3c77b2a8; 0x81c2c92e47edaee6; 0x92722c851482353b;
  0xa2bfe8a14cf10364; 0xa81a664bbc423001; 0xc24b8b70d0f89791; 0xc76c51a30654be30;
  0xd192e819d6ef5218; 0xd69906245565a910; 0xf40e35855771202a; 0x106aa07032bbd1b8;
  0x19a4c116b8d2d0c8; 0x1e376c085141ab53; 0x2748774cdf8eeb99; 0x34b0bcb5e19b48a8;
  0x391c0cb3c5c95a63; 0x4ed8aa4ae3418acb; 0x5b9cca4f7763e373; 0x682e6ff3d6b2b8a3;
  0x748f82ee5defb2fc; 0x78a5636f43172f60; 0x84c87814a1f0ab72; 0x8cc702081a6439ec;
  0x90befffa23631e28; 0xa4506cebde82bde9; 0xbef9a3f7b2c67915; 0xc67178f2e372532b;
  0xca273eceea26619c; 0xd186b8c721c0c207; 0xeada7dd6cde0eb1e; 0xf57d4f7fee6ed178;
  0x06f067aa72176fba; 0x0a637dc5a2c898a6; 0x113f9804bef90dae; 0x1b710b35131c471b;
  0x28db77f523047d84; 0x32caab7b40c72493; 0x3c9ebe0a15c9bebc; 0x431d67c49c100d4c;
  0x4cc5d4becb3e42b6; 0x597f299cfc657e2a; 0x5fcb6fab3ad6faec; 0x6c44198c4a475817 ].

(** The eight working variables, and the hash value between blocks. *)
Record state : Type := State {
  va : Z; vb : Z; vc : Z; vd : Z; ve : Z; vf : Z; vg : Z; vh : Z
}.

(** The initial hash value. *)
Definition H0 : state :=
  State 0x6a09e667f3bcc908 0xbb67ae8584caa73b
        0x3c6ef372fe94f82b 0xa54ff53a5f1d36f1
        0x510e527fade682d1 0x9b05688c2b3e6c1f
        0x1f83d9abfb41bd6b 0x5be0cd19137e2179.

(** A big-endian number of [n] bytes. *)
Fixpoint be_bytes (n : nat) (x : Z) : list Z :=
  match n with
  | O => []
  | S n' => (Z.shiftr x (8 * Z.of_nat n')) mod 256 :: be_bytes n' x
  end.

Definition be_word (bs : list Z) : Z :=
  fold_left (fun acc b => acc * 256 + b) bs 0.

(** The message, a 1 bit, zero bits up to 112 modulo 128 bytes, and the
    length of the message in bits on 128 bits. *)
Definition pad (msg : list Z) : list Z :=
  let l := Z.of_nat (List.length msg) in
  msg ++ [128] ++ repeat 0 (Z.to_nat ((111 - l) mod 128)) ++ be_bytes 16 (8 * l).

(** The bytes cut in groups of [n]; [fuel] bounds the number of groups. *)
Fixpoint chunks (fuel n : nat) (l : list Z) : list (list Z) :=
  match fuel, l with
  | O, _ | _, [] => []
  | S fuel', _ => firstn n l :: chunks fuel' n (skipn n l)
  end.

Definition words (block : list Z) : list Z :=
  map be_word (chunks 16 8 block).

(** The message schedule, most recent word first: [w] holds
    [W(t-1), W(t-2), ...] and grows by [n] words. *)
Fixpoint schedule (n : nat) (w : list Z) : list Z :=
  match n with
  | O => w
  | S n' =>
      let wt := add (add (sigma1 (nth 1 w 0)) (nth 6 w 0))
                    (add (sigma0 (nth 14 w 0)) (nth 15 w 0)) in
      schedule n' (wt :: w)
  end.

Definition round (s : state) (kw : Z * Z) : state :=
  let (k, w) := kw in
  let t1 := add (add (add (vh s) (Sigma1 (ve s))) (add (Ch (ve s) (vf s) (vg s)) k)) w in
  let t2 := add (Sigma0 (va s)) (Maj (va s) (vb s) (vc s)) in
  State (add t1 t2) (va s) (vb s) (vc s) (add (vd s) t1) (ve s) (vf s) (vg s).

Definition compress (h : state) (block : list Z) : state :=
  let w := rev (schedule 64 (rev (words block))) in
  let s := fold_left round (combine K w) h in
  State (add (va h) (va s)) (add (vb h) (vb s)) (add (vc h) (vc s))
        (add (vd h) (vd s)) (add (ve h) (ve s)) (add (vf h) (vf s))
        (add (vg h) (vg s)) (add (vh h) (vh s)).

Definition digest_state (msg : list Z) : state :=
  let p := pad msg in
  fold_left compress (chunks (List.length p) 128 p) H0.

Definition hexdigit (x : Z) : ascii :=
  if x <? 10 then ascii_of_nat (Z.to_nat (48 + x))
  else ascii_of_nat (Z.to_nat (87 + x)).

(** The sixteen lower-case hexadecimal digits of a word, then [k]. *)
Definition hex64 (x : Z) (k : string) : string :=
  fold_right (fun i acc => String (hexdigit ((Z.shiftr x (4 * i)) mod 16)) acc) k
             [15; 14; 13; 12; 11; 10; 9; 8; 7; 6; 5; 4; 3; 2; 1; 0].

Definition hex_of_state (s : state) : string :=
  hex64 (va s) (hex64 (vb s) (hex64 (vc s) (hex64 (vd s)
    (hex64 (ve s) (hex64 (vf s) (hex64 (vg s) (hex64 (vh s) ""))))))).

(** [hashlib.sha512(data).hexdigest()] *)
Definition hexdigest (data : list byte) : string :=
  hex_of_state (digest_state (map (fun b => Z.of_N (Byte.to_N b)) data)).

End SHA512.

(** ** The order of a small [dict]

    The language does not fix the order in which a [dict] is iterated; the
    interpreter does.  In CPython 2.7 (hash randomisation off, as by
    default) a dictionary of at most five items lives in a table of eight
    slots, never resized, each key in the first free slot of the probe
    sequence of its hash, and is iterated slot by slot. *)

Module PyDict.

(** [string_hash] on a machine word of 64 bits, as an unsigned number. *)
Fixpoint hash_loop (x : Z) (s : string) : Z :=
  match s with
  | EmptyString => x
  | String c s' =>
      hash_loop (Z.lxor (1000003 * x) (Z.of_nat (nat_of_ascii c)) mod 2 ^ 64) s'
  end.

Definition string_hash (s : string) : Z :=
  match s with
  | EmptyString => 0
  | String c _ =>
      let x := hash_loop (Z.shiftl (Z.of_nat (nat_of_ascii c)) 7) s in
      let x := Z.lxor x (Z.of_nat (String.length s)) in
      if x =? 2 ^ 64 - 1 then 2 ^ 64 - 2 else x
  end.

Abbreviation table := (list (option (string * string))).

Definition empty : table := repeat None 8.

(** The probe sequence of [lookdict_string]: slot [i land 7], then
    [i := 5 * i + perturb + 1] and [perturb := perturb >> 5]; [fuel]
    bounds the number of probes. *)
Fixpoint probe (fuel : nat) (i perturb : Z) (k v : string) (t : table) : table :=
  let slot := Z.to_nat (Z.land i 7) in
  match fuel with
  | O => t
  | S fuel' =>
      match t !! slot with
      | Some (Some (k', _)) =>
          if String.eqb k' k then <[slot := Some (k, v)]> t
          else probe fuel' ((5 * i + perturb + 1) mod 2 ^ 64) (Z.shiftr perturb 5) k v t
      | _ => <[slot := Some (k, v)]> t
      end
  end.

Definition setitem (t : table) (kv : string * string) : table :=
  let h := string_hash (fst kv) in
  probe 64 h h (fst kv) (snd kv) t.

(** [d.items()] for the dictionary that received the items of [l], in that
    order. *)
Definition items (l : list (string * string)) : list (string * string) :=
  omap id (fold_left setitem l empty).

End PyDict.

(** ** The naming convention of the update files *)

(** The two classes of update: [Update] and its subclass [UpdateStable],
    which overrides [prefix] only. *)
Inductive UpdateClass : Type :=
  | cls_Update
  | cls_UpdateStable.

Definition prefix (cls : UpdateClass) : string :=
  match cls with
  | cls_Update => "b2g_update_"
  | cls_UpdateStable => "b2g_stable_update_"
  end.

Definition suffix (cls : UpdateClass) : string := ".mar".

(** The filter of [Update.updates]:
    [i.startswith(cls.prefix) and i.endswith(cls.suffix)]. *)
Definition accepted (cls : UpdateClass) (i : string) : bool :=
  Py.startswith i (prefix cls) && Py.endswith i (suffix cls).

(** [filename[len(self.prefix):-len(self.suffix)]] of [Update.__init__] *)
Definition stamp_of (cls : UpdateClass) (filename : string) : string :=
  Py.slice filename (Py.len (prefix cls)) (- Py.len (suffix cls)).

(** ** The watched directory

    The dispatcher sees the file system through [os.listdir],
    [os.path.getmtime], [os.path.getsize], [os.path.exists], [file(...).read()]
    and [ConfigParser.read], all on entries of the one directory it watches.
    A file is its modification time and its bytes; its size is the number of
    its bytes.  [getmtime] gives a float, which [scan] only compares: it is
    held here as an integer.  The entries of a directory are files that
    [os.stat] and [file] accept for as long as a call lasts: a name that
    [os.listdir] gives and [os.path.getmtime] refuses (a link to nothing, a
    file removed while the directory is scanned) is no entry here. *)

Record File : Type := {
  st_mtime : Z;
  contents : list byte
}.

(** A directory lists its entries in the order in which the loop of [scan]
    meets them: neither [os.listdir] nor the iteration of the [set] that
    [Update.updates] builds promises an order, so that every order is a
    possible input. *)
Abbreviation Directory := (list (string * File)).

Fixpoint find_file (name : string) (d : Directory) : option File :=
  match d with
  | [] => None
  | (n, f) :: d' => if String.eqb n name then Some f else find_file name d'
  end.

(** The state of the file system during one call: [None] when the directory
    cannot be listed (it is missing, or unreadable). *)
Definition fs_lookup (fs : option Directory) (name : string) : option File :=
  match fs with
  | Some d => find_file name d
  | None => None
  end.

(** ** Exceptions and results *)

Inductive exn : Type :=
  | OSError (path : string)
  | IOError (path : string)
  | AssertionError (msg : string)
  | NoSectionError (section : string)
  | NoOptionError (option section : string)
  | ParsingError
  | KeyError (key : string)
  | AttributeError (name : string)
  | SystemError.

Inductive result (A : Type) : Type :=
  | Ok (a : A)
  | Raise (e : exn).

Arguments Ok {A} a.
Arguments Raise {A} e.

(** ** [ConfigParser]

    What [RawConfigParser.read] gathers from a file: the options of the
    [DEFAULT] section and those of the named sections, option names in lower
    case.  The parser itself belongs to the Python library and is a parameter
    of the development ([read_config] below). *)

Record Config : Type := {
  defaults : list (string * string);
  sections : list (string * list (string * string))
}.

Fixpoint assoc {A : Type} (k : string) (l : list (string * A)) : option A :=
  match l with
  | [] => None
  | (k', v) :: l' => if String.eqb k' k then Some v else assoc k l'
  end.

(** [RawConfigParser.get(section, option)] for a section other than
    [DEFAULT]; [optionxform] is [str.lower]. *)
Definition Config_get (c : Config) (section option : string) : result string :=
  let opt := Py.lower option in
  match assoc section (sections c) with
  | None => Raise (NoSectionError section)
  | Some options =>
      match assoc opt options with
      | Some v => Ok v
      | None =>
          match assoc opt (defaults c) with
          | Some v => Ok v
          | None => Raise (NoOptionError option section)
          end
      end
  end.

(** The configuration of a parser that has read no file. *)
Definition empty_config : Config := {| defaults := []; sections := [] |}.

(** ** The objects *)

(** [class Application]: the data of an [application.ini]. *)
Module Application.
Record t : Type := {
  build_id : string;
  version : string
}.
End Application.

(** References to [Update] objects: addresses in the heap. *)
Abbreviation addr := nat (only parsing).

(** [class Update]: the attributes that [__init__] sets. *)
Module Update.
Record t : Type := {
  directory : string;
  filename : string;
  path : string;
  stamp : string;
  modifiedTime : Z;
  size : Z;
  _application : option Application.t;
  _hash : option string
}.

Definition set_application (a : Application.t) (u : t) : t :=
  {| directory := directory u; filename := filename u; path := path u;
     stamp := stamp u; modifiedTime := modifiedTime u; size := size u;
     _application := Some a; _hash := _hash u |}.

Definition set_hash (h : string) (u : t) : t :=
  {| directory := directory u; filename := filename u; path := path u;
     stamp := stamp u; modifiedTime := modifiedTime u; size := size u;
     _application := _application u; _hash := Some h |}.
End Update.

(** The request handlers; [Dispatcher.handlers] is [[Get]]. *)
Inductive HandlerClass : Type :=
  | Get.

(** [class Dispatcher]: the attributes of the web application. *)
Module Dispatcher.
Record t : Type := {
  directory : string;
  path : string;
  update_class : UpdateClass;
  handlers : list HandlerClass;
  updates : gmap string addr;
  current_update : option addr
}.

Definition set_updates (m : gmap string addr) (d : t) : t :=
  {| directory := directory d; path := path d; update_class := update_class d;
     handlers := handlers d; updates := m; current_update := current_update d |}.

Definition set_current_update (c : option addr) (d : t) : t :=
  {| directory := directory d; path := path d; update_class := update_class d;
     handlers := handlers d; updates := updates d; current_update := c |}.
End Dispatcher.

(** What a request carries: its method, its path and the parameters of its
    query string ([request.GET]). *)
Record Request : Type := {
  method : string;
  path_info : string;
  GET : list (string * string)
}.

(** [Response(content_type=..., body=...)], which is a [200 OK], and
    [exc.HTTPNotFound()]. *)
Inductive Response : Type :=
  | Response_OK (content_type body : string)
  | HTTPNotFound.

Definition status (r : Response) : string :=
  match r with
  | Response_OK _ _ => "200 OK"
  | HTTPNotFound => "404 Not Found"
  end.

(** ** State and effects

    The dispatcher object, the heap of the [Update] objects it refers to (by
    address: [updates] and [current_update] may hold the same object), and
    the paths of the update files that [Update.hash] has read so far with
    [file(path).read()]; what [ConfigParser] reads of a companion is not
    part of that log.  A computation takes a state and gives a result or
    an exception, and the state it leaves: what was assigned before an
    exception stays assigned. *)

Record State : Type := {
  app : Dispatcher.t;
  heap : list Update.t;
  reads : list string
}.

Definition M (A : Type) : Type := State -> result A * State.

Definition ret {A : Type} (a : A) : M A := fun s => (Ok a, s).

Definition raise {A : Type} (e : exn) : M A := fun s => (Raise e, s).

Definition bind {A B : Type} (m : M A) (k : A -> M B) : M B :=
  fun s =>
    match m s with
    | (Ok a, s') => k a s'
    | (Raise e, s') => (Raise e, s')
    end.

Notation "'let*' x ':=' m 'in' k" := (bind m (fun x => k))
  (at level 10, x name, m at level 100, k at level 200).

Definition lift {A : Type} (r : result A) : M A := fun s => (r, s).

Definition get_app : M Dispatcher.t := fun s => (Ok (app s), s).

Definition modify_app (f : Dispatcher.t -> Dispatcher.t) : M unit :=
  fun s => (Ok tt, {| app := f (app s); heap := heap s; reads := reads s |}).

(** A new object, at the first free address. *)
Definition new (u : Update.t) : M addr :=
  fun s => (Ok (List.length (heap s)),
            {| app := app s; heap := heap s ++ [u]; reads := reads s |}).

(** The object at an address.  A reference of a Python program always
    designates an object; the model answers [SystemError] for an address
    outside the heap, which the states of the dispatcher never hold. *)
Definition deref (a : addr) : M Update.t :=
  fun s =>
    match heap s !! a with
    | Some u => (Ok u, s)
    | None => (Raise SystemError, s)
    end.

Definition store (a : addr) (u : Update.t) : M unit :=
  fun s => (Ok tt, {| app := app s; heap := <[a := u]> (heap s); reads := reads s |}).

(** [f.read()] of [Update.hash] on the file at [path]: the read is
    recorded. *)
Definition record_read (path : string) : M unit :=
  fun s => (Ok tt, {| app := app s; heap := heap s; reads := reads s ++ [path] |}).

(** [for x in l: body(x)] *)
Fixpoint for_each {A : Type} (l : list A) (body : A -> M unit) : M unit :=
  match l with
  | [] => ret tt
  | x :: l' => let* _ := body x in for_each l' body
  end.

(** [request.GET.get(key)]: the value of the last parameter of that name. *)
Fixpoint MultiDict_get (items : list (string * string)) (key : string) : option string :=
  match items with
  | [] => None
  | (k, v) :: items' =>
      match MultiDict_get items' key with
      | Some v' => Some v'
      | None => if String.eqb k key then Some v else None
      end
  end.

(** [d[k] = v] on a dictionary held as the list of its items *)
Fixpoint dict_set (k v : string) (d : list (string * string)) : list (string * string) :=
  match d with
  | [] => [(k, v)]
  | (k', v') :: d' => if String.eqb k' k then (k, v) :: d' else (k', v') :: dict_set k v d'
  end.

(** *** The template of the response body *)

(** The variables of the template, as [Get.__call__] collects them. *)
Record Variables : Type := {
  v_update : string;
  v_size : Z;
  v_version : string;
  v_hash : string;
  v_path : string;
  v_build_id : string;
  v_query : string
}.

(** A template is text, double quotes, line ends and conversions
    [%(key)s], each conversion the [str] of a variable. *)
Inductive piece : Type :=
  | Lit (s : string)
  | Quote
  | Newline
  | Conv (key : Variables -> string).

Definition render (v : Variables) (p : piece) : string :=
  match p with
  | Lit s => s
  | Quote => String (ascii_of_nat 34) EmptyString
  | Newline => String (ascii_of_nat 10) EmptyString
  | Conv key => key v
  end.

(** [template % variables] *)
Fixpoint format (template : list piece) (v : Variables) : string :=
  match template with
  | [] => EmptyString
  | p :: template' => render v p +:+ format template' v
  end.

(** An attribute [name="value"], after a space. *)
Definition attribute (name : string) (value : list piece) : list piece :=
  [Lit (" " +:+ name +:+ "="); Quote] ++ value ++ [Quote].

(** The value of the [URL] attribute of [<patch>]. *)
Definition URL_template : list piece :=
  [Lit "http://update.boot2gecko.org/"; Conv v_path; Lit "/"; Conv v_update;
   Conv v_query].

Definition Get_body_head : list piece :=
  [Lit "<?xml"] ++ attribute "version" [Lit "1.0"] ++ [Lit "?>"; Newline;
   Lit "<updates>"; Newline;
   Lit "  <update"] ++ attribute "type" [Lit "minor"]
   ++ attribute "appVersion" [Conv v_version]
   ++ attribute "version" [Conv v_version]
   ++ attribute "extensionVersion" [Conv v_version]
   ++ attribute "buildID" [Conv v_build_id]
   ++ attribute "licenseURL" [Lit "http://www.mozilla.com/test/sample-eula.html"]
   ++ attribute "detailsURL" [Lit "http://www.mozilla.com/test/sample-details.html"]
   ++ [Lit ">"; Newline;
   Lit "    <patch"] ++ attribute "type" [Lit "complete"]
   ++ [Lit " URL="; Quote].

Definition Get_body_tail : list piece :=
  [Quote] ++ attribute "hashFunction" [Lit "SHA512"]
   ++ attribute "hashValue" [Conv v_hash]
   ++ attribute "size" [Conv (fun v => Py.str_int (v_size v))]
   ++ [Lit "/>"; Newline;
   Lit "  </update>"; Newline;
   Lit "</updates>"].

(** [Get.body] *)
Definition Get_body : list piece := Get_body_head ++ URL_template ++ Get_body_tail.

(** ['%s=%s' % (key, value)] *)
Definition query_item (kv : string * string) : string := fst kv +:+ "=" +:+ snd kv.

(** ** The program *)

Section Dogdish.

(** [here], the directory of the module, which is the default of
    [directory]. *)
Variable here : string.

(** [ConfigParser.read] on the bytes of a file: the configuration, or
    [None] where the parser raises [ParsingError]. *)
Variable read_config : list byte -> option Config.

(** [query.items()]: the items of a dictionary in the order of its
    iteration, which the language leaves to the implementation. *)
Variable dict_items : list (string * string) -> list (string * string).

(** *** [Application] *)

(** [Application.__init__(filename)]; [f] is the file at [filename], if
    there is one: [config.read] skips a file that it cannot open. *)
Definition Application_init (f : option File) : result Application.t :=
  match
    match f with
    | Some f => read_config (contents f)
    | None => Some empty_config
    end
  with
  | None => Raise ParsingError
  | Some config =>
      match Config_get config "App" "BuildID" with
      | Raise e => Raise e
      | Ok build_id =>
          match Config_get config "App" "Version" with
          | Raise e => Raise e
          | Ok version =>
              Ok {| Application.build_id := build_id;
                    Application.version := version |}
          end
      end
  end.

(** *** [Update] *)

(** [Update.updates(cls, directory)]: the names that the filter accepts,
    as a set. *)
Definition Update_updates (cls : UpdateClass) (directory : string)
    (fs : option Directory) : result (list string) :=
  match fs with
  | None => Raise (OSError directory)
  | Some d => Ok (remove_dups (List.filter (accepted cls) (map fst d)))
  end.

(** [Update.__init__(directory, filename)] for an object of class [cls];
    the result is the reference to the new object. *)
Definition Update_init (cls : UpdateClass) (directory filename : string)
    (fs : option Directory) : M addr :=
  let path := Py.path_join directory filename in
  match fs_lookup fs filename with
  | None => raise (OSError path)
  | Some f =>
      new {| Update.directory := directory;
             Update.filename := filename;
             Update.path := path;
             Update.stamp := stamp_of cls filename;
             Update.modifiedTime := st_mtime f;
             Update.size := Z.of_nat (List.length (contents f));
             Update._application := None;
             Update._hash := None |}
  end.

(** [Update.application(self)] *)
Definition Update_application (self : addr) (fs : option Directory)
    : M Application.t :=
  let* u := deref self in
  match Update._application u with
  | Some a => ret a
  | None =>
      let application_ini := "application_" +:+ Update.stamp u +:+ ".ini" in
      match fs_lookup fs application_ini with
      | None => raise (AssertionError "")
      | Some f =>
          let* a := lift (Application_init (Some f)) in
          let* _ := store self (Update.set_application a u) in
          ret a
      end
  end.

(** The body of the [if] of [Update.hash]: the file is read whole and
    the digest stored in [_hash]. *)
Definition Update_hash_compute (self : addr) (u : Update.t)
    (fs : option Directory) : M string :=
  match fs_lookup fs (Update.filename u) with
  | None => raise (IOError (Update.path u))
  | Some f =>
      let* _ := record_read (Update.path u) in
      let h := SHA512.hexdigest (contents f) in
      let* _ := store self (Update.set_hash h u) in
      ret h
  end.

(** [Update.hash(self)]; [not self._hash] holds of [None] and of the
    empty string. *)
Definition Update_hash (self : addr) (fs : option Directory) : M string :=
  let* u := deref self in
  match Update._hash u with
  | Some h => if Py.truthy h then ret h else Update_hash_compute self u fs
  | None => Update_hash_compute self u fs
  end.

(** *** [Get] *)

(** [Get.match(request)] *)
Definition Get_match (request : Request) : bool :=
  String.eqb (method request) "GET".

(** The query string that [Get.__call__] builds from the dictionary
    [query]. *)
Definition query_string (query : list (string * string)) : string :=
  match query with
  | [] => ""
  | _ :: _ => "?" +:+ Py.join "&amp;" (map query_item (dict_items query))
  end.

(** [Get.__call__(self)], for the handler of [request]. *)
Definition Get_call (request : Request) (fs : option Directory) : M Response :=
  let query := [] in
  let dogfood_id := MultiDict_get (GET request) "dogfood_id" in
  let query :=
    match dogfood_id with
    | Some v => if Py.truthy v then dict_set "dogfooding_prerelease_id" v query
                else query
    | None => query
    end in
  let* d := get_app in
  match Dispatcher.current_update d with
  | None => raise (AttributeError "application")
  | Some current_update =>
      let* application := Update_application current_update fs in
      let query := dict_set "build_id" (Application.build_id application) query in
      let query := dict_set "version" (Application.version application) query in
      let query := query_string query in
      let* u := deref current_update in
      let* hash := Update_hash current_update fs in
      let* d := get_app in
      let variables :=
        {| v_update := Update.filename u;
           v_size := Update.size u;
           v_version := Application.version application;
           v_hash := hash;
           v_path := Dispatcher.path d;
           v_build_id := Application.build_id application;
           v_query := query |} in
      ret (Response_OK "text/xml" (format Get_body variables))
  end.

Definition handler_match (h : HandlerClass) (request : Request) : bool :=
  match h with
  | Get => Get_match request
  end.

Definition handler_call (h : HandlerClass) (request : Request)
    (fs : option Directory) : M Response :=
  match h with
  | Get => Get_call request fs
  end.

(** *** [Dispatcher] *)

(** [self.updates[update]] *)
Definition updates_getitem (update : string) : M addr :=
  let* d := get_app in
  match Dispatcher.updates d !! update with
  | Some a => ret a
  | None => raise (KeyError update)
  end.

(** The body of the loop of [Dispatcher.scan]. *)
Definition scan_update (fs : option Directory) (update : string) : M unit :=
  let* d := get_app in
  let* a := Update_init (Dispatcher.update_class d) (Dispatcher.directory d) update fs in
  let* _ := modify_app (fun d => Dispatcher.set_updates (<[update := a]> (Dispatcher.updates d)) d) in
  let* d := get_app in
  match Dispatcher.current_update d with
  | Some c =>
      let* a := updates_getitem update in
      let* u := deref a in
      let* cu := deref c in
      if Update.modifiedTime cu <? Update.modifiedTime u then
        let* a := updates_getitem update in
        modify_app (Dispatcher.set_current_update (Some a))
      else ret tt
  | None =>
      let* a := updates_getitem update in
      modify_app (Dispatcher.set_current_update (Some a))
  end.

(** [Dispatcher.scan(self)] *)
Definition Dispatcher_scan (fs : option Directory) : M bool :=
  let* d := get_app in
  let* contents :=
    lift (Update_updates (Dispatcher.update_class d) (Dispatcher.directory d) fs) in
  let* _ := for_each contents (scan_update fs) in
  ret true.

(** The loop of [Dispatcher.__call__] over the handlers, with its
    [else]. *)
Fixpoint dispatch (hs : list HandlerClass) (request : Request)
    (fs : option Directory) : M Response :=
  match hs with
  | [] => ret HTTPNotFound
  | h :: hs' =>
      if handler_match h request then handler_call h request fs
      else dispatch hs' request fs
  end.

(** [Dispatcher.__call__(self, environ, start_response)], for the request
    of [environ]. *)
Definition Dispatcher_call (request : Request) (fs : option Directory)
    : M Response :=
  let* _ := Dispatcher_scan fs in
  let* d := get_app in
  dispatch (Dispatcher.handlers d) request fs.

(** The keyword arguments of [Dispatcher(...)] that [defaults] names;
    [None] is an argument that is not given. *)
Record Kw : Type := {
  kw_directory : option string;
  kw_path : option string;
  kw_update_class : option UpdateClass
}.

(** [Dispatcher.__init__(self, **kw)] *)
Definition Dispatcher_init (kw : Kw) (fs : option Directory) : M unit :=
  let directory := default here (kw_directory kw) in
  let update_class := default cls_Update (kw_update_class kw) in
  let path :=
    match kw_path kw with
    | Some p =>
        if Py.truthy p then p
        else Py.split_tail "" (Py.strip "/" directory)
    | None => Py.split_tail "" (Py.strip "/" directory)
    end in
  let* _ := modify_app (fun _ =>
    {| Dispatcher.directory := directory;
       Dispatcher.path := path;
       Dispatcher.update_class := update_class;
       Dispatcher.handlers := [Get];
       Dispatcher.updates := ∅;
       Dispatcher.current_update := None |}) in
  let* _ := Dispatcher_scan fs in
  let* d := get_app in
  match Dispatcher.current_update d with
  | Some _ => ret tt
  | None => raise (AssertionError ("No updates found in " +:+ Dispatcher.directory d))
  end.

(** The store before any object exists. *)
Definition blank : State :=
  {| app := {| Dispatcher.directory := "";
               Dispatcher.path := "";
               Dispatcher.update_class := cls_Update;
               Dispatcher.handlers := [];
               Dispatcher.updates := ∅;
               Dispatcher.current_update := None |};
     heap := [];
     reads := [] |}.

(** [Dispatcher(directory=...)]: the application, or the exception that ends
    [main] before it serves. *)
Definition Dispatcher_new (kw : Kw) (fs : option Directory) : result State :=
  match Dispatcher_init kw fs blank with
  | (Ok _, s) => Ok s
  | (Raise e, _) => Raise e
  end.

(** The server of [main]: one call of the application for each request, on
    the file system as it is at that time; an exception leaves the
    application as it is then, for the next request. *)
Fixpoint serve (requests : list (Request * option Directory)) (s : State)
    : list (result Response) * State :=
  match requests with
  | [] => ([], s)
  | (request, fs) :: requests' =>
      let (r, s') := Dispatcher_call request fs s in
      let (rs, s'') := serve requests' s' in
      (r :: rs, s'')
  end.

(** *** [Handler]

    The abstract handler of a request keeps the URL of the application,
    [request.application_url], and the path of that URL,
    [urlparse(request.application_url)[2]]; [urlparse] belongs to the
    Python library and is an argument of [Handler_init]. *)

Record Handler : Type := {
  application_url : string;
  application_path : string
}.

(** [Handler.__init__(self, app, request)], for a request of the given
    application URL. *)
Definition Handler_init (urlparse_path : string -> string) (url : string)
    : Handler :=
  {| application_url := url; application_path := urlparse_path url |}.

(** [Handler.link(self, path, permanant)]; the argument [path] is a string
    ([inl]) or a sequence of strings ([inr]), the empty one by default. *)
Definition Handler_link (self : Handler) (path : string + list string)
    (permanant : bool) : string :=
  let path :=
    match path with
    | inl p => [p]
    | inr l => l
    end in
  let path := map (Py.strip "/") path in
  let application_url :=
    if permanant then [application_url self] else [application_path self] in
  let path := (application_url ++ path)%list in
  Py.join "/" path.

(** *** What the properties speak of *)

(** The object that the cache holds for a name, and the current one. *)
Definition cached (s : State) (name : string) (u : Update.t) : Prop :=
  exists a, Dispatcher.updates (app s) !! name = Some a /\ heap s !! a = Some u.

Definition current (s : State) (u : Update.t) : Prop :=
  exists c, Dispatcher.current_update (app s) = Some c /\ heap s !! c = Some u.

(** The states of a running dispatcher: the cache and [current_update]
    refer to objects of the heap, each cached object bears the name it is
    cached under, the current object bears a cached name, no cached
    object is newer than it and none of the same time was built before it,
    and there is a current object as soon as the cache is not empty. *)
Record wf (s : State) : Prop := {
  wf_updates : forall name a,
    Dispatcher.updates (app s) !! name = Some a ->
    exists u, heap s !! a = Some u /\ Update.filename u = name;
  wf_current : forall c,
    Dispatcher.current_update (app s) = Some c ->
    exists u, heap s !! c = Some u
      /\ is_Some (Dispatcher.updates (app s) !! Update.filename u)
      /\ forall name u', cached s name u' ->
           Update.modifiedTime u' <= Update.modifiedTime u;
  wf_first : forall c cu name a u,
    Dispatcher.current_update (app s) = Some c -> heap s !! c = Some cu ->
    Dispatcher.updates (app s) !! name = Some a -> heap s !! a = Some u ->
    Update.modifiedTime u = Update.modifiedTime cu -> (c <= a)%nat;
  wf_empty :
    Dispatcher.current_update (app s) = None -> Dispatcher.updates (app s) = ∅
}.

(** The names of a directory that the filter accepts, in the order of the
    loop of [scan]. *)
Definition matching (cls : UpdateClass) (d : Directory) : list string :=
  remove_dups (List.filter (accepted cls) (map fst d)).

(** A request with another path. *)
Definition with_path (p : string) (request : Request) : Request :=
  {| method := method request; path_info := p; GET := GET request |}.

(** The companion of an update, by name. *)
Definition application_ini (u : Update.t) : string :=
  "application_" +:+ Update.stamp u +:+ ".ini".

(** A configuration that lacks the section [App], or one of the two
    options in both [App] and [DEFAULT]. *)
Definition lacks_option (c : Config) (options : list (string * string))
    (opt : string) : Prop :=
  assoc opt options = None /\ assoc opt (defaults c) = None.

Definition lacks_fields (c : Config) : Prop :=
  match assoc "App" (sections c) with
  | None => True
  | Some options => lacks_option c options "buildid" \/ lacks_option c options "version"
  end.

(** The object that [Update.__init__] builds for a file. *)
Definition Update_of (cls : UpdateClass) (directory filename : string) (f : File)
    : Update.t :=
  {| Update.directory := directory;
     Update.filename := filename;
     Update.path := Py.path_join directory filename;
     Update.stamp := stamp_of cls filename;
     Update.modifiedTime := st_mtime f;
     Update.size := Z.of_nat (List.length (contents f));
     Update._application := None;
     Update._hash := None |}.

(** The state after one turn of the loop of [scan] on the file [f] of the
    name [update], where the current object, if any, is in the heap. *)
Definition scan_update_state (s : State) (update : string) (f : File) : State :=
  let a := List.length (heap s) in
  let d := app s in
  let u := Update_of (Dispatcher.update_class d) (Dispatcher.directory d) update f in
  let d1 := Dispatcher.set_updates (<[update := a]> (Dispatcher.updates d)) d in
  let d2 :=
    match Dispatcher.current_update d with
    | Some c =>
        match heap s !! c with
        | Some cu =>
            if Update.modifiedTime cu <? st_mtime f
            then Dispatcher.set_current_update (Some a) d1
            else d1
        | None => d1
        end
    | None => Dispatcher.set_current_update (Some a) d1
    end in
  {| app := d2; heap := heap s ++ [u]; reads := reads s |}.

(** The state after the loop of [scan] over [names], each of them the name
    of a file of [d]. *)
Fixpoint scan_states (d : Directory) (names : list string) (s : State) : State :=
  match names with
  | [] => s
  | x :: names' =>
      match find_file x d with
      | Some f => scan_states d names' (scan_update_state s x f)
      | None => s
      end
  end.

(** The objects are built in the order in which [scan] meets the names, so
    that of two objects the one at the greater address was observed later.
    The selection that keeps, among the cache entries of the greatest time,
    the one observed last: the current object is the cache entry of its
    name, no entry is newer, and none of the same time was observed after
    it. *)
Definition newest_last_observed (s : State) : Prop :=
  exists c cu,
    Dispatcher.current_update (app s) = Some c /\ heap s !! c = Some cu
    /\ Dispatcher.updates (app s) !! Update.filename cu = Some c
    /\ forall name a u,
         Dispatcher.updates (app s) !! name = Some a -> heap s !! a = Some u ->
         Update.modifiedTime u <= Update.modifiedTime cu
         /\ (Update.modifiedTime u = Update.modifiedTime cu -> (a <= c)%nat).

(** The selection of [scan]: the current object bears a cached name, no
    cache entry is newer, and none of the same time was observed before
    it. *)
Definition newest_first_observed (s : State) : Prop :=
  exists c cu,
    Dispatcher.current_update (app s) = Some c /\ heap s !! c = Some cu
    /\ is_Some (Dispatcher.updates (app s) !! Update.filename cu)
    /\ forall name a u,
         Dispatcher.updates (app s) !! name = Some a -> heap s !! a = Some u ->
         Update.modifiedTime u <= Update.modifiedTime cu
         /\ (Update.modifiedTime u = Update.modifiedTime cu -> (c <= a)%nat).

(** A computation keeps a relation between states when the state it leaves,
    whether it returns or raises, is related to the one it was given. *)
Definition keeps {A : Type} (R : relation State) (m : M A) : Prop :=
  forall s, R s (snd (m s)).

(** What no call undoes: the cached names stay, a current object stays
    set, and the settings of the dispatcher stay as they are. *)
Definition extends : relation State := fun s s' =>
  dom (Dispatcher.updates (app s)) ⊆ dom (Dispatcher.updates (app s'))
  /\ (is_Some (Dispatcher.current_update (app s))
      -> is_Some (Dispatcher.current_update (app s')))
  /\ Dispatcher.handlers (app s') = Dispatcher.handlers (app s)
  /\ Dispatcher.directory (app s') = Dispatcher.directory (app s)
  /\ Dispatcher.path (app s') = Dispatcher.path (app s)
  /\ Dispatcher.update_class (app s') = Dispatcher.update_class (app s).

(** What a handler leaves of a state: the dispatcher as it was, and in the
    heap the same objects, each with the name and the time it had (a
    handler fills their [_application] and [_hash]). *)
Definition same_file (u u' : Update.t) : Prop :=
  Update.filename u' = Update.filename u
  /\ Update.modifiedTime u' = Update.modifiedTime u.

Definition retouched : relation State := fun s s' =>
  app s' = app s /\ Forall2 same_file (heap s) (heap s').

(** The dispatcher when [__init__] has set its attributes and is about to
    scan. *)
Definition unscanned (kw : Kw) : State :=
  let directory := default here (kw_directory kw) in
  {| app :=
       {| Dispatcher.directory := directory;
          Dispatcher.path :=
            match kw_path kw with
            | Some p =>
                if Py.truthy p then p
                else Py.split_tail "" (Py.strip "/" directory)
            | None => Py.split_tail "" (Py.strip "/" directory)
            end;
          Dispatcher.update_class := default cls_Update (kw_update_class kw);
          Dispatcher.handlers := [Get];
          Dispatcher.updates := ∅;
          Dispatcher.current_update := None |};
     heap := [];
     reads := [] |}.

(** What an object keeps for life: the attributes that [__init__] sets,
    the metadata once they are loaded and the hash once it is computed. *)
Definition fills (u u' : Update.t) : Prop :=
  Update.directory u' = Update.directory u
  /\ Update.filename u' = Update.filename u
  /\ Update.path u' = Update.path u
  /\ Update.stamp u' = Update.stamp u
  /\ Update.modifiedTime u' = Update.modifiedTime u
  /\ Update.size u' = Update.size u
  /\ (forall a, Update._application u = Some a -> Update._application u' = Some a)
  /\ (forall h, Update._hash u = Some h -> Py.truthy h = true ->
        Update._hash u' = Some h).

(** The objects of a state are still there in a later one, each with what
    it keeps. *)
Definition matures : relation State := fun s s' =>
  forall a u, heap s !! a = Some u ->
    exists u', heap s' !! a = Some u' /\ fills u u'.

(** No file content is read between two states. *)
Definition same_reads : relation State := fun s s' => reads s' = reads s.

(** *** Reading a response *)

(** What follows the first occurrence of [pat] in [s]. *)
Fixpoint find_after (pat s : string) : option string :=
  if Py.startswith s pat then Some (Py.drop (String.length pat) s)
  else
    match s with
    | EmptyString => None
    | String _ s' => find_after pat s'
    end.

(** [s] up to its first double quote. *)
Fixpoint until_quote (s : string) : string :=
  match s with
  | EmptyString => EmptyString
  | String c s' =>
      if Ascii.eqb c (ascii_of_nat 34) then EmptyString else String c (until_quote s')
  end.

(** The value of the first attribute [name] of a document. *)
Definition attribute_value (name body : string) : option string :=
  match find_after (" " +:+ name +:+ "=" +:+ String (ascii_of_nat 34) EmptyString) body with
  | Some rest => Some (until_quote rest)
  | None => None
  end.

(** [pat in s] *)
Definition contains (s pat : string) : bool :=
  match find_after pat s with
  | Some _ => true
  | None => false
  end.

(** The digits of a hexadecimal number in lower case. *)
Definition is_hex (c : ascii) : bool :=
  let n := nat_of_ascii c in
  ((48 <=? n) && (n <=? 57) || (97 <=? n) && (n <=? 102))%nat.

Fixpoint all_hex (s : string) : bool :=
  match s with
  | EmptyString => true
  | String c s' => is_hex c && all_hex s'
  end.

(** *** The manifest *)

(** The dictionary [query] of [Get.__call__] when the metadata of the
    current update are [application]. *)
Definition Get_query (request : Request) (application : Application.t)
    : list (string * string) :=
  let query :=
    match MultiDict_get (GET request) "dogfood_id" with
    | Some v => if Py.truthy v then dict_set "dogfooding_prerelease_id" v [] else []
    | None => []
    end in
  dict_set "version" (Application.version application)
    (dict_set "build_id" (Application.build_id application) query).

(** *** A reader of plain configuration files

    [RawConfigParser.read] on the files of the scenarios below: lines that
    are blank or start with [#] or [;], section headers [[name]], and
    options [name=value] or [name: value] with spaces around the name and
    the value stripped.  Continuation lines, [rem] lines, tabs, carriage
    returns, the quoted empty value and comments after a value are left
    out: the files of the scenarios have none.  A line that is none of
    these, or an option before any header, is a parsing error. *)

Definition newline : string := String (ascii_of_nat 10) EmptyString.

(** [s.split(newline)], without a last empty line; [acc] is the line being
    read. *)
Fixpoint split_lines (acc s : string) : list string :=
  match s with
  | EmptyString => if Py.truthy acc then [acc] else []
  | String c s' =>
      if Ascii.eqb c (ascii_of_nat 10) then acc :: split_lines EmptyString s'
      else split_lines (acc +:+ String c EmptyString) s'
  end.

(** [s] up to its first character that satisfies [p], and what follows
    that character. *)
Fixpoint break (p : ascii -> bool) (s : string) : option (string * string) :=
  match s with
  | EmptyString => None
  | String c s' =>
      if p c then Some (EmptyString, s')
      else
        match break p s' with
        | Some (a, b) => Some (String c a, b)
        | None => None
        end
  end.

(** A section header: [[], a name of one character at least, []]. *)
Definition header (line : string) : option string :=
  match line with
  | String c rest =>
      if Ascii.eqb c "[" then
        match break (Ascii.eqb "]") rest with
        | Some (name, _) => if Py.truthy name then Some name else None
        | None => None
        end
      else None
  | EmptyString => None
  end.

(** An option: a name that starts with neither a space nor a separator,
    one of the separators [=] and [:], a value. *)
Definition option_line (line : string) : option (string * string) :=
  match break (fun c => Ascii.eqb c "=" || Ascii.eqb c ":") line with
  | Some (name, value) =>
      if Py.truthy name && negb (Py.startswith name " ")
      then Some (Py.lower (Py.rstrip " " name), Py.strip " " value)
      else None
  | None => None
  end.

Definition add_section (name : string) (c : Config) : Config :=
  if String.eqb name "DEFAULT" then c
  else
    match assoc name (sections c) with
    | Some _ => c
    | None => {| defaults := defaults c; sections := sections c ++ [(name, [])] |}
    end.

Definition set_option (section : string) (kv : string * string) (c : Config) : Config :=
  if String.eqb section "DEFAULT"
  then {| defaults := kv :: defaults c; sections := sections c |}
  else {| defaults := defaults c;
          sections := map (fun so => if String.eqb (fst so) section
                                     then (fst so, kv :: snd so) else so)
                          (sections c) |}.

Fixpoint read_lines (lines : list string) (cursect : option string) (c : Config)
    : option Config :=
  match lines with
  | [] => Some c
  | line :: lines' =>
      if String.eqb (Py.strip " " line) "" || Py.startswith line "#"
         || Py.startswith line ";"
      then read_lines lines' cursect c
      else
        match header line with
        | Some name => read_lines lines' (Some name) (add_section name c)
        | None =>
            match cursect, option_line line with
            | Some section, Some kv => read_lines lines' cursect (set_option section kv c)
            | _, _ => None
            end
        end
  end.

Definition read_plain (data : list byte) : option Config :=
  read_lines (split_lines EmptyString (string_of_list_byte data)) None empty_config.

(** *** The scenarios *)

(** The directory of the first scenario: an update of a hundred bytes, and
    its companion. *)
Definition nightly_mar : string := "b2g_update_20130101000000.mar".

Definition nightly_ini : string := "application_20130101000000.ini".

Definition nightly_ini_file : File :=
  {| st_mtime := 1357002000;
     contents :=
       list_byte_of_string
         ("[App]" +:+ newline +:+ "BuildID=20130101000000" +:+ newline
          +:+ "Version=1.0" +:+ newline) |}.

Definition nightly_mar_file : File :=
  {| st_mtime := 1357002000; contents := repeat Byte.x00 100 |}.

Definition nightly : Directory :=
  [(nightly_mar, nightly_mar_file); (nightly_ini, nightly_ini_file)].

(** What the parser gathers from the companion. *)
Definition nightly_config : Config :=
  {| defaults := [];
     sections := [("App", [("version", "1.0"); ("buildid", "20130101000000")])] |}.

Definition nightly_application : Application.t :=
  {| Application.build_id := "20130101000000"; Application.version := "1.0" |}.

(** [main] gives the directory and nothing else. *)
Definition kw_nightly : Kw :=
  {| kw_directory := Some "/srv/updates/nightly";
     kw_path := None;
     kw_update_class := None |}.

Definition nightly_URL : string :=
  "http://update.boot2gecko.org/nightly/b2g_update_20130101000000.mar".

(** A request to the root, and one to another path. *)
Definition get_root (params : list (string * string)) : Request :=
  {| method := "GET"; path_info := "/"; GET := params |}.

Definition get_elsewhere : Request :=
  {| method := "GET"; path_info := "/no/such/page"; GET := [] |}.

Definition post_root : Request :=
  {| method := "POST"; path_info := "/"; GET := [] |}.

(** Two updates of the same time. *)
Definition twin_first : string := "b2g_update_20130101000000.mar".

Definition twin_second : string := "b2g_update_20130102000000.mar".

Definition twins : Directory :=
  [(twin_first, {| st_mtime := 1357002000; contents := [] |});
   (twin_second, {| st_mtime := 1357002000; contents := [] |})].

(** The directory of the module, where the program is installed. *)
Definition site : string := "/usr/lib/python2.7/site-packages/dogdish".

(** The update of the first scenario without its companion, and the
    companion alone. *)
Definition lonely : Directory := [(nightly_mar, nightly_mar_file)].

Definition companion_only : Directory := [(nightly_ini, nightly_ini_file)].

(** The directory of the first scenario when its update has been written
    again, shorter and with an earlier time. *)
Definition nightly_rewritten : Directory :=
  [(nightly_mar, {| st_mtime := 1357000000; contents := repeat Byte.x00 10 |});
   (nightly_ini, nightly_ini_file)].

(** The request of the second scenario. *)
Definition get_dogfood : Request := get_root [("dogfood_id", "abc")].

(** * Properties *)

Example stamp_of_nightly :
  stamp_of cls_Update "b2g_update_20130101000000.mar" = "20130101000000".
Proof. reflexivity. Qed.

Example stamp_of_stable :
  stamp_of cls_UpdateStable "b2g_stable_update_2013.mar" = "2013".
Proof. reflexivity. Qed.

(** *** SHA-512 on test vectors, and the size of a digest *)

Example sha512_empty :
  SHA512.hexdigest [] =
  "cf83e1357eefb8bdf1542850d66d8007d620e4050b5715dc83f4a921d36ce9ce47d0d13c5d85f2b0ff8318d2877eec2f63b931bd47417a81a538327af927da3e".
Proof. vm_compute. reflexivity. Qed.

Example sha512_abc :
  SHA512.hexdigest (list_byte_of_string "abc") =
  "ddaf35a193617abacc417349ae20413112e6fa4e89a97ea20a9eeee64b55d39a2192992a274fc1a836ba3c23a3feebbd454d4423643ce80e2a9ac94fa54ca49f".
Proof. vm_compute. reflexivity. Qed.

(** A message of 112 bytes, whose padding opens a second block. *)
Example sha512_two_blocks :
  SHA512.hexdigest (repeat "a"%byte 112) =
  "c01d080efd492776a1c43bd23dd99d0a2e626d481e16782e75d54c2503b5dc32bd05f0f1ba33e568b88fd2d970929b719ecbb152f58f130a407c8830604b70ca".
Proof. vm_compute. reflexivity. Qed.

Lemma length_hex64 x k :
  String.length (SHA512.hex64 x k) = (16 + String.length k)%nat.
Proof. reflexivity. Qed.

(** The digest is printed on 128 characters, whatever the data. *)
Lemma length_hexdigest data : String.length (SHA512.hexdigest data) = 128%nat.
Proof.
  unfold SHA512.hexdigest, SHA512.hex_of_state.
  now rewrite !length_hex64.
Qed.

(** *** Facts on the string operations *)

Lemma app_String c (p s : string) : String c p +:+ s = String c (p +:+ s).
Proof. reflexivity. Qed.

Lemma length_app (p s : string) :
  String.length (p +:+ s) = (String.length p + String.length s)%nat.
Proof. induction p as [|c p IH]; [reflexivity|]. rewrite app_String. simpl. now rewrite IH. Qed.

Lemma startswith_app s p :
  Py.startswith s p = true -> s = p +:+ Py.drop (String.length p) s.
Proof.
  revert s; induction p as [|c p IH]; intros s; simpl.
  - reflexivity.
  - destruct s as [|d s]; simpl; [discriminate|].
    destruct (Ascii.eqb_spec c d) as [E|E]; [subst d|discriminate].
    intros H. rewrite app_String. f_equal. now apply IH.
Qed.

Lemma length_drop n s : String.length (Py.drop n s) = (String.length s - n)%nat.
Proof.
  revert s; induction n as [|n IH]; intros [|c s]; simpl; auto with arith.
Qed.

Lemma take_drop n s : Py.take n s +:+ Py.drop n s = s.
Proof.
  revert s; induction n as [|n IH]; intros [|c s]; simpl; auto.
  now rewrite app_String, IH.
Qed.

Lemma drop_drop n m s : Py.drop n (Py.drop m s) = Py.drop (m + n) s.
Proof.
  revert s; induction m as [|m IH]; intros s; simpl; auto.
  destruct s; simpl; auto. now destruct n.
Qed.

Lemma drop_app_length p s : Py.drop (String.length p) (p +:+ s) = s.
Proof. induction p; simpl; rewrite ?app_String; auto. Qed.

Lemma endswith_drop s q :
  Py.endswith s q = true ->
  (String.length q <= String.length s)%nat
  /\ Py.drop (String.length s - String.length q) s = q.
Proof.
  unfold Py.endswith. intros H.
  apply andb_true_iff in H as [H1 H2].
  apply Nat.leb_le in H1. apply String.eqb_eq in H2. auto.
Qed.

(** A name that starts with the prefix and ends with [".mar"] is long enough
  to hold both: no character of either prefix is a dot, so the two cannot
  overlap. *)
Lemma accepted_length cls i :
  accepted cls i = true ->
  (String.length (prefix cls) + String.length (suffix cls) <= String.length i)%nat.
Proof.
  unfold accepted. intros H.
  apply andb_true_iff in H as [Hp Hs].
  apply startswith_app in Hp.
  apply endswith_drop in Hs as [Hlen Hs].
  set (r := Py.drop (String.length (prefix cls)) i) in *.
  assert (Hl : String.length i = (String.length (prefix cls) + String.length r)%nat).
  { rewrite Hp at 1. now rewrite length_app. }
  destruct (le_lt_dec (String.length (suffix cls)) (String.length r)) as [|Hlt];
    [lia|exfalso].
  rewrite Hp in Hs. rewrite length_app in Hs.
  destruct cls; simpl in Hlt, Hs;
    destruct r as [|a [|b [|c [|d r]]]]; simpl in Hlt, Hs; try lia; discriminate.
Qed.

(** C5. For every filename the filter of [Update.updates] accepts (it starts
  with the prefix of the class and ends with the suffix), the stamp that
  [Update.__init__] derives satisfies
  [prefix + stamp + suffix == filename]. *)
Theorem stamp_roundtrip (cls : UpdateClass) (filename : string) :
  accepted cls filename = true ->
  prefix cls +:+ stamp_of cls filename +:+ suffix cls = filename.
Proof.
  intros Hacc.
  pose proof (accepted_length cls filename Hacc) as Hlen.
  unfold accepted in Hacc. apply andb_true_iff in Hacc as [Hp Hs].
  apply startswith_app in Hp. apply endswith_drop in Hs as [_ Hs].
  unfold stamp_of, Py.slice, Py.slice_index, Py.len.
  set (p := String.length (prefix cls)) in *.
  set (q := String.length (suffix cls)) in *.
  set (n := String.length filename) in *.
  assert (Hq : (0 < q)%nat) by (subst q; destruct cls; simpl; lia).
  destruct (Z.ltb_spec (Z.of_nat p) 0) as [|_]; [lia|].
  destruct (Z.ltb_spec (- Z.of_nat q) 0) as [_|]; [|lia].
  replace (Z.to_nat (Z.min (Z.of_nat p) (Z.of_nat n))) with p by lia.
  replace (Z.to_nat (Z.max 0 (Z.of_nat n + - Z.of_nat q)
                     - Z.min (Z.of_nat p) (Z.of_nat n))) with (n - q - p)%nat by lia.
  etransitivity; [|symmetry; exact Hp]. f_equal.
  etransitivity; [|apply (take_drop (n - q - p))]. f_equal.
  rewrite drop_drop. replace (p + (n - q - p))%nat with (n - q)%nat by lia.
  now rewrite Hs.
Qed.

(** The stamp of the nightly file of the end-to-end scenarios. *)
Lemma stamp_roundtrip_witness :
  accepted cls_Update "b2g_update_20130101000000.mar" = true
  /\ prefix cls_Update +:+ stamp_of cls_Update "b2g_update_20130101000000.mar"
       +:+ suffix cls_Update = "b2g_update_20130101000000.mar".
Proof.
  split; [reflexivity|].
  apply (stamp_roundtrip cls_Update "b2g_update_20130101000000.mar").
  reflexivity.
Defined.

(** *** The loop of [scan] *)

Lemma find_file_names (d : Directory) (x : string) :
  x ∈ map fst d -> is_Some (find_file x d).
Proof.
  induction d as [|[n f] d IH]; simpl; intros H.
  - inversion H.
  - destruct (String.eqb_spec n x) as [->|Hne]; [eauto|].
    apply IH. inversion H; subst; [congruence|assumption].
Qed.

Lemma matching_names (cls : UpdateClass) (d : Directory) (x : string) :
  x ∈ matching cls d <-> x ∈ map fst d /\ accepted cls x = true.
Proof.
  unfold matching. rewrite elem_of_remove_dups, !list_elem_of_In, filter_In.
  reflexivity.
Qed.

Lemma matching_NoDup (cls : UpdateClass) (d : Directory) : NoDup (matching cls d).
Proof. apply NoDup_remove_dups. Qed.

Ltac unfold_ops :=
  unfold bind, get_app, modify_app, deref, store, new, ret, raise, lift, record_read.

Ltac proj_simpl :=
  cbn [app heap reads fst snd
       Dispatcher.directory Dispatcher.path Dispatcher.update_class
       Dispatcher.handlers Dispatcher.updates Dispatcher.current_update
       Dispatcher.set_updates Dispatcher.set_current_update
       Update.directory Update.filename Update.path Update.stamp
       Update.modifiedTime Update.size Update._application Update._hash
       Update.set_application Update.set_hash] in *.

Lemma scan_update_eq (s : State) (d : Directory) (update : string) (f : File) :
  find_file update d = Some f ->
  (forall c, Dispatcher.current_update (app s) = Some c -> is_Some (heap s !! c)) ->
  scan_update (Some d) update s = (Ok tt, scan_update_state s update f).
Proof.
  intros Hf Hc.
  unfold scan_update, scan_update_state, Update_init, updates_getitem, fs_lookup.
  unfold_ops. rewrite Hf. proj_simpl.
  destruct (Dispatcher.current_update (app s)) as [c|] eqn:Ecur; proj_simpl.
  - rewrite lookup_insert_eq. proj_simpl.
    rewrite lookup_app_r by lia. rewrite Nat.sub_diag.
    cbn [lookup list_lookup]. proj_simpl.
    destruct (Hc c eq_refl) as [cu Hcu].
    rewrite lookup_app_l by (eapply lookup_lt_Some; eauto).
    rewrite Hcu. unfold Update_of. proj_simpl.
    destruct (Update.modifiedTime cu <? st_mtime f); proj_simpl; [|reflexivity].
    rewrite lookup_insert_eq. reflexivity.
  - rewrite lookup_insert_eq. reflexivity.
Qed.

Lemma sus_heap (s : State) (x : string) (f : File) :
  heap (scan_update_state s x f)
  = (heap s ++ [Update_of (Dispatcher.update_class (app s))
                          (Dispatcher.directory (app s)) x f])%list.
Proof. reflexivity. Qed.

Lemma sus_reads (s : State) (x : string) (f : File) :
  reads (scan_update_state s x f) = reads s.
Proof. reflexivity. Qed.

Lemma sus_updates (s : State) (x : string) (f : File) :
  Dispatcher.updates (app (scan_update_state s x f))
  = <[x := List.length (heap s)]> (Dispatcher.updates (app s)).
Proof.
  unfold scan_update_state. proj_simpl.
  destruct (Dispatcher.current_update (app s)) as [c|]; [|reflexivity].
  destruct (heap s !! c) as [cu|]; [|reflexivity].
  destruct (Update.modifiedTime cu <? st_mtime f); reflexivity.
Qed.

Lemma sus_current (s : State) (x : string) (f : File) :
  Dispatcher.current_update (app (scan_update_state s x f))
  = match Dispatcher.current_update (app s) with
    | Some c =>
        match heap s !! c with
        | Some cu =>
            if Update.modifiedTime cu <? st_mtime f then Some (List.length (heap s))
            else Some c
        | None => Some c
        end
    | None => Some (List.length (heap s))
    end.
Proof.
  unfold scan_update_state. proj_simpl.
  destruct (Dispatcher.current_update (app s)) as [c|] eqn:E; [|reflexivity].
  destruct (heap s !! c) as [cu|]; [|exact E].
  destruct (Update.modifiedTime cu <? st_mtime f); [reflexivity|exact E].
Qed.

Lemma sus_config (s : State) (x : string) (f : File) :
  Dispatcher.directory (app (scan_update_state s x f)) = Dispatcher.directory (app s)
  /\ Dispatcher.path (app (scan_update_state s x f)) = Dispatcher.path (app s)
  /\ Dispatcher.update_class (app (scan_update_state s x f))
     = Dispatcher.update_class (app s)
  /\ Dispatcher.handlers (app (scan_update_state s x f)) = Dispatcher.handlers (app s).
Proof.
  unfold scan_update_state. proj_simpl.
  destruct (Dispatcher.current_update (app s)) as [c|]; [|auto].
  destruct (heap s !! c) as [cu|]; [|auto].
  destruct (Update.modifiedTime cu <? st_mtime f); auto.
Qed.

(** What the cache holds after one turn of the loop. *)
Lemma sus_cached (s : State) (x : string) (f : File) (name : string) (u : Update.t) :
  wf s ->
  cached (scan_update_state s x f) name u <->
  (name = x /\ u = Update_of (Dispatcher.update_class (app s))
                             (Dispatcher.directory (app s)) x f)
  \/ (name <> x /\ cached s name u).
Proof.
  intros Hwf. unfold cached. rewrite sus_updates, sus_heap.
  destruct (decide (name = x)) as [->|Hne].
  - rewrite lookup_insert_eq. split.
    + intros (a & Ha & Hu). injection Ha as <-.
      rewrite lookup_app_r, Nat.sub_diag in Hu by lia. cbn in Hu.
      left. split; congruence.
    + intros [[_ ->]|[Hn _]]; [|congruence].
      eexists. split; [reflexivity|].
      now rewrite lookup_app_r, Nat.sub_diag by lia.
  - rewrite lookup_insert_ne by congruence. split.
    + intros (a & Ha & Hu). right. split; [assumption|].
      exists a. split; [assumption|].
      destruct (wf_updates s Hwf name a Ha) as (v & Hv & _).
      rewrite lookup_app_l in Hu by (eapply lookup_lt_Some; eauto). assumption.
    + intros [[Hn _]|[_ (a & Ha & Hu)]]; [congruence|].
      exists a. split; [assumption|].
      rewrite lookup_app_l by (eapply lookup_lt_Some; eauto). assumption.
Qed.

(** One turn of the loop keeps the state well formed. *)
Lemma sus_wf (s : State) (x : string) (f : File) :
  wf s -> wf (scan_update_state s x f).
Proof.
  intros Hwf. split.
  - intros name a. rewrite sus_updates, sus_heap. intros Ha.
    destruct (decide (name = x)) as [->|Hne].
    + rewrite lookup_insert_eq in Ha. injection Ha as <-.
      eexists. rewrite lookup_app_r, Nat.sub_diag by lia. split; reflexivity.
    + rewrite lookup_insert_ne in Ha by congruence.
      destruct (wf_updates s Hwf name a Ha) as (v & Hv & Hn).
      exists v. split; [|assumption].
      rewrite lookup_app_l by (eapply lookup_lt_Some; eauto). assumption.
  - intros c'. rewrite sus_current, sus_updates, sus_heap.
    set (u := Update_of _ _ x f).
    assert (Hnew : forall c', c' = List.length (heap s) ->
              (forall name u', cached s name u' -> name <> x ->
                 Update.modifiedTime u' <= st_mtime f) ->
              exists u0, (heap s ++ [u])%list !! c' = Some u0
                /\ is_Some (<[x := List.length (heap s)]> (Dispatcher.updates (app s))
                              !! Update.filename u0)
                /\ forall name u', cached (scan_update_state s x f) name u' ->
                     Update.modifiedTime u' <= Update.modifiedTime u0).
    { intros ? -> Hold. exists u.
      rewrite lookup_app_r, Nat.sub_diag by lia. split; [reflexivity|]. split.
      - subst u. cbn. rewrite lookup_insert_eq. eauto.
      - intros name u' Hc. apply sus_cached in Hc; [|assumption].
        destruct Hc as [[-> ->]|[Hne Hc]]; [reflexivity|].
        subst u. cbn. eauto. }
    destruct (Dispatcher.current_update (app s)) as [c|] eqn:Ecur.
    + destruct (wf_current s Hwf c Ecur) as (cu & Hcu & Hin & Hmax).
      rewrite Hcu.
      destruct (Z.ltb_spec (Update.modifiedTime cu) (st_mtime f)) as [Hlt|Hge];
        intros [= <-].
      * apply Hnew; [reflexivity|]. intros name u' Hc _.
        specialize (Hmax name u' Hc). lia.
      * exists cu. split; [|split].
        -- rewrite lookup_app_l by (eapply lookup_lt_Some; eauto). assumption.
        -- destruct (decide (Update.filename cu = x)) as [->|Hne].
           ++ rewrite lookup_insert_eq. eauto.
           ++ rewrite lookup_insert_ne by congruence. assumption.
        -- intros name u' Hc. apply sus_cached in Hc; [|assumption].
           destruct Hc as [[-> ->]|[Hne Hc]]; [cbn; lia|eauto].
    + intros [= <-]. apply Hnew; [reflexivity|].
      intros name u' (a & Ha & _) _.
      rewrite (wf_empty s Hwf Ecur) in Ha. rewrite lookup_empty in Ha. discriminate.
  - intros c' cu' name a u. rewrite sus_current, sus_updates, sus_heap.
    intros Hc' Hcu' Ha Hu Heq.
    assert (Hxa : name = x -> a = List.length (heap s)).
    { intros ->. rewrite lookup_insert_eq in Ha. congruence. }
    assert (Hold : name <> x ->
              Dispatcher.updates (app s) !! name = Some a /\ heap s !! a = Some u).
    { intros Hne. rewrite lookup_insert_ne in Ha by congruence.
      split; [assumption|].
      destruct (wf_updates s Hwf name a Ha) as (v & Hv & _).
      rewrite lookup_app_l in Hu by (eapply lookup_lt_Some; eauto). assumption. }
    destruct (Dispatcher.current_update (app s)) as [c|] eqn:Ecur.
    + destruct (wf_current s Hwf c Ecur) as (cu & Hcu & Hin & Hmax).
      pose proof (lookup_lt_Some _ _ _ Hcu) as Hlen.
      rewrite Hcu in Hc'.
      destruct (Z.ltb_spec (Update.modifiedTime cu) (st_mtime f)) as [Hlt|Hge];
        injection Hc' as <-.
      * destruct (decide (name = x)) as [Hx|Hne]; [rewrite (Hxa Hx); lia|].
        destruct (Hold Hne) as [Ha' Hu'].
        rewrite lookup_app_r, Nat.sub_diag in Hcu' by lia. cbn in Hcu'.
        injection Hcu' as <-. cbn in Heq.
        assert (Update.modifiedTime u <= Update.modifiedTime cu)
          by (apply (Hmax name); exists a; auto).
        lia.
      * destruct (decide (name = x)) as [Hx|Hne]; [rewrite (Hxa Hx); lia|].
        destruct (Hold Hne) as [Ha' Hu'].
        rewrite lookup_app_l in Hcu' by assumption.
        exact (wf_first s Hwf c cu' name a u Ecur Hcu' Ha' Hu' Heq).
    + injection Hc' as <-.
      destruct (decide (name = x)) as [Hx|Hne]; [rewrite (Hxa Hx); lia|].
      destruct (Hold Hne) as [Ha' _].
      rewrite (wf_empty s Hwf Ecur), lookup_empty in Ha'. discriminate.
  - rewrite sus_current.
    destruct (Dispatcher.current_update (app s)) as [c|]; [|discriminate].
    destruct (heap s !! c) as [cu|]; [|discriminate].
    destruct (Update.modifiedTime cu <? st_mtime f); discriminate.
Qed.

(** The loop of [scan] on a well-formed state raises nothing. *)
Lemma for_each_scan (d : Directory) (names : list string) (s : State) :
  wf s -> (forall x, x ∈ names -> x ∈ map fst d) ->
  for_each names (scan_update (Some d)) s = (Ok tt, scan_states d names s).
Proof.
  revert s. induction names as [|x names IH]; intros s Hwf Hin; [reflexivity|].
  destruct (find_file_names d x) as [f Hf]; [apply Hin; left|].
  cbn [for_each scan_states]. rewrite Hf. unfold bind at 1.
  rewrite (scan_update_eq s d x f Hf).
  - apply IH; [now apply sus_wf|]. intros y Hy. apply Hin. now right.
  - intros c Hc. destruct (wf_current s Hwf c Hc) as (u & Hu & _). eauto.
Qed.

Lemma scan_states_wf (d : Directory) (names : list string) (s : State) :
  wf s -> wf (scan_states d names s).
Proof.
  revert s. induction names as [|x names IH]; intros s Hwf; [assumption|].
  cbn [scan_states]. destruct (find_file x d) as [f|]; [|assumption].
  apply IH. now apply sus_wf.
Qed.

Lemma scan_states_reads (d : Directory) (names : list string) (s : State) :
  reads (scan_states d names s) = reads s.
Proof.
  revert s. induction names as [|x names IH]; intros s; [reflexivity|].
  cbn [scan_states]. destruct (find_file x d) as [f|]; [|reflexivity].
  now rewrite IH, sus_reads.
Qed.

Lemma scan_states_config (d : Directory) (names : list string) (s : State) :
  Dispatcher.directory (app (scan_states d names s)) = Dispatcher.directory (app s)
  /\ Dispatcher.path (app (scan_states d names s)) = Dispatcher.path (app s)
  /\ Dispatcher.update_class (app (scan_states d names s))
     = Dispatcher.update_class (app s)
  /\ Dispatcher.handlers (app (scan_states d names s)) = Dispatcher.handlers (app s).
Proof.
  revert s. induction names as [|x names IH]; intros s; [auto|].
  cbn [scan_states]. destruct (find_file x d) as [f|]; [|auto].
  destruct (IH (scan_update_state s x f)) as (-> & -> & -> & ->).
  apply sus_config.
Qed.

(** The heap grows at its end, and the objects in it stay as they are. *)
Lemma scan_states_heap (d : Directory) (names : list string) (s : State) :
  exists new, heap (scan_states d names s) = (heap s ++ new)%list.
Proof.
  revert s. induction names as [|x names IH]; intros s.
  - exists []. cbn. now rewrite app_nil_r.
  - cbn [scan_states]. destruct (find_file x d) as [f|].
    + destruct (IH (scan_update_state s x f)) as [new ->].
      rewrite sus_heap, <- app_assoc. eauto.
    + exists []. now rewrite app_nil_r.
Qed.

(** The names of the cache stay, and the names scanned join them. *)
Lemma scan_states_cache (d : Directory) (names : list string) (s : State) (name : string) :
  is_Some (Dispatcher.updates (app s) !! name) ->
  is_Some (Dispatcher.updates (app (scan_states d names s)) !! name).
Proof.
  revert s. induction names as [|x names IH]; intros s H; [assumption|].
  cbn [scan_states]. destruct (find_file x d) as [f|]; [|assumption].
  apply IH. rewrite sus_updates.
  destruct (decide (name = x)) as [->|Hne].
  - rewrite lookup_insert_eq. eauto.
  - now rewrite lookup_insert_ne by congruence.
Qed.

Lemma scan_states_scanned (d : Directory) (names : list string) (s : State) (x : string) :
  (forall y, y ∈ names -> y ∈ map fst d) -> x ∈ names ->
  is_Some (Dispatcher.updates (app (scan_states d names s)) !! x).
Proof.
  revert s. induction names as [|y names IH]; intros s Hin Hx; [inversion Hx|].
  destruct (find_file_names d y) as [f Hf]; [apply Hin; left|].
  cbn [scan_states]. rewrite Hf.
  destruct (decide (x = y)) as [->|Hne].
  - apply scan_states_cache. rewrite sus_updates, lookup_insert_eq. eauto.
  - apply IH; [intros z Hz; apply Hin; now right|].
    inversion Hx; subst; [congruence|assumption].
Qed.

(** The current object is kept, or replaced by an object that the loop
    built. *)
Lemma scan_states_current (d : Directory) (names : list string) (s : State) (c : nat) :
  wf s ->
  Dispatcher.current_update (app s) = Some c ->
  exists c', Dispatcher.current_update (app (scan_states d names s)) = Some c'
    /\ (c' = c \/ (List.length (heap s) <= c')%nat).
Proof.
  revert s c. induction names as [|x names IH]; intros s c Hwf Hc; [eauto|].
  cbn [scan_states]. destruct (find_file x d) as [f|]; [|eauto].
  destruct (wf_current s Hwf c Hc) as (cu & Hcu & _).
  assert (Hstep : exists c1,
            Dispatcher.current_update (app (scan_update_state s x f)) = Some c1
            /\ (c1 = c \/ c1 = List.length (heap s))).
  { rewrite sus_current, Hc, Hcu.
    destruct (Update.modifiedTime cu <? st_mtime f); eauto. }
  destruct Hstep as (c1 & Hc1 & Hor).
  destruct (IH _ c1 (sus_wf s x f Hwf) Hc1) as (c' & Hc' & Hor').
  exists c'. split; [assumption|].
  rewrite sus_heap, List.length_app in Hor'. cbn in Hor'.
  destruct Hor as [->| ->]; destruct Hor' as [->|Hle]; auto; right; lia.
Qed.

(** [scan] on a directory that can be listed. *)
Lemma Dispatcher_scan_eq (d : Directory) (s : State) :
  wf s ->
  Dispatcher_scan (Some d) s
  = (Ok true, scan_states d (matching (Dispatcher.update_class (app s)) d) s).
Proof.
  intros Hwf. unfold Dispatcher_scan, Update_updates.
  unfold bind at 1, get_app. unfold bind at 1, lift.
  fold (matching (Dispatcher.update_class (app s)) d).
  unfold bind. rewrite for_each_scan; [reflexivity|assumption|].
  intros x Hx. now apply matching_names in Hx.
Qed.

(** What a well-formed state with a current object selects. *)
Lemma wf_newest (s : State) :
  wf s -> is_Some (Dispatcher.current_update (app s)) -> newest_first_observed s.
Proof.
  intros Hwf [c Hc].
  destruct (wf_current s Hwf c Hc) as (cu & Hcu & Hin & Hmax).
  exists c, cu. split; [assumption|]. split; [assumption|]. split; [assumption|].
  intros name a u Ha Hu. split.
  - apply (Hmax name). exists a. auto.
  - intros Heq. exact (wf_first s Hwf c cu name a u Hc Hcu Ha Hu Heq).
Qed.

(** *** What every computation keeps *)

Section Keeps.

Context (R : relation State) `{!PreOrder R}.

Lemma keeps_ret {A : Type} (a : A) : keeps R (ret a).
Proof. intros s. reflexivity. Qed.

Lemma keeps_raise {A : Type} (e : exn) : keeps R (raise (A := A) e).
Proof. intros s. reflexivity. Qed.

Lemma keeps_lift {A : Type} (r : result A) : keeps R (lift r).
Proof. intros s. reflexivity. Qed.

Lemma keeps_get_app : keeps R get_app.
Proof. intros s. reflexivity. Qed.

Lemma keeps_deref (a : nat) : keeps R (deref a).
Proof. intros s. unfold deref. destruct (heap s !! a); reflexivity. Qed.

Lemma keeps_bind {A B : Type} (m : M A) (k : A -> M B) :
  keeps R m -> (forall a, keeps R (k a)) -> keeps R (bind m k).
Proof.
  intros Hm Hk s. unfold bind. specialize (Hm s).
  destruct (m s) as [[a|e] s']; cbn in *; [|assumption].
  etransitivity; [eassumption|apply Hk].
Qed.

Lemma keeps_for_each {A : Type} (l : list A) (body : A -> M unit) :
  (forall x, keeps R (body x)) -> keeps R (for_each l body).
Proof.
  intros Hb. induction l as [|x l IH]; cbn [for_each].
  - apply keeps_ret.
  - apply keeps_bind; auto.
Qed.

End Keeps.

#[local] Instance extends_preorder : PreOrder extends.
Proof.
  split.
  - intros s. unfold extends. auto 10.
  - intros s1 s2 s3.  unfold extends.
    intros (Hd & Hc & Hh & Hdir & Hp & Hu) (Hd' & Hc' & Hh' & Hdir' & Hp' & Hu').
    repeat split; try congruence; [set_solver|auto].
Qed.

#[local] Instance same_file_preorder : PreOrder same_file.
Proof.
  split.
  - intros u. now split.
  - intros u1 u2 u3 [] []. split; congruence.
Qed.

#[local] Instance retouched_preorder : PreOrder retouched.
Proof.
  split.
  - intros s. split; reflexivity.
  - intros s1 s2 s3 [Ha Hh] [Ha' Hh']. split; [congruence|].
    etransitivity; eassumption.
Qed.

Lemma extends_app (s s' : State) : app s' = app s -> extends s s'.
Proof. intros H. unfold extends. rewrite H. auto 10. Qed.

Lemma keeps_store (a : nat) (u : Update.t) : keeps extends (store a u).
Proof. intros s. now apply extends_app. Qed.

Lemma keeps_new (u : Update.t) : keeps extends (new u).
Proof. intros s. now apply extends_app. Qed.

Lemma keeps_set_updates (x : string) (a : nat) :
  keeps extends (modify_app (fun d =>
    Dispatcher.set_updates (<[x := a]> (Dispatcher.updates d)) d)).
Proof.
  intros s. unfold extends. cbn. repeat split; auto. set_solver.
Qed.

Lemma keeps_set_current (a : nat) :
  keeps extends (modify_app (Dispatcher.set_current_update (Some a))).
Proof. intros s. unfold extends. cbn. repeat split; eauto. Qed.

Lemma retouched_record_read (p : string) : keeps retouched (record_read p).
Proof. intros s. split; reflexivity. Qed.

Lemma extends_record_read (p : string) : keeps extends (record_read p).
Proof. intros s. now apply extends_app. Qed.

(** An object read at an address and stored there again, with its name
    and its time. *)
Lemma retouched_update (a : nat) (g : Update.t -> Update.t) (s : State) (u : Update.t) :
  heap s !! a = Some u -> same_file u (g u) ->
  retouched s (snd (store a (g u) s)).
Proof.
  intros Hu Hg. split; [reflexivity|]. cbn.
  apply Forall2_same_length_lookup_2; [now rewrite length_insert|].
  intros i x y Hx Hy. destruct (decide (i = a)) as [->|Hne].
  - rewrite list_lookup_insert_eq in Hy by (eapply lookup_lt_Some; eauto).
    congruence.
  - rewrite list_lookup_insert_ne in Hy by congruence.
    replace y with x by congruence. reflexivity.
Qed.

Lemma keeps_updates_getitem (R : relation State) `{!PreOrder R} (update : string) :
  keeps R (updates_getitem update).
Proof.
  intros s. unfold updates_getitem, bind, get_app.
  destruct (Dispatcher.updates (app s) !! update); reflexivity.
Qed.

Create HintDb keeps.

#[local] Hint Resolve keeps_store keeps_new keeps_set_updates keeps_set_current
  retouched_record_read extends_record_read : keeps.

Ltac preorder :=
  try match goal with
      | |- PreOrder _ => exact _
      end.

Ltac keeps_step :=
  first
    [ solve [auto with keeps]
    | apply keeps_ret | apply keeps_raise | apply keeps_lift
    | apply keeps_get_app | apply keeps_deref
    | apply keeps_updates_getitem
    | apply keeps_bind; [| |intros ?]
    | apply keeps_for_each; [|intros ?]
    | progress cbv zeta
    | match goal with
      | |- keeps _ (match ?x with _ => _ end) => destruct x
      end ];
  preorder.

Lemma keeps_Update_init (cls : UpdateClass) (directory filename : string)
    (fs : option Directory) :
  keeps extends (Update_init cls directory filename fs).
Proof. unfold Update_init. repeat keeps_step. Qed.

#[local] Hint Resolve keeps_Update_init : keeps.

Lemma keeps_scan_update (fs : option Directory) (update : string) :
  keeps extends (scan_update fs update).
Proof.
  unfold scan_update.
  repeat keeps_step.
Qed.

#[local] Hint Resolve keeps_scan_update : keeps.

Lemma keeps_Dispatcher_scan (fs : option Directory) :
  keeps extends (Dispatcher_scan fs).
Proof. unfold Dispatcher_scan. repeat keeps_step. Qed.

Lemma extends_Update_application (self : nat) (fs : option Directory) :
  keeps extends (Update_application self fs).
Proof. unfold Update_application. repeat keeps_step. Qed.

Lemma extends_Update_hash (self : nat) (fs : option Directory) :
  keeps extends (Update_hash self fs).
Proof. unfold Update_hash, Update_hash_compute. repeat keeps_step. Qed.

Lemma retouched_Update_application (self : nat) (fs : option Directory) :
  keeps retouched (Update_application self fs).
Proof.
  intros s. unfold Update_application, bind, deref.
  destruct (heap s !! self) as [u|] eqn:Hu; [|reflexivity].
  destruct (Update._application u); [reflexivity|]. cbv zeta.
  destruct (fs_lookup fs _) as [f|]; [|reflexivity].
  unfold lift. destruct (Application_init (Some f)) as [a|e]; [|reflexivity].
  apply (retouched_update self (Update.set_application a) s u Hu). now split.
Qed.

Lemma retouched_Update_hash (self : nat) (fs : option Directory) :
  keeps retouched (Update_hash self fs).
Proof.
  intros s. unfold Update_hash, bind, deref.
  destruct (heap s !! self) as [u|] eqn:Hu; [|reflexivity].
  assert (H : retouched s (snd (Update_hash_compute self u fs s))).
  { unfold Update_hash_compute.
    destruct (fs_lookup fs _) as [f|]; [|reflexivity].
    unfold bind, record_read. cbv zeta.
    etransitivity; [apply (retouched_record_read (Update.path u) s)|].
    apply (retouched_update self (Update.set_hash _) _ u); [assumption|now split]. }
  destruct (Update._hash u) as [h|]; [|assumption].
  destruct (Py.truthy h); [reflexivity|assumption].
Qed.

#[local] Hint Resolve keeps_Dispatcher_scan extends_Update_application
  extends_Update_hash retouched_Update_application retouched_Update_hash : keeps.

Lemma keeps_Get_call (R : relation State) `{!PreOrder R}
    (request : Request) (fs : option Directory) :
  (forall self, keeps R (Update_application self fs)) ->
  (forall self, keeps R (Update_hash self fs)) ->
  keeps R (Get_call request fs).
Proof.
  intros Ha Hh. unfold Get_call. repeat first [apply Ha | apply Hh | keeps_step].
Qed.

Lemma keeps_dispatch (R : relation State) `{!PreOrder R}
    (hs : list HandlerClass) (request : Request) (fs : option Directory) :
  (forall self, keeps R (Update_application self fs)) ->
  (forall self, keeps R (Update_hash self fs)) ->
  keeps R (dispatch hs request fs).
Proof.
  intros Ha Hh. induction hs as [|[] hs IH]; cbn [dispatch handler_call].
  - keeps_step.
  - destruct (handler_match Get request); [now apply keeps_Get_call|assumption].
Qed.

Lemma keeps_Dispatcher_call (request : Request) (fs : option Directory) :
  keeps extends (Dispatcher_call request fs).
Proof.
  unfold Dispatcher_call.
  repeat first [apply keeps_dispatch; preorder; auto with keeps | keeps_step].
Qed.

Lemma serve_extends (requests : list (Request * option Directory)) (s : State) :
  extends s (snd (serve requests s)).
Proof.
  revert s. induction requests as [|[request fs] requests IH]; intros s.
  - reflexivity.
  - cbn [serve]. pose proof (keeps_Dispatcher_call request fs s) as H.
    destruct (Dispatcher_call request fs s) as [r s1]. cbn in H.
    specialize (IH s1). destruct (serve requests s1) as [rs s2]. cbn in *.
    etransitivity; eassumption.
Qed.

(** C9. [scan] never removes an entry of the cache [updates]: the names
    cached before a scan are cached after it, whatever the directory holds
    then (files deleted, or the directory itself) and whether the scan
    returns or raises; and so it is from any call of the application to
    the next, and over any sequence of requests. *)
Theorem scan_keeps_cache (fs : option Directory) (s : State) :
  dom (Dispatcher.updates (app s))
    ⊆ dom (Dispatcher.updates (app (snd (Dispatcher_scan fs s))))
  /\ (forall request,
        dom (Dispatcher.updates (app s))
          ⊆ dom (Dispatcher.updates (app (snd (Dispatcher_call request fs s)))))
  /\ (forall requests,
        dom (Dispatcher.updates (app s))
          ⊆ dom (Dispatcher.updates (app (snd (serve requests s))))).
Proof.
  split; [|split].
  - apply keeps_Dispatcher_scan.
  - intros request. apply keeps_Dispatcher_call.
  - intros requests. apply serve_extends.
Qed.

(** *** The states of a running dispatcher are well formed *)

Lemma wf_unscanned (kw : Kw) : wf (unscanned kw).
Proof.
  split; cbn.
  - intros name a H. rewrite lookup_empty in H. discriminate.
  - discriminate.
  - discriminate.
  - reflexivity.
Qed.

Lemma wf_retouched (s s' : State) : wf s -> retouched s s' -> wf s'.
Proof.
  intros Hwf [Happ Hheap].
  assert (Hl : forall a u, heap s !! a = Some u ->
            exists u', heap s' !! a = Some u' /\ same_file u u').
  { intros a u Hu. eapply Forall2_lookup_l; eauto. }
  assert (Hr : forall a u', heap s' !! a = Some u' ->
            exists u, heap s !! a = Some u /\ same_file u u').
  { intros a u' Hu. eapply Forall2_lookup_r; eauto. }
  split; rewrite Happ.
  - intros name a Ha.
    destruct (wf_updates s Hwf name a Ha) as (u & Hu & Hn).
    destruct (Hl a u Hu) as (u' & Hu' & Hf & _). exists u'. split; congruence.
  - intros c Hc.
    destruct (wf_current s Hwf c Hc) as (cu & Hcu & Hin & Hmax).
    destruct (Hl c cu Hcu) as (cu' & Hcu' & Hf & Ht).
    exists cu'. split; [assumption|]. split; [now rewrite Hf|].
    intros name u' (a & Ha & Hu'). rewrite Happ in Ha.
    destruct (Hr a u' Hu') as (u & Hu & _ & Ht').
    rewrite Ht, Ht'. apply (Hmax name). exists a. auto.
  - intros c cu' name a u' Hc Hcu' Ha Hu' Heq.
    destruct (Hr c cu' Hcu') as (cu & Hcu & _ & Ht).
    destruct (Hr a u' Hu') as (u & Hu & _ & Ht').
    apply (wf_first s Hwf c cu name a u); congruence.
  - apply (wf_empty s Hwf).
Qed.

Lemma Dispatcher_scan_None (s : State) :
  Dispatcher_scan None s = (Raise (OSError (Dispatcher.directory (app s))), s).
Proof. reflexivity. Qed.

Lemma Dispatcher_scan_wf (fs : option Directory) (s : State) :
  wf s -> wf (snd (Dispatcher_scan fs s)).
Proof.
  intros Hwf. destruct fs as [d|]; [|assumption].
  rewrite Dispatcher_scan_eq by assumption. now apply scan_states_wf.
Qed.

Lemma Dispatcher_call_wf (request : Request) (fs : option Directory) (s : State) :
  wf s -> wf (snd (Dispatcher_call request fs s)).
Proof.
  intros Hwf. unfold Dispatcher_call. unfold bind at 1.
  pose proof (Dispatcher_scan_wf fs s Hwf) as H1.
  destruct (Dispatcher_scan fs s) as [[b|e] s1]; cbn in H1; [|assumption].
  unfold bind, get_app.
  apply (wf_retouched s1); [assumption|].
  apply keeps_dispatch; [exact _|auto with keeps..].
Qed.

Lemma serve_wf (requests : list (Request * option Directory)) (s : State) :
  wf s -> wf (snd (serve requests s)).
Proof.
  revert s. induction requests as [|[request fs] requests IH]; intros s Hwf.
  - assumption.
  - cbn [serve]. pose proof (Dispatcher_call_wf request fs s Hwf) as H.
    destruct (Dispatcher_call request fs s) as [r s1]. cbn in H.
    specialize (IH s1 H). now destruct (serve requests s1) as [rs s2].
Qed.

(** [__init__] after its assignments. *)
Lemma Dispatcher_init_eq (kw : Kw) (fs : option Directory) :
  Dispatcher_init kw fs blank
  = (let* _ := Dispatcher_scan fs in
     let* d := get_app in
     match Dispatcher.current_update d with
     | Some _ => ret tt
     | None => raise (AssertionError ("No updates found in " +:+ Dispatcher.directory d))
     end) (unscanned kw).
Proof. reflexivity. Qed.

(** The state in which a dispatcher starts to serve. *)
Lemma Dispatcher_new_inv (kw : Kw) (fs : option Directory) (s : State) :
  Dispatcher_new kw fs = Ok s ->
  wf s /\ is_Some (Dispatcher.current_update (app s))
  /\ Dispatcher.handlers (app s) = [Get]
  /\ s = snd (Dispatcher_scan fs (unscanned kw)).
Proof.
  unfold Dispatcher_new. rewrite Dispatcher_init_eq. unfold bind at 1.
  pose proof (Dispatcher_scan_wf fs _ (wf_unscanned kw)) as Hwf.
  pose proof (keeps_Dispatcher_scan fs (unscanned kw)) as (_ & _ & Hh & _).
  destruct (Dispatcher_scan fs (unscanned kw)) as [[b|e] s1]; [|discriminate].
  cbn in Hwf, Hh. unfold bind, get_app.
  destruct (Dispatcher.current_update (app s1)) as [c|] eqn:Hc; [|discriminate].
  intros [= <-]. rewrite Hc. eauto.
Qed.

(** A scan that meets a name leaves a current object. *)
Lemma scan_states_some (d : Directory) (names : list string) (s : State) :
  wf s -> (forall y, y ∈ names -> y ∈ map fst d) -> names <> [] ->
  is_Some (Dispatcher.current_update (app (scan_states d names s))).
Proof.
  intros Hwf Hin Hne.
  destruct names as [|x names]; [congruence|].
  pose proof (scan_states_scanned d (x :: names) s x Hin) as [a Ha]; [now left|].
  destruct (Dispatcher.current_update _) as [c|] eqn:Hc; [eauto|].
  apply (wf_empty _ (scan_states_wf d (x :: names) s Hwf)) in Hc.
  rewrite Hc, lookup_empty in Ha. discriminate.
Qed.

(** C7. [Dispatcher.__init__] scans once, and where the directory holds no
    file of the naming convention it raises the assertion error
    [No updates found in <directory>]: no dispatcher is built. *)
Theorem no_updates_found (kw : Kw) (d : Directory) :
  matching (default cls_Update (kw_update_class kw)) d = [] ->
  Dispatcher_new kw (Some d)
  = Raise (AssertionError
             ("No updates found in " +:+ default here (kw_directory kw))).
Proof.
  intros Hnone. unfold Dispatcher_new. rewrite Dispatcher_init_eq.
  unfold bind at 1. rewrite Dispatcher_scan_eq by apply wf_unscanned.
  cbn [unscanned app Dispatcher.update_class]. rewrite Hnone. reflexivity.
Qed.

(** With a file of the convention the dispatcher is built, by that one
    scan. *)
Lemma Dispatcher_new_found (kw : Kw) (d : Directory) :
  matching (default cls_Update (kw_update_class kw)) d <> [] ->
  Dispatcher_new kw (Some d)
  = Ok (scan_states d (matching (default cls_Update (kw_update_class kw)) d)
          (unscanned kw)).
Proof.
  intros Hsome. unfold Dispatcher_new. rewrite Dispatcher_init_eq.
  unfold bind at 1. rewrite Dispatcher_scan_eq by apply wf_unscanned.
  cbn [unscanned app Dispatcher.update_class]. unfold bind, get_app.
  fold (unscanned kw).
  destruct (scan_states_some d
              (matching (default cls_Update (kw_update_class kw)) d)
              (unscanned kw) (wf_unscanned kw)) as [c Hc];
    [intros x Hx; now apply matching_names in Hx|assumption|].
  now rewrite Hc.
Qed.

(** *** The answers of the dispatcher *)

(** The handler [Get] answers with a document or raises: it has no
    [HTTPNotFound] to give. *)
Lemma bind_not_404 {A : Type} (m : M A) (k : A -> M Response) (s : State) :
  (forall a s', fst (k a s') <> Ok HTTPNotFound) ->
  fst (bind m k s) <> Ok HTTPNotFound.
Proof.
  intros Hk. unfold bind. destruct (m s) as [[a|e] s']; [apply Hk|discriminate].
Qed.

Lemma Get_call_not_404 (request : Request) (fs : option Directory) (s : State) :
  fst (Get_call request fs s) <> Ok HTTPNotFound.
Proof.
  unfold Get_call. cbv zeta. apply bind_not_404. intros d s1.
  destruct (Dispatcher.current_update d) as [c|]; [|discriminate].
  repeat (apply bind_not_404; intros ? ?). discriminate.
Qed.

(** The path of a request is not looked at. *)
Lemma dispatch_with_path (hs : list HandlerClass) (p : string) (request : Request)
    (fs : option Directory) :
  dispatch hs (with_path p request) fs = dispatch hs request fs.
Proof.
  induction hs as [|[] hs IH]; [reflexivity|].
  cbn [dispatch]. rewrite IH. reflexivity.
Qed.

Lemma Dispatcher_call_with_path (p : string) (request : Request)
    (fs : option Directory) (s : State) :
  Dispatcher_call (with_path p request) fs s = Dispatcher_call request fs s.
Proof.
  unfold Dispatcher_call, bind. destruct (Dispatcher_scan fs s) as [[b|e] s1];
    [|reflexivity].
  unfold get_app. apply (f_equal (fun m => m s1)). apply dispatch_with_path.
Qed.

(** A [GET] request finds its handler. *)
Lemma Dispatcher_call_GET (request : Request) (fs : option Directory) (s : State) :
  Dispatcher.handlers (app s) = [Get] ->
  method request = "GET" ->
  fst (Dispatcher_call request fs s) <> Ok HTTPNotFound.
Proof.
  intros Hh Hm. unfold Dispatcher_call. unfold bind at 1.
  pose proof (keeps_Dispatcher_scan fs s) as (_ & _ & Hh' & _).
  destruct (Dispatcher_scan fs s) as [[b|e] s1]; [|discriminate].
  cbn in Hh'. unfold bind, get_app. rewrite Hh', Hh.
  cbn [dispatch handler_match handler_call]. unfold Get_match.
  rewrite Hm. cbn. apply Get_call_not_404.
Qed.

(** C3. A request whose method is not [GET] is answered [404 Not Found],
    without a manifest, whatever its path, as soon as the directory can be
    scanned; a [GET] request is never answered [404 Not Found]; and the
    path of a request plays no part: [Get.match] looks at the method alone,
    so that a request to any path is answered as the same request to the
    root. *)
Theorem only_the_method_matters (request : Request) (d : Directory) (s : State) :
  wf s ->
  Dispatcher.handlers (app s) = [Get] ->
  (method request <> "GET" ->
     Dispatcher_call request (Some d) s
     = (Ok HTTPNotFound,
        scan_states d (matching (Dispatcher.update_class (app s)) d) s))
  /\ (method request = "GET" ->
        forall fs, fst (Dispatcher_call request fs s) <> Ok HTTPNotFound)
  /\ (forall p fs,
        Dispatcher_call (with_path p request) fs s = Dispatcher_call request fs s).
Proof.
  intros Hwf Hh. split; [|split].
  - intros Hm. unfold Dispatcher_call. unfold bind at 1.
    rewrite Dispatcher_scan_eq by assumption. unfold bind, get_app.
    destruct (scan_states_config d (matching (Dispatcher.update_class (app s)) d) s)
      as (_ & _ & _ & ->).
    rewrite Hh. cbn [dispatch handler_match]. unfold Get_match.
    apply String.eqb_neq in Hm. rewrite Hm. reflexivity.
  - intros Hm fs. now apply Dispatcher_call_GET.
  - intros p fs. apply Dispatcher_call_with_path.
Qed.

(** C10. Once a dispatcher is built, [current_update] is set for good:
    after any sequence of requests, on whatever the directory holds at each
    of them, there is a current update; a later scan keeps it or replaces
    it by an object that this scan builds, also on a directory without any
    file of the convention, or one that cannot be listed; and no [GET]
    request is answered [404 Not Found]. *)
Theorem current_update_stays (kw : Kw) (fs0 : option Directory) (s0 : State)
    (requests : list (Request * option Directory)) :
  Dispatcher_new kw fs0 = Ok s0 ->
  exists c,
    Dispatcher.current_update (app (snd (serve requests s0))) = Some c
    /\ (forall fs, exists c',
          Dispatcher.current_update
            (app (snd (Dispatcher_scan fs (snd (serve requests s0))))) = Some c'
          /\ (c' = c \/ (List.length (heap (snd (serve requests s0))) <= c')%nat))
    /\ (forall request fs,
          method request = "GET" ->
          fst (Dispatcher_call request fs (snd (serve requests s0)))
          <> Ok HTTPNotFound).
Proof.
  intros Hnew.
  destruct (Dispatcher_new_inv kw fs0 s0 Hnew) as (Hwf0 & Hc0 & Hh0 & _).
  pose proof (serve_wf requests s0 Hwf0) as Hwf.
  pose proof (serve_extends requests s0) as (_ & Hc & Hh & _).
  set (s := snd (serve requests s0)) in *.
  destruct (Hc Hc0) as [c Hcur]. exists c. split; [assumption|]. split.
  - intros [d|].
    + rewrite Dispatcher_scan_eq by assumption. cbn [snd].
      now apply scan_states_current.
    + exists c. auto.
  - intros request fs Hm.
    apply Dispatcher_call_GET; [congruence|assumption].
Qed.

(** *** The content hash *)

(** A digest is not the empty string: [not self._hash] is false of it. *)
Lemma truthy_hexdigest (data : list byte) :
  Py.truthy (SHA512.hexdigest data) = true.
Proof.
  pose proof (length_hexdigest data) as H.
  destruct (SHA512.hexdigest data); [discriminate|reflexivity].
Qed.

(** [Update.__init__] reads no file content and leaves [_hash] unset. *)
Lemma Update_init_fresh (cls : UpdateClass) (directory filename : string)
    (fs : option Directory) (s s' : State) (a : nat) :
  Update_init cls directory filename fs s = (Ok a, s') ->
  reads s' = reads s
  /\ exists u, heap s' !! a = Some u
       /\ Update._hash u = None /\ Update._application u = None.
Proof.
  unfold Update_init. destruct (fs_lookup fs filename) as [f|]; [|discriminate].
  unfold new. intros [= <- <-]. split; [reflexivity|]. cbn.
  eexists. rewrite lookup_app_r, Nat.sub_diag by lia. cbn. eauto.
Qed.

(** C4. For an [Update] object whose [_hash] is not set yet, as
    [__init__] leaves it, and whose file is there, [hash()] returns the
    SHA-512 digest, in hexadecimal, of the whole content of the file, which
    it reads once; every later call on the object returns the same string
    and reads nothing, whatever the directory holds by then. *)
Theorem hash_computed_once (self : nat) (u : Update.t) (f : File)
    (fs : option Directory) (s : State) :
  heap s !! self = Some u ->
  Update._hash u = None ->
  fs_lookup fs (Update.filename u) = Some f ->
  exists s1,
    Update_hash self fs s = (Ok (SHA512.hexdigest (contents f)), s1)
    /\ reads s1 = (reads s ++ [Update.path u])%list
    /\ forall fs', Update_hash self fs' s1 = (Ok (SHA512.hexdigest (contents f)), s1).
Proof.
  intros Hu Hnone Hf. eexists. split; [|split].
  - unfold Update_hash, bind, deref. rewrite Hu, Hnone.
    unfold Update_hash_compute. rewrite Hf. reflexivity.
  - reflexivity.
  - intros fs'. unfold Update_hash, bind, deref. cbn [heap].
    rewrite list_lookup_insert_eq by (eapply lookup_lt_Some; eauto).
    cbn [Update._hash Update.set_hash]. now rewrite truthy_hexdigest.
Qed.

(** *** The companion file *)

(** A [GET] request, after the scan, is the call of its handler. *)
Lemma Dispatcher_call_Get (request : Request) (d : Directory) (s : State) :
  wf s ->
  Dispatcher.handlers (app s) = [Get] ->
  method request = "GET" ->
  Dispatcher_call request (Some d) s
  = Get_call request (Some d)
      (scan_states d (matching (Dispatcher.update_class (app s)) d) s).
Proof.
  intros Hwf Hh Hm. unfold Dispatcher_call. unfold bind at 1.
  rewrite Dispatcher_scan_eq by assumption. unfold bind at 1, get_app.
  destruct (scan_states_config d (matching (Dispatcher.update_class (app s)) d) s)
    as (_ & _ & _ & ->).
  rewrite Hh. cbn [dispatch handler_match handler_call]. unfold Get_match.
  now rewrite Hm.
Qed.

(** What [Application.__init__] raises on a configuration that lacks the
    section or one of its two options. *)
Lemma Application_init_lacks (f : File) (c : Config) :
  read_config (contents f) = Some c ->
  lacks_fields c ->
  exists e, Application_init (Some f) = Raise e
    /\ (e = NoSectionError "App" \/ e = NoOptionError "BuildID" "App"
        \/ e = NoOptionError "Version" "App").
Proof.
  intros Hc Hl. unfold Application_init. rewrite Hc.
  unfold lacks_fields in Hl. unfold Config_get.
  destruct (assoc "App" (sections c)) as [options|]; [|eauto].
  change (Py.lower "BuildID") with "buildid".
  change (Py.lower "Version") with "version".
  destruct (assoc "buildid" options) as [b|] eqn:Hb.
  - destruct Hl as [[Hl _]|[Hv Hv']]; [congruence|].
    rewrite Hv, Hv'. eauto 6.
  - destruct (assoc "buildid" (defaults c)) as [b|] eqn:Hb'.
    + destruct Hl as [[_ Hl]|[Hv Hv']]; [congruence|].
      rewrite Hv, Hv'. eauto 6.
    + eauto 6.
Qed.

(** The handler on a current object without metadata whose companion
    cannot be loaded. *)
Lemma Get_call_raises (request : Request) (fs : option Directory) (s : State)
    (self : nat) (u : Update.t) (e : exn) :
  Dispatcher.current_update (app s) = Some self ->
  heap s !! self = Some u ->
  Update._application u = None ->
  match fs_lookup fs (application_ini u) with
  | None => e = AssertionError ""
  | Some f => Application_init (Some f) = Raise e
  end ->
  Get_call request fs s = (Raise e, s).
Proof.
  intros Hc Hu Hnone He. unfold Get_call. cbv zeta. unfold bind at 1, get_app.
  rewrite Hc. unfold bind at 1. unfold Update_application, bind, deref.
  rewrite Hu, Hnone. fold (application_ini u).
  destruct (fs_lookup fs (application_ini u)) as [f|].
  - unfold lift. now rewrite He.
  - now subst e.
Qed.

(** C8. Where the current update has no metadata loaded yet and its
    companion [application_<stamp>.ini] is missing, cannot be parsed, or
    lacks the section [App] or one of the options [BuildID] and [Version],
    a [GET] request raises: [AssertionError], [ParsingError],
    [NoSectionError] or [NoOptionError] leaves [Dispatcher.__call__], no
    manifest is returned and no metadata is stored. *)
Theorem broken_companion_fails (request : Request) (d : Directory) (s s1 : State)
    (self : nat) (u : Update.t) :
  wf s ->
  Dispatcher.handlers (app s) = [Get] ->
  method request = "GET" ->
  s1 = scan_states d (matching (Dispatcher.update_class (app s)) d) s ->
  Dispatcher.current_update (app s1) = Some self ->
  heap s1 !! self = Some u ->
  Update._application u = None ->
  (find_file (application_ini u) d = None ->
     Dispatcher_call request (Some d) s = (Raise (AssertionError ""), s1))
  /\ (forall f,
        find_file (application_ini u) d = Some f ->
        read_config (contents f) = None ->
        Dispatcher_call request (Some d) s = (Raise ParsingError, s1))
  /\ (forall f c,
        find_file (application_ini u) d = Some f ->
        read_config (contents f) = Some c ->
        lacks_fields c ->
        exists e, Dispatcher_call request (Some d) s = (Raise e, s1)
          /\ (e = NoSectionError "App" \/ e = NoOptionError "BuildID" "App"
              \/ e = NoOptionError "Version" "App")).
Proof.
  intros Hwf Hh Hm -> Hc Hu Hnone.
  rewrite Dispatcher_call_Get by assumption.
  split; [|split].
  - intros Hf. apply (Get_call_raises _ _ _ self u); try assumption.
    cbn [fs_lookup]. now rewrite Hf.
  - intros f Hf Hr. apply (Get_call_raises _ _ _ self u); try assumption.
    cbn [fs_lookup]. rewrite Hf. unfold Application_init. now rewrite Hr.
  - intros f c Hf Hr Hl.
    destruct (Application_init_lacks f c Hr Hl) as (e & He & Hor).
    exists e. split; [|assumption].
    apply (Get_call_raises _ _ _ self u); try assumption.
    cbn [fs_lookup]. now rewrite Hf.
Qed.

Example read_plain_nightly :
  read_plain (contents nightly_ini_file) = Some nightly_config.
Proof. vm_compute. reflexivity. Qed.

(** *** The manifest *)

(** What the handler answers, from the metadata and the hash that the
    current object gives. *)
Lemma Get_call_eq (request : Request) (fs : option Directory) (s s2 s3 : State)
    (c : nat) (u : Update.t) (a : Application.t) (h : string) :
  Dispatcher.current_update (app s) = Some c ->
  Update_application c fs s = (Ok a, s2) ->
  heap s2 !! c = Some u ->
  Update_hash c fs s2 = (Ok h, s3) ->
  Get_call request fs s
  = (Ok (Response_OK "text/xml"
           (format Get_body
              {| v_update := Update.filename u;
                 v_size := Update.size u;
                 v_version := Application.version a;
                 v_hash := h;
                 v_path := Dispatcher.path (app s3);
                 v_build_id := Application.build_id a;
                 v_query := query_string (Get_query request a) |})), s3).
Proof.
  intros Hc Ha Hu Hh. unfold Get_call. cbv zeta. unfold bind at 1, get_app.
  rewrite Hc. unfold bind at 1. rewrite Ha.
  unfold bind at 1, deref. rewrite Hu.
  unfold bind at 1. rewrite Hh. reflexivity.
Qed.

(** The first scenario, step by step. *)
Lemma nightly_started :
  Dispatcher_new kw_nightly (Some nightly)
  = Ok (scan_states nightly [nightly_mar] (unscanned kw_nightly)).
Proof. now rewrite Dispatcher_new_found. Qed.

Lemma nightly_call (request : Request) (s : State) :
  wf s -> Dispatcher.handlers (app s) = [Get] ->
  Dispatcher.update_class (app s) = cls_Update ->
  method request = "GET" ->
  Dispatcher_call request (Some nightly) s
  = Get_call request (Some nightly) (scan_states nightly [nightly_mar] s).
Proof.
  intros Hwf Hh Hcls Hm. rewrite Dispatcher_call_Get by assumption.
  now rewrite Hcls.
Qed.

(** The first call of [application()] loads the companion, later calls
    return what was loaded. *)
Lemma Update_application_loads (self : nat) (u : Update.t) (f : File)
    (a : Application.t) (fs : option Directory) (s : State) :
  heap s !! self = Some u ->
  Update._application u = None ->
  fs_lookup fs (application_ini u) = Some f ->
  Application_init (Some f) = Ok a ->
  Update_application self fs s
  = (Ok a, {| app := app s;
              heap := <[self := Update.set_application a u]> (heap s);
              reads := reads s |}).
Proof.
  intros Hu Hnone Hf Ha. unfold Update_application, bind, deref.
  rewrite Hu, Hnone. fold (application_ini u). rewrite Hf.
  unfold lift. now rewrite Ha.
Qed.

Lemma Update_application_cached (self : nat) (u : Update.t) (a : Application.t)
    (fs : option Directory) (s : State) :
  heap s !! self = Some u ->
  Update._application u = Some a ->
  Update_application self fs s = (Ok a, s).
Proof.
  intros Hu Ha. unfold Update_application, bind, deref. now rewrite Hu, Ha.
Qed.

Lemma Update_hash_reads (self : nat) (u : Update.t) (f : File)
    (fs : option Directory) (s : State) :
  heap s !! self = Some u ->
  Update._hash u = None ->
  fs_lookup fs (Update.filename u) = Some f ->
  Update_hash self fs s
  = (Ok (SHA512.hexdigest (contents f)),
     {| app := app s;
        heap := <[self := Update.set_hash (SHA512.hexdigest (contents f)) u]> (heap s);
        reads := reads s ++ [Update.path u] |}).
Proof.
  intros Hu Hnone Hf. unfold Update_hash, bind, deref. rewrite Hu, Hnone.
  unfold Update_hash_compute. now rewrite Hf.
Qed.

Lemma Update_hash_cached (self : nat) (u : Update.t) (h : string)
    (fs : option Directory) (s : State) :
  heap s !! self = Some u ->
  Update._hash u = Some h ->
  Py.truthy h = true ->
  Update_hash self fs s = (Ok h, s).
Proof.
  intros Hu Hh Ht. unfold Update_hash, bind, deref. now rewrite Hu, Hh, Ht.
Qed.

(** The handler on a current object that has loaded nothing yet. *)
Lemma Get_call_fresh (request : Request) (fs : option Directory) (s : State)
    (c : nat) (u : Update.t) (fa f : File) (a : Application.t) :
  Dispatcher.current_update (app s) = Some c ->
  heap s !! c = Some u ->
  Update._application u = None ->
  Update._hash u = None ->
  fs_lookup fs (application_ini u) = Some fa ->
  Application_init (Some fa) = Ok a ->
  fs_lookup fs (Update.filename u) = Some f ->
  exists s',
    Get_call request fs s
    = (Ok (Response_OK "text/xml"
             (format Get_body
                {| v_update := Update.filename u;
                   v_size := Update.size u;
                   v_version := Application.version a;
                   v_hash := SHA512.hexdigest (contents f);
                   v_path := Dispatcher.path (app s);
                   v_build_id := Application.build_id a;
                   v_query := query_string (Get_query request a) |})), s').
Proof.
  intros Hc Hu Hna Hnh Hfa Ha Hf.
  pose proof (lookup_lt_Some _ _ _ Hu) as Hlen.
  set (u2 := Update.set_application a u).
  set (s2 := {| app := app s; heap := <[c := u2]> (heap s); reads := reads s |}).
  set (h := SHA512.hexdigest (contents f)).
  set (s3 := {| app := app s2; heap := <[c := Update.set_hash h u2]> (heap s2);
                reads := reads s2 ++ [Update.path u2] |}).
  exists s3.
  apply (Get_call_eq request fs s s2 s3 c u2 a h).
  - assumption.
  - now apply (Update_application_loads c u fa).
  - cbn [heap s2]. now rewrite list_lookup_insert_eq.
  - apply (Update_hash_reads c u2 f); [|assumption..].
    cbn [heap s2]. now rewrite list_lookup_insert_eq.
Qed.

(** C2. In the first scenario (the directory holds
    [b2g_update_20130101000000.mar], of a hundred bytes, and its companion
    with [BuildID=20130101000000] and [Version=1.0]) a [GET] request
    without parameters is answered by a document whose [<patch>] has for
    [URL] the address of [b2g_update_20130101000000.mar] followed by the
    query string made of [build_id=20130101000000] and [version=1.0],
    after [?] and joined by [&amp;] in the order of the dictionary; [size]
    is [100] and [hashValue] is the SHA-512 digest of the file, of 128
    hexadecimal digits. *)
Theorem nightly_manifest :
  read_config (contents nightly_ini_file) = Some nightly_config ->
  Permutation (dict_items (Get_query (get_root []) nightly_application))
              (Get_query (get_root []) nightly_application) ->
  exists s0 s1 body url hash,
    Dispatcher_new kw_nightly (Some nightly) = Ok s0
    /\ Dispatcher_call (get_root []) (Some nightly) s0
       = (Ok (Response_OK "text/xml" body), s1)
    /\ attribute_value "URL" body = Some url
    /\ (url = nightly_URL +:+ "?build_id=20130101000000&amp;version=1.0"
        \/ url = nightly_URL +:+ "?version=1.0&amp;build_id=20130101000000")
    /\ attribute_value "size" body = Some "100"
    /\ attribute_value "hashValue" body = Some hash
    /\ hash = SHA512.hexdigest (contents nightly_mar_file)
    /\ String.length hash = 128%nat
    /\ all_hex hash = true.
Proof.
  intros Hcfg Hperm.
  set (s0 := scan_states nightly [nightly_mar] (unscanned kw_nightly)).
  assert (Hwf : wf s0) by apply scan_states_wf, wf_unscanned.
  set (u := Update_of cls_Update "/srv/updates/nightly" nightly_mar nightly_mar_file).
  destruct (Get_call_fresh (get_root []) (Some nightly)
              (scan_states nightly [nightly_mar] s0) 0 u
              nightly_ini_file nightly_mar_file nightly_application)
    as [s1 Hcall].
  1-5, 7: vm_compute; reflexivity.
  { unfold Application_init. rewrite Hcfg. reflexivity. }
  assert (Hq : query_string (Get_query (get_root []) nightly_application)
               = "?build_id=20130101000000&amp;version=1.0"
            \/ query_string (Get_query (get_root []) nightly_application)
               = "?version=1.0&amp;build_id=20130101000000").
  { apply Permutation_sym, Permutation_length_2_inv in Hperm.
    unfold query_string.
    destruct Hperm as [Hq|Hq]; rewrite Hq; [left|right]; reflexivity. }
  assert (Hnew : Dispatcher_new kw_nightly (Some nightly) = Ok s0)
    by apply nightly_started.
  assert (Hreq : Dispatcher_call (get_root []) (Some nightly) s0
                 = Get_call (get_root []) (Some nightly)
                     (scan_states nightly [nightly_mar] s0)).
  { apply nightly_call; [assumption|reflexivity..]. }
  rewrite <- Hreq in Hcall. clear Hreq.
  exists s0, s1.
  destruct Hq as [Hq|Hq]; rewrite Hq in Hcall;
    (eexists; eexists; exists (SHA512.hexdigest (contents nightly_mar_file));
     split; [exact Hnew|]; split; [exact Hcall|]);
    (split; [vm_compute; reflexivity|]);
    (split; [first [left; reflexivity | right; reflexivity]|]);
    (split; [vm_compute; reflexivity|]);
    (split; [vm_compute; reflexivity|]);
    (split; [reflexivity|]);
    (split; [apply length_hexdigest|vm_compute; reflexivity]).
Qed.

(** The dictionary of a request that bears a [dogfood_id]. *)
Lemma Get_query_dogfood (request : Request) (v : string) (a : Application.t) :
  MultiDict_get (GET request) "dogfood_id" = Some v ->
  v <> "" ->
  Get_query request a
  = [("dogfooding_prerelease_id", v);
     ("build_id", Application.build_id a);
     ("version", Application.version a)].
Proof.
  intros Hget Hv. unfold Get_query. rewrite Hget.
  destruct v as [|x v]; [congruence|]. reflexivity.
Qed.

(** C6. For a request whose parameter [dogfood_id] has the value [v], not
    empty, the query string of the download URL is [?] followed by the
    items of the dictionary joined by [&amp;], in the order of the
    dictionary; these items are [dogfooding_prerelease_id=v], with [v] as
    it came, [build_id=...] and [version=...]: the item of the request is
    one of three, preceded by [?] only where the dictionary gives it
    first. *)
Theorem dogfood_id_in_query (request : Request) (v : string)
    (fs : option Directory) (s s2 s3 : State) (c : nat) (u : Update.t)
    (a : Application.t) (h : string) :
  MultiDict_get (GET request) "dogfood_id" = Some v ->
  v <> "" ->
  Dispatcher.current_update (app s) = Some c ->
  Update_application c fs s = (Ok a, s2) ->
  heap s2 !! c = Some u ->
  Update_hash c fs s2 = (Ok h, s3) ->
  Permutation (dict_items (Get_query request a)) (Get_query request a) ->
  exists before after,
    Permutation (before ++ after)%list
      ["build_id=" +:+ Application.build_id a; "version=" +:+ Application.version a]
    /\ Get_call request fs s
       = (Ok (Response_OK "text/xml"
                (format Get_body
                   {| v_update := Update.filename u;
                      v_size := Update.size u;
                      v_version := Application.version a;
                      v_hash := h;
                      v_path := Dispatcher.path (app s3);
                      v_build_id := Application.build_id a;
                      v_query :=
                        "?" +:+ Py.join "&amp;"
                          (before ++ ("dogfooding_prerelease_id=" +:+ v) :: after) |})),
          s3).
Proof.
  intros Hget Hv Hc Ha Hu Hh Hperm.
  rewrite (Get_call_eq request fs s s2 s3 c u a h Hc Ha Hu Hh).
  rewrite (Get_query_dogfood request v a Hget Hv) in *.
  apply (Permutation_map query_item) in Hperm.
  set (items := map query_item (dict_items _)) in *.
  assert (Hin : In ("dogfooding_prerelease_id=" +:+ v) items).
  { eapply Permutation_in; [symmetry; exact Hperm|]. now left. }
  apply in_split in Hin as (before & after & Hsplit).
  exists before, after. split.
  - rewrite Hsplit in Hperm. symmetry in Hperm.
    apply Permutation_cons_app_inv in Hperm. symmetry. exact Hperm.
  - unfold query_string. fold items. now rewrite Hsplit.
Qed.

(** *** More on the naming convention *)

Lemma append_assoc (a b c : string) : (a +:+ b) +:+ c = a +:+ b +:+ c.
Proof.
  induction a as [|x a IH]; [reflexivity|].
  rewrite !app_String. now rewrite IH.
Qed.

Lemma startswith_prefix (p s : string) : Py.startswith (p +:+ s) p = true.
Proof.
  induction p as [|c p IH]; [now destruct s|].
  rewrite app_String. simpl. now rewrite Ascii.eqb_refl.
Qed.

Lemma take_app_length (t s : string) : Py.take (String.length t) (t +:+ s) = t.
Proof.
  induction t as [|c t IH]; [now destruct s|].
  rewrite app_String. simpl. now rewrite IH.
Qed.

Lemma endswith_suffix (p s : string) : Py.endswith (p +:+ s) s = true.
Proof.
  unfold Py.endswith. rewrite length_app.
  apply andb_true_iff. split; [apply Nat.leb_le; lia|].
  replace (String.length p + String.length s - String.length s)%nat
    with (String.length p) by lia.
  rewrite drop_app_length. apply String.eqb_refl.
Qed.

(** A name that the filter accepts is the prefix, a stamp and the suffix. *)
Lemma accepted_shape (cls : UpdateClass) (i : string) :
  accepted cls i = true -> exists t, i = prefix cls +:+ t +:+ suffix cls.
Proof.
  intros Hacc. pose proof (accepted_length cls i Hacc) as Hlen.
  unfold accepted in Hacc. apply andb_true_iff in Hacc as [Hp Hs].
  apply startswith_app in Hp. apply endswith_drop in Hs as [_ Hs].
  set (p := String.length (prefix cls)) in *.
  set (q := String.length (suffix cls)) in *.
  set (r := Py.drop p i) in *.
  assert (Hr : String.length r = (String.length i - p)%nat) by apply length_drop.
  exists (Py.take (String.length r - q) r).
  rewrite Hp at 1. f_equal.
  rewrite <- (take_drop (String.length r - q) r) at 1. f_equal.
  subst r. rewrite drop_drop, <- Hs. f_equal. rewrite length_drop. lia.
Qed.

Lemma accepted_built (cls : UpdateClass) (t : string) :
  accepted cls (prefix cls +:+ t +:+ suffix cls) = true.
Proof.
  unfold accepted. rewrite startswith_prefix.
  rewrite <- append_assoc. now rewrite endswith_suffix.
Qed.

Lemma stamp_of_built (cls : UpdateClass) (t : string) :
  stamp_of cls (prefix cls +:+ t +:+ suffix cls) = t.
Proof.
  unfold stamp_of, Py.slice, Py.slice_index, Py.len.
  rewrite !length_app.
  set (p := String.length (prefix cls)).
  set (q := String.length (suffix cls)).
  set (n := String.length t).
  assert (Hq : (0 < q)%nat) by (subst q; destruct cls; simpl; lia).
  destruct (Z.ltb_spec (Z.of_nat p) 0) as [|_]; [lia|].
  destruct (Z.ltb_spec (- Z.of_nat q) 0) as [_|]; [|lia].
  replace (Z.to_nat (Z.min (Z.of_nat p) (Z.of_nat (p + (n + q))))) with p by lia.
  replace (Z.to_nat (Z.max 0 (Z.of_nat (p + (n + q)) + - Z.of_nat q)
                     - Z.min (Z.of_nat p) (Z.of_nat (p + (n + q)))))
    with n by lia.
  subst p n. rewrite drop_app_length. apply take_app_length.
Qed.

(** X1. The stamp of a name built from a stamp is that stamp, and the filter
    accepts the name: [Update.__init__] undoes the naming, whatever the
    stamp, the empty one too. *)
Theorem stamp_of_name (cls : UpdateClass) (t : string) :
  accepted cls (prefix cls +:+ t +:+ suffix cls) = true
  /\ stamp_of cls (prefix cls +:+ t +:+ suffix cls) = t.
Proof. split; [apply accepted_built|apply stamp_of_built]. Qed.

(** X2. Two names that the filter of a class accepts and that have the same
    stamp are the same name: no two updates of a directory share a
    companion [application_<stamp>.ini]. *)
Theorem stamp_of_injective (cls : UpdateClass) (i j : string) :
  accepted cls i = true ->
  accepted cls j = true ->
  stamp_of cls i = stamp_of cls j ->
  i = j.
Proof.
  intros Hi Hj Heq.
  destruct (accepted_shape cls i Hi) as [t ->].
  destruct (accepted_shape cls j Hj) as [t' ->].
  rewrite !stamp_of_built in Heq. now subst t'.
Qed.

Lemma stamp_of_injective_witness :
  "b2g_update_20130101000000.mar" = "b2g_update_20130101000000.mar".
Proof.
  apply (stamp_of_injective cls_Update); reflexivity.
Defined.

(** X3. The two classes never accept the same name: a dispatcher of one
    channel does not see the updates of the other. *)
Theorem channels_disjoint (i : string) :
  accepted cls_Update i = true -> accepted cls_UpdateStable i = false.
Proof.
  unfold accepted. intros H. apply andb_true_iff in H as [Hp _].
  apply startswith_app in Hp. rewrite Hp. reflexivity.
Qed.

Lemma channels_disjoint_witness :
  accepted cls_UpdateStable "b2g_update_20130101000000.mar" = false.
Proof. apply channels_disjoint. reflexivity. Defined.

(** X4. In a name that the filter accepts the prefix and the suffix do not
    overlap, and the stamp is what lies between them: its length is that
    of the name less those of the prefix and of the suffix. *)
Theorem stamp_of_length (cls : UpdateClass) (i : string) :
  accepted cls i = true ->
  (String.length (prefix cls) + String.length (suffix cls) <= String.length i)%nat
  /\ String.length (stamp_of cls i)
     = (String.length i - String.length (prefix cls)
        - String.length (suffix cls))%nat.
Proof.
  intros Hacc. split; [now apply accepted_length|].
  destruct (accepted_shape cls i Hacc) as [t ->].
  rewrite stamp_of_built, !length_app. lia.
Qed.

Lemma stamp_of_length_witness :
  String.length (stamp_of cls_Update "b2g_update_.mar") = 0%nat.
Proof.
  destruct (stamp_of_length cls_Update "b2g_update_.mar" eq_refl) as [_ H].
  exact H.
Defined.

(** *** [Application] *)

(** X5. [Application(filename)] gives the metadata exactly when the file is
    parsed and has the section [App] with [BuildID] and [Version], each in
    the section or among the defaults; it raises otherwise, and never
    fills in a value of its own.  The names of the options are matched in
    lower case. *)
Theorem Application_init_loads (f : File) (c : Config) :
  read_config (contents f) = Some c ->
  (lacks_fields c -> exists e, Application_init (Some f) = Raise e)
  /\ (~ lacks_fields c ->
        exists a, Application_init (Some f) = Ok a
          /\ Config_get c "App" "BuildID" = Ok (Application.build_id a)
          /\ Config_get c "App" "Version" = Ok (Application.version a)).
Proof.
  intros Hc. split.
  - intros Hl. destruct (Application_init_lacks f c Hc Hl) as (e & He & _). eauto.
  - intros Hn. unfold Application_init. rewrite Hc.
    unfold lacks_fields, lacks_option in Hn. unfold Config_get.
    change (Py.lower "BuildID") with "buildid".
    change (Py.lower "Version") with "version".
    destruct (assoc "App" (sections c)) as [options|]; [|tauto].
    destruct (assoc "buildid" options) as [b|] eqn:Hb;
      destruct (assoc "buildid" (defaults c)) as [b'|] eqn:Hb';
      destruct (assoc "version" options) as [v|] eqn:Hv;
      destruct (assoc "version" (defaults c)) as [v'|] eqn:Hv';
      try (eexists; split; [reflexivity|split; reflexivity]);
      exfalso; apply Hn; auto.
Qed.

(** *** More on [scan] *)

Lemma find_file_None (d : Directory) (x : string) :
  find_file x d = None <-> x ∉ map fst d.
Proof.
  split.
  - intros Hn Hin. apply find_file_names in Hin as [f Hf]. congruence.
  - intros Hn. induction d as [|[n f] d IH]; [reflexivity|]. simpl.
    destruct (String.eqb_spec n x) as [->|Hne].
    + exfalso. apply Hn. now left.
    + apply IH. intros Hin. apply Hn. now right.
Qed.

(** What the cache holds after the loop: for a name of the loop the
    object built from its file, for another name what it held. *)
Lemma scan_states_cached (d : Directory) (names : list string) (s : State)
    (name : string) (u : Update.t) :
  wf s -> NoDup names -> (forall x, x ∈ names -> x ∈ map fst d) ->
  cached (scan_states d names s) name u <->
  (name ∈ names
   /\ exists f, find_file name d = Some f
        /\ u = Update_of (Dispatcher.update_class (app s))
                         (Dispatcher.directory (app s)) name f)
  \/ ((name ∉ names) /\ cached s name u).
Proof.
  revert s. induction names as [|x names IH]; intros s Hwf Hnd Hin.
  - cbn [scan_states]. split; [intros H; right; split; [inversion 1|assumption]|].
    intros [[H _]|[_ H]]; [inversion H|assumption].
  - apply NoDup_cons in Hnd as [Hx Hnd].
    destruct (find_file_names d x) as [f Hf]; [apply Hin; left|].
    cbn [scan_states]. rewrite Hf.
    rewrite IH; [|now apply sus_wf|assumption|intros y Hy; apply Hin; now right].
    destruct (sus_config s x f) as (-> & _ & -> & _).
    rewrite (sus_cached s x f name u Hwf).
    rewrite !elem_of_cons. split.
    + intros [[Hn He]|[Hn [[-> ->]|[Hne Hc]]]].
      * left. auto.
      * left. split; [auto|]. eauto.
      * right. split; [|assumption]. intros [?|?]; auto.
    + intros [[[->|Hn] (g & Hg & ->)]|[Hn Hc]].
      * right. split; [assumption|]. left. split; [reflexivity|]. congruence.
      * left. split; [assumption|]. eauto.
      * right. split; [auto|]. right. split; [|assumption].
        intros ->. apply Hn. now left.
Qed.

(** The current object after the loop: the one before it, or the object
    built from a file of the loop that is strictly newer. *)
Lemma scan_states_current_cases (d : Directory) (names : list string) (s : State)
    (c : nat) (cu : Update.t) :
  wf s ->
  Dispatcher.current_update (app s) = Some c ->
  heap s !! c = Some cu ->
  exists c' cu',
    Dispatcher.current_update (app (scan_states d names s)) = Some c'
    /\ heap (scan_states d names s) !! c' = Some cu'
    /\ Update.modifiedTime cu <= Update.modifiedTime cu'
    /\ ((c' = c /\ cu' = cu)
        \/ exists x f, x ∈ names /\ find_file x d = Some f
             /\ cu' = Update_of (Dispatcher.update_class (app s))
                                (Dispatcher.directory (app s)) x f
             /\ Update.modifiedTime cu < st_mtime f).
Proof.
  revert s c cu. induction names as [|x names IH]; intros s c cu Hwf Hc Hcu.
  - exists c, cu. cbn [scan_states]. repeat split; auto; lia.
  - cbn [scan_states]. destruct (find_file x d) as [f|] eqn:Hf.
    2:{ exists c, cu. repeat split; auto; lia. }
    pose proof (sus_wf s x f Hwf) as Hwf1.
    pose proof (lookup_lt_Some _ _ _ Hcu) as Hlen.
    destruct (sus_config s x f) as (Hdir & _ & Hcls & _).
    destruct (Z.ltb_spec (Update.modifiedTime cu) (st_mtime f)) as [Hlt|Hge].
    + destruct (IH (scan_update_state s x f) (List.length (heap s))
                  (Update_of (Dispatcher.update_class (app s))
                             (Dispatcher.directory (app s)) x f) Hwf1)
        as (c' & cu' & Hc' & Hcu' & Hle & Hor).
      * rewrite sus_current, Hc, Hcu.
        destruct (Z.ltb_spec (Update.modifiedTime cu) (st_mtime f)); [reflexivity|lia].
      * rewrite sus_heap, lookup_app_r, Nat.sub_diag by lia. reflexivity.
      * exists c', cu'. split; [assumption|]. split; [assumption|].
        cbn in Hle. split; [lia|]. right.
        destruct Hor as [[-> ->]|(y & g & Hy & Hg & -> & Hlt')].
        -- exists x, f. split; [now left|]. auto.
        -- exists y, g. rewrite Hdir, Hcls. cbn in Hlt'.
           split; [now right|]. split; [assumption|]. split; [reflexivity|]. lia.
    + destruct (IH (scan_update_state s x f) c cu Hwf1)
        as (c' & cu' & Hc' & Hcu' & Hle & Hor).
      * rewrite sus_current, Hc, Hcu.
        destruct (Z.ltb_spec (Update.modifiedTime cu) (st_mtime f)); [lia|reflexivity].
      * rewrite sus_heap, lookup_app_l by assumption. assumption.
      * exists c', cu'. split; [assumption|]. split; [assumption|].
        split; [assumption|].
        destruct Hor as [?|(y & g & Hy & Hg & -> & Hlt')]; [now left|].
        right. exists y, g. rewrite Hdir, Hcls.
        split; [now right|]. auto.
Qed.

(** The loop leaves alone the entries of the names that it does not meet. *)
Lemma scan_states_updates_other (d : Directory) (names : list string) (s : State)
    (x : string) :
  x ∉ names ->
  Dispatcher.updates (app (scan_states d names s)) !! x
  = Dispatcher.updates (app s) !! x.
Proof.
  revert s. induction names as [|y names IH]; intros s Hx; [reflexivity|].
  cbn [scan_states]. destruct (find_file y d) as [f|]; [|reflexivity].
  rewrite IH by (intros H; apply Hx; now right).
  rewrite sus_updates. apply lookup_insert_ne. intros ->. apply Hx. now left.
Qed.

(** Where the current object comes from after the loop: it is the object
    that was current before, kept as it is, or it is the cache entry that
    the loop built from a file strictly newer than the object that was
    current before, if there was one. *)
Lemma scan_states_selected (d : Directory) (names : list string) (s : State) :
  wf s -> NoDup names -> (forall x, x ∈ names -> x ∈ map fst d) ->
  is_Some (Dispatcher.current_update (app s)) \/ names <> [] ->
  exists c' cu',
    Dispatcher.current_update (app (scan_states d names s)) = Some c'
    /\ heap (scan_states d names s) !! c' = Some cu'
    /\ ((Dispatcher.current_update (app s) = Some c' /\ heap s !! c' = Some cu')
        \/ exists x f,
             x ∈ names /\ find_file x d = Some f
             /\ cu' = Update_of (Dispatcher.update_class (app s))
                                (Dispatcher.directory (app s)) x f
             /\ Dispatcher.updates (app (scan_states d names s)) !! x = Some c'
             /\ (List.length (heap s) <= c')%nat
             /\ forall c0 cu0,
                  Dispatcher.current_update (app s) = Some c0 ->
                  heap s !! c0 = Some cu0 ->
                  Update.modifiedTime cu0 < st_mtime f).
Proof.
  revert s. induction names as [|x names IH]; intros s Hwf Hnd Hin Hsome.
  - destruct Hsome as [[c Hc]|?]; [|congruence].
    destruct (wf_current s Hwf c Hc) as (cu & Hcu & _).
    exists c, cu. cbn [scan_states]. auto.
  - apply NoDup_cons in Hnd as [Hx Hnd].
    destruct (find_file_names d x) as [f Hf]; [apply Hin; left|].
    cbn [scan_states]. rewrite Hf.
    pose proof (sus_wf s x f Hwf) as Hwf1.
    destruct (sus_config s x f) as (Hdir & _ & Hcls & _).
    assert (Hthis : Dispatcher.updates
                      (app (scan_states d names (scan_update_state s x f))) !! x
                    = Some (List.length (heap s))).
    { rewrite scan_states_updates_other by assumption.
      rewrite sus_updates. apply lookup_insert_eq. }
    assert (Hnew : heap (scan_update_state s x f) !! List.length (heap s)
                   = Some (Update_of (Dispatcher.update_class (app s))
                                     (Dispatcher.directory (app s)) x f)).
    { rewrite sus_heap, lookup_app_r, Nat.sub_diag by lia. reflexivity. }
    assert (Hstep : exists c1 cu1,
              Dispatcher.current_update (app (scan_update_state s x f)) = Some c1
              /\ heap (scan_update_state s x f) !! c1 = Some cu1
              /\ ((Dispatcher.current_update (app s) = Some c1
                   /\ heap s !! c1 = Some cu1
                   /\ st_mtime f <= Update.modifiedTime cu1)
                  \/ (c1 = List.length (heap s)
                      /\ forall c0 cu0,
                           Dispatcher.current_update (app s) = Some c0 ->
                           heap s !! c0 = Some cu0 ->
                           Update.modifiedTime cu0 < st_mtime f))).
    { rewrite sus_current.
      destruct (Dispatcher.current_update (app s)) as [c|] eqn:Hc.
      - destruct (wf_current s Hwf c Hc) as (cu & Hcu & _). rewrite Hcu.
        pose proof (lookup_lt_Some _ _ _ Hcu) as Hlen.
        destruct (Z.ltb_spec (Update.modifiedTime cu) (st_mtime f)) as [Hlt|Hge].
        + eexists _, _. split; [reflexivity|]. split; [exact Hnew|]. right.
          split; [reflexivity|]. intros c0 cu0 [= <-] Hcu0. congruence.
        + exists c, cu. split; [reflexivity|]. split.
          * rewrite sus_heap, lookup_app_l by assumption. assumption.
          * left. auto.
      - eexists _, _. split; [reflexivity|]. split; [exact Hnew|]. right.
        split; [reflexivity|]. discriminate. }
    destruct Hstep as (c1 & cu1 & Hc1 & Hcu1 & Hor1).
    destruct (IH (scan_update_state s x f) Hwf1 Hnd) as (c' & cu' & Hc' & Hcu' & Hor);
      [intros y Hy; apply Hin; now right|left; eauto|].
    exists c', cu'. split; [assumption|]. split; [assumption|].
    destruct Hor as [[Hk1 Hk2]|(y & g & Hy & Hg & -> & Hup & Hlen & Hnewer)].
    + replace c' with c1 in * by congruence.
      replace cu' with cu1 in * by congruence.
      destruct Hor1 as [(Hc & Hcu & _)|[-> Hlt]]; [now left|].
      right. exists x, f. split; [now left|]. split; [assumption|].
      split; [congruence|]. split; [assumption|]. split; [lia|assumption].
    + right. exists y, g. rewrite Hdir, Hcls. split; [now right|].
      split; [assumption|]. split; [reflexivity|]. split; [assumption|].
      rewrite sus_heap, List.length_app in Hlen. split; [lia|].
      intros c0 cu0 Hc0 Hcu0.
      specialize (Hnewer c1 cu1 Hc1 Hcu1).
      destruct Hor1 as [(Hc & Hcu & _)|[Heq Hlt]].
      * replace cu0 with cu1 by congruence. assumption.
      * specialize (Hlt c0 cu0 Hc0 Hcu0). rewrite Heq, Hnew in Hcu1.
        injection Hcu1 as <-. cbn in Hnewer. lia.
Qed.

(** C1. After a scan of a directory that holds at least one file of the
    naming convention, run by a dispatcher in a well-formed state, there is
    a current update.  No entry of the whole cache has a greater
    [modifiedTime], no file of the directory that the filter accepts is
    newer, and each such file has its entry in the cache, built by this
    scan.  The current update is the object that was current before the
    scan, kept as it is (the scan rebuilds the cache entry of its name
    and does not put that entry in its place), or it is the cache entry
    that this scan built from a file strictly newer than the update that
    was current before.  Of the entries that share its [modifiedTime] none
    was observed before it: the comparison of [scan] is strict, so that
    the first observed of them is kept. *)
Theorem scan_selects_newest (d : Directory) (s : State) :
  wf s ->
  matching (Dispatcher.update_class (app s)) d <> [] ->
  exists s' c cu,
    Dispatcher_scan (Some d) s = (Ok true, s')
    /\ wf s'
    /\ newest_first_observed s'
    /\ Dispatcher.current_update (app s') = Some c
    /\ heap s' !! c = Some cu
    /\ (forall x f,
          accepted (Dispatcher.update_class (app s)) x = true ->
          find_file x d = Some f ->
          cached s' x (Update_of (Dispatcher.update_class (app s))
                                 (Dispatcher.directory (app s)) x f)
          /\ st_mtime f <= Update.modifiedTime cu)
    /\ ((Dispatcher.current_update (app s) = Some c /\ heap s !! c = Some cu)
        \/ exists x f,
             accepted (Dispatcher.update_class (app s)) x = true
             /\ find_file x d = Some f
             /\ cu = Update_of (Dispatcher.update_class (app s))
                               (Dispatcher.directory (app s)) x f
             /\ Dispatcher.updates (app s') !! x = Some c
             /\ (List.length (heap s) <= c)%nat
             /\ forall c0 cu0,
                  Dispatcher.current_update (app s) = Some c0 ->
                  heap s !! c0 = Some cu0 ->
                  Update.modifiedTime cu0 < st_mtime f).
Proof.
  intros Hwf Hne.
  set (names := matching (Dispatcher.update_class (app s)) d) in *.
  assert (Hin : forall x, x ∈ names -> x ∈ map fst d)
    by (intros x Hx; now apply matching_names in Hx).
  pose proof (scan_states_wf d names s Hwf) as Hwf'.
  destruct (scan_states_selected d names s Hwf (matching_NoDup _ d) Hin)
    as (c & cu & Hc & Hcu & Hor); [now right|].
  exists (scan_states d names s), c, cu.
  split; [now apply Dispatcher_scan_eq|]. split; [assumption|].
  split; [apply wf_newest; [assumption|eauto]|].
  split; [assumption|]. split; [assumption|]. split.
  - intros x f Hacc Hf.
    assert (Hcached : cached (scan_states d names s) x
                        (Update_of (Dispatcher.update_class (app s))
                                   (Dispatcher.directory (app s)) x f)).
    { apply scan_states_cached; [assumption|apply matching_NoDup|assumption|].
      left. split; [|eauto]. apply matching_names. split; [|assumption].
      destruct (decide (x ∈ map fst d)) as [|Hn]; [assumption|].
      apply find_file_None in Hn. congruence. }
    split; [assumption|].
    destruct (wf_current _ Hwf' c Hc) as (cu' & Hcu' & _ & Hmax).
    replace cu' with cu in * by congruence.
    exact (Hmax x _ Hcached).
  - destruct Hor as [?|(x & f & Hx & Hf & Hrest)]; [now left|].
    right. exists x, f. apply matching_names in Hx as [_ Hacc]. auto.
Qed.

(** X6. [scan] never returns [False]: when it returns, it returns [True],
    whether it met a new name or not. *)
Theorem scan_returns_True (fs : option Directory) (s s' : State) (b : bool) :
  Dispatcher_scan fs s = (Ok b, s') -> b = true.
Proof.
  unfold Dispatcher_scan, bind, get_app, lift.
  destruct (Update_updates _ _ fs) as [names|e]; [|discriminate].
  destruct (for_each names (scan_update fs) s) as [[[]|e] s1]; [|discriminate].
  unfold ret. now intros [= <- _].
Qed.

(** X7. After a scan the cache holds, for each file of the directory that the
    filter accepts, a new object with the time and the size that the file
    has now and with neither hash nor metadata; under any other name it
    holds what it held before. *)
Theorem scan_refreshes_cache (d : Directory) (s : State) :
  wf s ->
  exists s',
    Dispatcher_scan (Some d) s = (Ok true, s')
    /\ forall name u,
         cached s' name u <->
         (accepted (Dispatcher.update_class (app s)) name = true
          /\ exists f, find_file name d = Some f
               /\ u = Update_of (Dispatcher.update_class (app s))
                                (Dispatcher.directory (app s)) name f)
         \/ ((accepted (Dispatcher.update_class (app s)) name = false
              \/ find_file name d = None)
             /\ cached s name u).
Proof.
  intros Hwf. eexists. split; [now apply Dispatcher_scan_eq|].
  intros name u.
  rewrite scan_states_cached;
    [|assumption|apply matching_NoDup|intros x Hx; now apply matching_names in Hx].
  rewrite matching_names. rewrite find_file_None.
  destruct (accepted (Dispatcher.update_class (app s)) name) eqn:Hacc.
  - split.
    + intros [[_ H]|[Hn Hc]]; [left; auto|].
      right. split; [|assumption]. right. intros Hin. apply Hn. auto.
    + intros [[_ (f & Hf & ->)]|[[?|Hn] Hc]]; [|discriminate|].
      * left. split; [|eauto]. split; [|reflexivity].
        destruct (find_file name d) eqn:E; [|discriminate].
        destruct (decide (name ∈ map fst d)) as [|Hn]; [assumption|].
        apply find_file_None in Hn. congruence.
      * right. split; [|assumption]. intros [? _]. auto.
  - split.
    + intros [[[_ ?] _]|[_ Hc]]; [discriminate|]. right. auto.
    + intros [[? _]|[_ Hc]]; [discriminate|]. right.
      split; [|assumption]. intros [_ ?]. discriminate.
Qed.

(** X8. A scan replaces the current update only by an object that it builds
    from a file strictly newer than it: the current update after a scan is
    the one before it, or it comes from such a file; and in either case no
    file of the directory that the filter accepts is newer than it. *)
Theorem scan_current_newest (d : Directory) (s : State) (c : nat) (cu : Update.t) :
  wf s ->
  Dispatcher.current_update (app s) = Some c ->
  heap s !! c = Some cu ->
  exists s' c' cu',
    Dispatcher_scan (Some d) s = (Ok true, s')
    /\ Dispatcher.current_update (app s') = Some c'
    /\ heap s' !! c' = Some cu'
    /\ (forall x f,
          accepted (Dispatcher.update_class (app s)) x = true ->
          find_file x d = Some f ->
          st_mtime f <= Update.modifiedTime cu')
    /\ ((c' = c /\ cu' = cu)
        \/ exists x f,
             accepted (Dispatcher.update_class (app s)) x = true
             /\ find_file x d = Some f
             /\ cu' = Update_of (Dispatcher.update_class (app s))
                                (Dispatcher.directory (app s)) x f
             /\ Update.modifiedTime cu < st_mtime f).
Proof.
  intros Hwf Hc Hcu.
  set (names := matching (Dispatcher.update_class (app s)) d).
  destruct (scan_states_current_cases d names s c cu Hwf Hc Hcu)
    as (c' & cu' & Hc' & Hcu' & _ & Hor).
  pose proof (scan_states_wf d names s Hwf) as Hwf'.
  exists (scan_states d names s), c', cu'.
  split; [now apply Dispatcher_scan_eq|]. split; [assumption|].
  split; [assumption|]. split.
  - intros x f Hacc Hf.
    destruct (wf_current _ Hwf' c' Hc') as (cu'' & Hcu'' & _ & Hmax).
    replace cu'' with cu' in * by congruence.
    assert (Hx : x ∈ names).
    { apply matching_names. split; [|assumption].
      destruct (decide (x ∈ map fst d)) as [|Hn]; [assumption|].
      apply find_file_None in Hn. congruence. }
    specialize (Hmax x (Update_of (Dispatcher.update_class (app s))
                                  (Dispatcher.directory (app s)) x f)).
    apply Hmax. apply scan_states_cached;
      [assumption|apply matching_NoDup
      |intros y Hy; now apply matching_names in Hy|].
    left. eauto.
  - destruct Hor as [?|(x & f & Hx & Hf & -> & Hlt)]; [now left|].
    right. exists x, f. apply matching_names in Hx as [_ Hacc]. auto.
Qed.

(** X9. Where no file of the directory that the filter accepts is strictly
    newer than the current update, a scan keeps it: the same object, with
    the hash and the metadata that it has. *)
Theorem scan_keeps_current (d : Directory) (s : State) (c : nat) (cu : Update.t) :
  wf s ->
  Dispatcher.current_update (app s) = Some c ->
  heap s !! c = Some cu ->
  (forall x f,
     accepted (Dispatcher.update_class (app s)) x = true ->
     find_file x d = Some f ->
     st_mtime f <= Update.modifiedTime cu) ->
  exists s',
    Dispatcher_scan (Some d) s = (Ok true, s')
    /\ Dispatcher.current_update (app s') = Some c
    /\ heap s' !! c = Some cu.
Proof.
  intros Hwf Hc Hcu Hold.
  set (names := matching (Dispatcher.update_class (app s)) d).
  destruct (scan_states_current_cases d names s c cu Hwf Hc Hcu)
    as (c' & cu' & Hc' & Hcu' & _ & Hor).
  exists (scan_states d names s). split; [now apply Dispatcher_scan_eq|].
  destruct Hor as [[-> ->]|(x & f & Hx & Hf & _ & Hlt)]; [auto|].
  apply matching_names in Hx as [_ Hacc].
  specialize (Hold x f Hacc Hf). lia.
Qed.

(** X10. The states that a dispatcher goes through, from the one in which it is
    built and over any sequence of requests, on whatever the directory
    holds at each of them and whether the requests are answered or raise,
    are well formed, and in each of them the current update is an object
    at least as new as every entry of the cache. *)
Theorem running_well_formed (kw : Kw) (fs0 : option Directory) (s0 : State)
    (requests : list (Request * option Directory)) :
  Dispatcher_new kw fs0 = Ok s0 ->
  wf (snd (serve requests s0))
  /\ newest_first_observed (snd (serve requests s0)).
Proof.
  intros Hnew.
  destruct (Dispatcher_new_inv kw fs0 s0 Hnew) as (Hwf0 & Hc0 & _).
  pose proof (serve_wf requests s0 Hwf0) as Hwf.
  split; [assumption|]. apply wf_newest; [assumption|].
  now apply (serve_extends requests s0).
Qed.

(** *** More on the lazy fields of [Update] *)

(** X11. [application()] loads the companion of an object at its first call,
    reading no update file, and every later call returns what was loaded,
    whatever the directory holds by then: the companion changed, or
    deleted. *)
Theorem application_loaded_once (self : nat) (u : Update.t) (f : File)
    (a : Application.t) (fs : option Directory) (s : State) :
  heap s !! self = Some u ->
  Update._application u = None ->
  fs_lookup fs (application_ini u) = Some f ->
  Application_init (Some f) = Ok a ->
  exists s1,
    Update_application self fs s = (Ok a, s1)
    /\ reads s1 = reads s
    /\ forall fs', Update_application self fs' s1 = (Ok a, s1).
Proof.
  intros Hu Hnone Hf Ha. eexists. split; [|split].
  - now apply (Update_application_loads self u f).
  - reflexivity.
  - intros fs'.
    apply (Update_application_cached self (Update.set_application a u));
      [|reflexivity].
    cbn [heap]. rewrite list_lookup_insert_eq; [reflexivity|].
    eapply lookup_lt_Some; eauto.
Qed.

(** X12. A call of [application()] or of [hash()] that raises changes nothing:
    no metadata and no hash is stored and no content is read, so that the
    next call tries again. *)
Theorem failed_load_changes_nothing (self : nat) (fs : option Directory)
    (s s' : State) (e : exn) :
  (Update_application self fs s = (Raise e, s') -> s' = s)
  /\ (Update_hash self fs s = (Raise e, s') -> s' = s).
Proof.
  split.
  - unfold Update_application, bind, deref.
    destruct (heap s !! self) as [u|]; [|now intros [= _ <-]].
    destruct (Update._application u); [discriminate|]. cbv zeta.
    destruct (fs_lookup fs _) as [f|]; [|now intros [= _ <-]].
    unfold lift. destruct (Application_init (Some f)); [discriminate|].
    now intros [= _ <-].
  - unfold Update_hash, bind, deref.
    destruct (heap s !! self) as [u|]; [|now intros [= _ <-]].
    assert (H : Update_hash_compute self u fs s = (Raise e, s') -> s' = s).
    { unfold Update_hash_compute.
      destruct (fs_lookup fs _) as [f|]; [discriminate|]. now intros [= _ <-]. }
    destruct (Update._hash u) as [h|]; [|assumption].
    destruct (Py.truthy h); [discriminate|assumption].
Qed.

(** The digits that [hexdigest] prints. *)
Lemma is_hex_hexdigit (x : Z) : is_hex (SHA512.hexdigit (x mod 16)) = true.
Proof.
  pose proof (Z.mod_pos_bound x 16 eq_refl) as H.
  set (y := x mod 16) in *. clearbody y.
  assert (Hy : y = 0 \/ y = 1 \/ y = 2 \/ y = 3 \/ y = 4 \/ y = 5 \/ y = 6
               \/ y = 7 \/ y = 8 \/ y = 9 \/ y = 10 \/ y = 11 \/ y = 12
               \/ y = 13 \/ y = 14 \/ y = 15) by lia.
  repeat (destruct Hy as [->|Hy]; [reflexivity|]). now subst y.
Qed.

Lemma all_hex_hex64 (x : Z) (k : string) :
  all_hex (SHA512.hex64 x k) = all_hex k.
Proof.
  unfold SHA512.hex64. cbn [fold_right all_hex].
  now rewrite !is_hex_hexdigit.
Qed.

Lemma all_hex_hexdigest (data : list byte) :
  all_hex (SHA512.hexdigest data) = true.
Proof.
  unfold SHA512.hexdigest, SHA512.hex_of_state.
  now rewrite !all_hex_hex64.
Qed.

(** X13. The hash that an object computes is made of 128 hexadecimal digits in
    lower case, whatever the content of the file. *)
Theorem hash_is_hex (self : nat) (u : Update.t) (fs : option Directory)
    (s s' : State) (h : string) :
  heap s !! self = Some u ->
  Update._hash u = None ->
  Update_hash self fs s = (Ok h, s') ->
  String.length h = 128%nat /\ all_hex h = true.
Proof.
  intros Hu Hnone. unfold Update_hash, bind, deref. rewrite Hu, Hnone.
  unfold Update_hash_compute.
  destruct (fs_lookup fs _) as [f|]; [|discriminate].
  intros [= <- _]. split; [apply length_hexdigest|apply all_hex_hexdigest].
Qed.

(** Where the file of an object is gone at the first call of [hash()], the
    call raises [IOError] on the path of the file. *)
Lemma Update_hash_missing (self : nat) (u : Update.t) (fs : option Directory)
    (s : State) :
  heap s !! self = Some u ->
  Update._hash u = None ->
  fs_lookup fs (Update.filename u) = None ->
  Update_hash self fs s = (Raise (IOError (Update.path u)), s).
Proof.
  intros Hu Hnone Hf. unfold Update_hash, bind, deref. rewrite Hu, Hnone.
  unfold Update_hash_compute. now rewrite Hf.
Qed.

(** *** The objects keep what they have *)

#[local] Instance fills_preorder : PreOrder fills.
Proof.
  split.
  - intros u. unfold fills. auto 10.
  - intros u1 u2 u3 (H1 & H2 & H3 & H4 & H5 & H6 & Ha & Hh)
      (H1' & H2' & H3' & H4' & H5' & H6' & Ha' & Hh').
    unfold fills. repeat split; try congruence; eauto.
Qed.

#[local] Instance matures_preorder : PreOrder matures.
Proof.
  split.
  - intros s a u Hu. exists u. split; [assumption|reflexivity].
  - intros s1 s2 s3 H12 H23 a u Hu.
    destruct (H12 a u Hu) as (u2 & Hu2 & Hf).
    destruct (H23 a u2 Hu2) as (u3 & Hu3 & Hf').
    exists u3. split; [assumption|]. etransitivity; eassumption.
Qed.

Lemma matures_heap (s s' : State) : heap s' = heap s -> matures s s'.
Proof. intros H a u Hu. exists u. rewrite H. split; [assumption|reflexivity]. Qed.

Lemma matures_modify_app (f : Dispatcher.t -> Dispatcher.t) :
  keeps matures (modify_app f).
Proof. intros s. now apply matures_heap. Qed.

Lemma matures_record_read (p : string) : keeps matures (record_read p).
Proof. intros s. now apply matures_heap. Qed.

Lemma matures_new (u : Update.t) : keeps matures (new u).
Proof.
  intros s a v Hv. exists v. split; [|reflexivity]. cbn.
  rewrite lookup_app_l; [assumption|]. eapply lookup_lt_Some; eauto.
Qed.

(** An object stored again at its address, with what it keeps. *)
Lemma matures_update (a : nat) (u u' : Update.t) (s : State) :
  heap s !! a = Some u -> fills u u' -> matures s (snd (store a u' s)).
Proof.
  intros Hu Hf b v Hv. cbn. destruct (decide (b = a)) as [->|Hne].
  - exists u'. rewrite list_lookup_insert_eq by (eapply lookup_lt_Some; eauto).
    split; [reflexivity|]. congruence.
  - exists v. rewrite list_lookup_insert_ne by congruence.
    split; [assumption|reflexivity].
Qed.

Lemma matures_Update_application (self : nat) (fs : option Directory) :
  keeps matures (Update_application self fs).
Proof.
  intros s. unfold Update_application, bind, deref.
  destruct (heap s !! self) as [u|] eqn:Hu; [|reflexivity].
  destruct (Update._application u) eqn:Hnone; [reflexivity|]. cbv zeta.
  destruct (fs_lookup fs _) as [f|]; [|reflexivity].
  unfold lift. destruct (Application_init (Some f)) as [a|e]; [|reflexivity].
  apply (matures_update self u); [assumption|].
  unfold fills. cbn. rewrite Hnone. repeat split; auto; discriminate.
Qed.

Lemma matures_Update_hash (self : nat) (fs : option Directory) :
  keeps matures (Update_hash self fs).
Proof.
  intros s. unfold Update_hash, bind, deref.
  destruct (heap s !! self) as [u|] eqn:Hu; [|reflexivity].
  assert (H : (forall h, Update._hash u = Some h -> Py.truthy h = false) ->
              matures s (snd (Update_hash_compute self u fs s))).
  { intros Hfalsy. unfold Update_hash_compute.
    destruct (fs_lookup fs _) as [f|]; [|reflexivity].
    unfold bind, record_read. cbv zeta.
    etransitivity; [apply (matures_record_read (Update.path u) s)|].
    apply (matures_update self u); [assumption|].
    unfold fills. cbn. repeat split; auto.
    intros h Hh Ht. rewrite (Hfalsy h Hh) in Ht. discriminate. }
  destruct (Update._hash u) as [h|]; [|apply H; discriminate].
  destruct (Py.truthy h) eqn:Ht; [reflexivity|].
  apply H. now intros ? [= <-].
Qed.

Lemma matures_scan_update (fs : option Directory) (update : string) :
  keeps matures (scan_update fs update).
Proof.
  unfold scan_update, Update_init.
  repeat first [ apply matures_modify_app | apply matures_new | keeps_step ].
Qed.

Lemma matures_Dispatcher_scan (fs : option Directory) :
  keeps matures (Dispatcher_scan fs).
Proof.
  unfold Dispatcher_scan.
  repeat first [ apply matures_scan_update | keeps_step ].
Qed.

Lemma matures_Dispatcher_call (request : Request) (fs : option Directory) :
  keeps matures (Dispatcher_call request fs).
Proof.
  unfold Dispatcher_call.
  repeat first
    [ apply matures_Dispatcher_scan
    | apply matures_Update_application
    | apply matures_Update_hash
    | apply keeps_dispatch; preorder; intros ?
    | keeps_step ].
Qed.

Lemma serve_matures (requests : list (Request * option Directory)) (s : State) :
  matures s (snd (serve requests s)).
Proof.
  revert s. induction requests as [|[request fs] requests IH]; intros s.
  - reflexivity.
  - cbn [serve]. pose proof (matures_Dispatcher_call request fs s) as H.
    destruct (Dispatcher_call request fs s) as [r s1]. cbn in H.
    specialize (IH s1). destruct (serve requests s1) as [rs s2]. cbn in *.
    etransitivity; eassumption.
Qed.

(** X14. An [Update] object is never dropped and never changed but by the first
    call of its [application()] and of its [hash()]: over any sequence of
    requests, on whatever the directory holds, it keeps its directory,
    name, path, stamp, time and size, and keeps the metadata and the hash
    that it has. *)
Theorem objects_keep_their_fields (requests : list (Request * option Directory))
    (s : State) (a : nat) (u : Update.t) :
  heap s !! a = Some u ->
  exists u', heap (snd (serve requests s)) !! a = Some u' /\ fills u u'.
Proof. apply serve_matures. Qed.

(** *** What is read, and when *)

#[local] Instance same_reads_preorder : PreOrder same_reads.
Proof.
  split.
  - intros s. reflexivity.
  - intros s1 s2 s3 H12 H23. unfold same_reads in *. congruence.
Qed.

Lemma same_reads_modify_app (f : Dispatcher.t -> Dispatcher.t) :
  keeps same_reads (modify_app f).
Proof. intros s. reflexivity. Qed.

Lemma same_reads_new (u : Update.t) : keeps same_reads (new u).
Proof. intros s. reflexivity. Qed.

Lemma same_reads_store (a : nat) (u : Update.t) : keeps same_reads (store a u).
Proof. intros s. reflexivity. Qed.

Lemma same_reads_Dispatcher_scan (fs : option Directory) :
  keeps same_reads (Dispatcher_scan fs).
Proof.
  unfold Dispatcher_scan, scan_update, Update_init.
  repeat first [ apply same_reads_modify_app | apply same_reads_new | keeps_step ].
Qed.

Lemma same_reads_Update_application (self : nat) (fs : option Directory) :
  keeps same_reads (Update_application self fs).
Proof.
  unfold Update_application.
  repeat first [ apply same_reads_store | keeps_step ].
Qed.

(** [hash()] reads the file of its object, once, or nothing. *)
Lemma Update_hash_reads_once (self : nat) (fs : option Directory) (s : State) :
  app (snd (Update_hash self fs s)) = app s
  /\ (reads (snd (Update_hash self fs s)) = reads s
      \/ exists u,
           heap (snd (Update_hash self fs s)) !! self = Some u
           /\ reads (snd (Update_hash self fs s)) = (reads s ++ [Update.path u])%list).
Proof.
  unfold Update_hash, bind, deref.
  destruct (heap s !! self) as [u|] eqn:Hu; [|now split; [|left]].
  assert (H : app (snd (Update_hash_compute self u fs s)) = app s
              /\ (reads (snd (Update_hash_compute self u fs s)) = reads s
                  \/ exists u',
                       heap (snd (Update_hash_compute self u fs s)) !! self = Some u'
                       /\ reads (snd (Update_hash_compute self u fs s))
                          = (reads s ++ [Update.path u'])%list)).
  { unfold Update_hash_compute.
    destruct (fs_lookup fs _) as [f|]; [|now split; [|left]].
    split; [reflexivity|]. right.
    exists (Update.set_hash (SHA512.hexdigest (contents f)) u). split; [|reflexivity].
    cbn. apply list_lookup_insert_eq. eapply lookup_lt_Some; eauto. }
  destruct (Update._hash u) as [h|]; [|assumption].
  destruct (Py.truthy h); [now split; [|left]|assumption].
Qed.

Lemma Get_call_reads_once (request : Request) (fs : option Directory) (s : State) :
  reads (snd (Get_call request fs s)) = reads s
  \/ exists u,
       current (snd (Get_call request fs s)) u
       /\ reads (snd (Get_call request fs s)) = (reads s ++ [Update.path u])%list.
Proof.
  destruct (Get_call request fs s) as [r s'] eqn:E. cbn [snd].
  unfold Get_call in E. cbv zeta in E. unfold bind at 1, get_app in E.
  destruct (Dispatcher.current_update (app s)) as [c|] eqn:Hc;
    [|injection E as _ <-; now left].
  unfold bind at 1 in E.
  pose proof (same_reads_Update_application c fs s) as Ha.
  pose proof (retouched_Update_application c fs s) as [Happ _].
  destruct (Update_application c fs s) as [[a|e] s2]; cbn [snd] in Ha, Happ;
    [|injection E as _ <-; now left].
  unfold bind at 1, deref in E.
  destruct (heap s2 !! c) as [u|]; [|injection E as _ <-; now left].
  unfold bind at 1 in E.
  pose proof (Update_hash_reads_once c fs s2) as [Happ3 Hh].
  destruct (Update_hash c fs s2) as [[h|e] s3]; cbn [snd] in Happ3, Hh;
    unfold bind, ret in E; injection E as _ <-; rewrite <- Ha;
    (destruct Hh as [Hh|(u3 & Hu3 & Hh)]; [now left|]);
    right; exists u3; (split; [|assumption]);
    exists c; (split; [congruence|assumption]).
Qed.

(** X15. A scan calls [file(...).read()] on no file: it takes the time and
    the size of the files, and leaves the hash for the request that needs
    it.  A request calls it once at most, and then on the file of the
    update that is current when the request ends, whose hash it computes.
    (What [ConfigParser] reads of a companion is not part of the log
    [reads].) *)
Theorem request_reads_at_most_once (request : Request) (fs : option Directory)
    (s : State) :
  reads (snd (Dispatcher_scan fs s)) = reads s
  /\ (reads (snd (Dispatcher_call request fs s)) = reads s
      \/ exists u,
           current (snd (Dispatcher_call request fs s)) u
           /\ reads (snd (Dispatcher_call request fs s))
              = (reads s ++ [Update.path u])%list).
Proof.
  split; [apply same_reads_Dispatcher_scan|].
  destruct (Dispatcher_call request fs s) as [r s'] eqn:E. cbn [snd].
  unfold Dispatcher_call in E. unfold bind at 1 in E.
  pose proof (same_reads_Dispatcher_scan fs s) as Hs.
  destruct (Dispatcher_scan fs s) as [[b|e] s1]; cbn [snd] in Hs;
    [|injection E as _ <-; now left].
  unfold bind, get_app in E. rewrite <- Hs.
  assert (Hd : forall hs,
            reads (snd (dispatch hs request fs s1)) = reads s1
            \/ exists u,
                 current (snd (dispatch hs request fs s1)) u
                 /\ reads (snd (dispatch hs request fs s1))
                    = (reads s1 ++ [Update.path u])%list).
  { induction hs as [|[] hs IH]; cbn [dispatch]; [now left|].
    destruct (handler_match Get request); [|assumption].
    cbn [handler_call]. apply Get_call_reads_once. }
  specialize (Hd (Dispatcher.handlers (app s1))). now rewrite E in Hd.
Qed.

(** X16. The answer to a request depends on the request through its method and
    the last value of its parameter [dogfood_id] only: its path, its other
    parameters and the earlier values of [dogfood_id] play no part. *)
Theorem request_method_and_dogfood_id (r1 r2 : Request) (fs : option Directory)
    (s : State) :
  method r1 = method r2 ->
  MultiDict_get (GET r1) "dogfood_id" = MultiDict_get (GET r2) "dogfood_id" ->
  Dispatcher_call r1 fs s = Dispatcher_call r2 fs s.
Proof.
  intros Hm Hd.
  assert (Hdis : forall hs, dispatch hs r1 fs = dispatch hs r2 fs).
  { induction hs as [|[] hs IH]; cbn [dispatch]; [reflexivity|].
    cbn [handler_match handler_call]. unfold Get_match. rewrite Hm, IH.
    unfold Get_call. now rewrite Hd. }
  unfold Dispatcher_call, bind.
  destruct (Dispatcher_scan fs s) as [[b|e] s1]; [|reflexivity].
  unfold get_app. now rewrite Hdis.
Qed.

(** X17. A parameter [dogfood_id] whose last value is empty counts for none. *)
Theorem empty_dogfood_id_dropped (request : Request) (fs : option Directory)
    (s : State) :
  MultiDict_get (GET request) "dogfood_id" = Some "" ->
  Dispatcher_call request fs s
  = Dispatcher_call
      {| method := method request; path_info := path_info request; GET := [] |}
      fs s.
Proof.
  intros Hd.
  set (r0 := {| method := method request; path_info := path_info request;
                GET := [] |}).
  assert (Hdis : forall hs, dispatch hs request fs = dispatch hs r0 fs).
  { induction hs as [|[] hs IH]; cbn [dispatch]; [reflexivity|].
    cbn [handler_match handler_call]. unfold Get_match. cbn [method r0].
    rewrite IH. unfold Get_call. rewrite Hd. reflexivity. }
  unfold Dispatcher_call, bind.
  destruct (Dispatcher_scan fs s) as [[b|e] s1]; [|reflexivity].
  unfold get_app. now rewrite Hdis.
Qed.

(** *** A request answered from what the current object keeps *)

Lemma Update_application_Ok (c : nat) (fs : option Directory) (s s2 : State)
    (a : Application.t) :
  Update_application c fs s = (Ok a, s2) ->
  app s2 = app s
  /\ exists u2, heap s2 !! c = Some u2 /\ Update._application u2 = Some a.
Proof.
  unfold Update_application, bind, deref.
  destruct (heap s !! c) as [u|] eqn:Hu; [|discriminate].
  destruct (Update._application u) as [a'|] eqn:Ha.
  - intros [= <- <-]. eauto.
  - cbv zeta. destruct (fs_lookup fs _) as [f|]; [|discriminate].
    unfold lift. destruct (Application_init (Some f)) as [a'|e]; [|discriminate].
    intros [= <- <-]. split; [reflexivity|]. cbn [heap].
    rewrite list_lookup_insert_eq by (eapply lookup_lt_Some; eauto). eauto.
Qed.

Lemma Update_hash_Ok (c : nat) (fs : option Directory) (s s3 : State) (h : string) :
  Update_hash c fs s = (Ok h, s3) ->
  app s3 = app s
  /\ Py.truthy h = true
  /\ exists u3, heap s3 !! c = Some u3 /\ Update._hash u3 = Some h.
Proof.
  unfold Update_hash, bind, deref.
  destruct (heap s !! c) as [u|] eqn:Hu; [|discriminate].
  assert (H : Update_hash_compute c u fs s = (Ok h, s3) ->
              app s3 = app s /\ Py.truthy h = true
              /\ exists u3, heap s3 !! c = Some u3 /\ Update._hash u3 = Some h).
  { unfold Update_hash_compute.
    destruct (fs_lookup fs _) as [f|]; [|discriminate].
    intros [= <- <-]. split; [reflexivity|]. split; [apply truthy_hexdigest|].
    cbn [heap]. rewrite list_lookup_insert_eq by (eapply lookup_lt_Some; eauto).
    eauto. }
  destruct (Update._hash u) as [h'|] eqn:Hh; [|assumption].
  destruct (Py.truthy h') eqn:Ht; [|assumption].
  intros [= <- <-]. eauto.
Qed.

(** What a handler that answers has gone through. *)
Lemma Get_call_inv (request : Request) (fs : option Directory) (s s' : State)
    (r : Response) :
  Get_call request fs s = (Ok r, s') ->
  exists c a u h s2,
    Dispatcher.current_update (app s) = Some c
    /\ Update_application c fs s = (Ok a, s2)
    /\ heap s2 !! c = Some u
    /\ Update_hash c fs s2 = (Ok h, s')
    /\ r = Response_OK "text/xml"
             (format Get_body
                {| v_update := Update.filename u;
                   v_size := Update.size u;
                   v_version := Application.version a;
                   v_hash := h;
                   v_path := Dispatcher.path (app s');
                   v_build_id := Application.build_id a;
                   v_query := query_string (Get_query request a) |}).
Proof.
  intros E. unfold Get_call in E. cbv zeta in E. unfold bind at 1, get_app in E.
  destruct (Dispatcher.current_update (app s)) as [c|]; [|discriminate].
  unfold bind at 1 in E.
  destruct (Update_application c fs s) as [[a|e] s2] eqn:Ea; [|discriminate].
  unfold bind at 1, deref in E.
  destruct (heap s2 !! c) as [u|] eqn:Hu; [|discriminate].
  unfold bind at 1 in E.
  destruct (Update_hash c fs s2) as [[h|e] s3] eqn:Eh; [|discriminate].
  unfold bind, get_app, ret in E. injection E as <- <-.
  exists c, a, u, h, s2. auto.
Qed.

(** The handler on a current object that has its metadata and its hash:
    the directory is not looked at, and nothing changes. *)
Lemma Get_call_loaded (request : Request) (fs : option Directory) (s : State)
    (c : nat) (u : Update.t) (a : Application.t) (h : string) :
  Dispatcher.current_update (app s) = Some c ->
  heap s !! c = Some u ->
  Update._application u = Some a ->
  Update._hash u = Some h ->
  Py.truthy h = true ->
  Get_call request fs s
  = (Ok (Response_OK "text/xml"
           (format Get_body
              {| v_update := Update.filename u;
                 v_size := Update.size u;
                 v_version := Application.version a;
                 v_hash := h;
                 v_path := Dispatcher.path (app s);
                 v_build_id := Application.build_id a;
                 v_query := query_string (Get_query request a) |})), s).
Proof.
  intros Hc Hu Ha Hh Ht.
  apply (Get_call_eq request fs s s s c u a h); try assumption.
  - now apply (Update_application_cached c u).
  - now apply (Update_hash_cached c u).
Qed.

(** X18. Once a [GET] request is answered, the current update has its metadata
    and its hash; as long as no file of the directory that the filter
    accepts is strictly newer than it, the same request is answered as
    before, without any file content being read, also where the update or
    its companion is gone or has changed.  The directory of the first
    request, if unchanged, is such a directory. *)
Theorem served_from_cache (request : Request) (d : Directory) (s s1 : State)
    (r : Response) :
  wf s ->
  Dispatcher.handlers (app s) = [Get] ->
  method request = "GET" ->
  Dispatcher_call request (Some d) s = (Ok r, s1) ->
  exists c cu,
    Dispatcher.current_update (app s1) = Some c
    /\ heap s1 !! c = Some cu
    /\ (forall x f,
          accepted (Dispatcher.update_class (app s)) x = true ->
          find_file x d = Some f ->
          st_mtime f <= Update.modifiedTime cu)
    /\ forall d',
         (forall x f,
            accepted (Dispatcher.update_class (app s)) x = true ->
            find_file x d' = Some f ->
            st_mtime f <= Update.modifiedTime cu) ->
         exists s2,
           Dispatcher_call request (Some d') s1 = (Ok r, s2)
           /\ reads s2 = reads s1.
Proof.
  intros Hwf Hh Hm Hcall.
  pose proof (Dispatcher_call_wf request (Some d) s Hwf) as Hwf1.
  rewrite Hcall in Hwf1. cbn [snd] in Hwf1.
  rewrite Dispatcher_call_Get in Hcall by assumption.
  set (names := matching (Dispatcher.update_class (app s)) d) in *.
  set (sa := scan_states d names s) in *.
  assert (Hwfa : wf sa) by now apply scan_states_wf.
  destruct (scan_states_config d names s) as (_ & _ & Hcls & Hhs). fold sa in Hcls, Hhs.
  destruct (Get_call_inv _ _ _ _ _ Hcall) as (c & a & u & h & s2 & Hc & Ea & Hu & Eh & ->).
  destruct (Update_application_Ok _ _ _ _ _ Ea) as (Happ2 & u2 & Hu2 & Ha2).
  replace u2 with u in * by congruence. clear Hu2.
  destruct (Update_hash_Ok _ _ _ _ _ Eh) as (Happ3 & Ht & u3 & Hu3 & Hh3).
  pose proof (matures_Update_hash c (Some d) s2 c u Hu) as (u3' & Hu3' & Hf3).
  rewrite Eh in Hu3'. cbn [snd] in Hu3'.
  replace u3' with u3 in * by congruence. clear Hu3'.
  destruct Hf3 as (_ & Hname & _ & _ & Htime & Hsize & Hkeep & _).
  specialize (Hkeep a Ha2).
  assert (Hc1 : Dispatcher.current_update (app s1) = Some c) by congruence.
  exists c, u3. split; [assumption|]. split; [assumption|]. split.
  - intros x f Hacc Hf.
    destruct (wf_current sa Hwfa c Hc) as (cua & Hcua & _ & Hmax).
    pose proof (matures_Update_application c (Some d) sa c cua Hcua)
      as (u' & Hu' & Hf').
    rewrite Ea in Hu'. cbn [snd] in Hu'.
    replace u' with u in * by congruence.
    destruct Hf' as (_ & _ & _ & _ & Htime' & _).
    rewrite Htime, Htime'.
    apply (Hmax x (Update_of (Dispatcher.update_class (app s))
                             (Dispatcher.directory (app s)) x f)).
    apply scan_states_cached;
      [assumption|apply matching_NoDup
      |intros y Hy; now apply matching_names in Hy|].
    left. split; [|eauto]. apply matching_names. split; [|assumption].
    destruct (decide (x ∈ map fst d)) as [|Hn]; [assumption|].
    apply find_file_None in Hn. congruence.
  - intros d' Hold.
    assert (Hcls1 : Dispatcher.update_class (app s1)
                    = Dispatcher.update_class (app s)) by congruence.
    rewrite Dispatcher_call_Get; [|assumption|congruence|assumption].
    set (names' := matching (Dispatcher.update_class (app s1)) d').
    destruct (scan_states_current_cases d' names' s1 c u3 Hwf1 Hc1 Hu3)
      as (c' & cu' & Hc' & Hcu' & _ & Hor).
    destruct Hor as [[-> ->]|(x & f & Hx & Hf & _ & Hlt)].
    2:{ apply matching_names in Hx as [_ Hacc]. rewrite Hcls1 in Hacc.
        specialize (Hold x f Hacc Hf). lia. }
    destruct (scan_states_config d' names' s1) as (_ & Hpath & _ & _).
    exists (scan_states d' names' s1). split; [|apply scan_states_reads].
    rewrite (Get_call_loaded request (Some d') _ c u3 a h Hc' Hcu' Hkeep Hh3 Ht).
    now rewrite Hname, Hsize, Hpath.
Qed.

(** *** More on [Dispatcher.__init__] *)

Lemma contains_slash (c : ascii) (s : string) :
  contains (String c s) "/" = Ascii.eqb c "/" || contains s "/".
Proof.
  unfold contains. cbn [find_after Py.startswith].
  rewrite (Ascii.eqb_sym "/" c).
  destruct (Ascii.eqb c "/"); [now destruct s|reflexivity].
Qed.

Lemma contains_slash_app (a b : string) :
  contains (a +:+ b) "/" = contains a "/" || contains b "/".
Proof.
  induction a as [|c a IH]; [reflexivity|].
  rewrite app_String, !contains_slash, IH. now rewrite orb_assoc.
Qed.

Lemma append_empty_r (a : string) : a +:+ "" = a.
Proof. induction a as [|c a IH]; [reflexivity|]. now rewrite app_String, IH. Qed.

(** What follows the last slash holds no slash, and what precedes it is
    empty or ends with a slash. *)
Lemma split_tail_spec (p acc : string) :
  contains acc "/" = false ->
  contains (Py.split_tail acc p) "/" = false
  /\ exists q, acc +:+ p = q +:+ Py.split_tail acc p
       /\ (q = "" \/ exists q0, q = q0 +:+ "/").
Proof.
  revert acc. induction p as [|c p IH]; intros acc Hacc; cbn [Py.split_tail].
  - split; [assumption|]. exists "". split; [apply append_empty_r|now left].
  - destruct (Ascii.eqb_spec c "/") as [->|Hc].
    + destruct (IH "" eq_refl) as (Hno & q & Hq & Hor). split; [assumption|].
      exists (acc +:+ "/" +:+ q). split.
      * change ("" +:+ p) with p in Hq. rewrite Hq at 1.
        change (String "/" (q +:+ Py.split_tail "" p))
          with ("/" +:+ q +:+ Py.split_tail "" p).
        now rewrite <- !append_assoc.
      * right. destruct Hor as [->|(q0 & ->)].
        -- exists acc. reflexivity.
        -- exists (acc +:+ "/" +:+ q0). now rewrite <- !append_assoc.
    + destruct (IH (acc +:+ String c "")) as (Hno & q & Hq & Hor).
      * rewrite contains_slash_app, Hacc, contains_slash.
        apply Ascii.eqb_neq in Hc. now rewrite Hc.
      * split; [assumption|]. exists q. split; [|assumption].
        rewrite <- Hq. now rewrite append_assoc.
Qed.

(** X19. The path of a dispatcher: the one given, if it is not empty; failing
    that the last component of the directory, its slashes at both ends
    left out, which holds no slash. *)
Theorem Dispatcher_path (kw : Kw) (fs : option Directory) (s : State) :
  Dispatcher_new kw fs = Ok s ->
  Dispatcher.directory (app s) = default here (kw_directory kw)
  /\ (forall p, kw_path kw = Some p -> p <> "" -> Dispatcher.path (app s) = p)
  /\ (kw_path kw = None \/ kw_path kw = Some "" ->
        contains (Dispatcher.path (app s)) "/" = false
        /\ exists q,
             Py.strip "/" (Dispatcher.directory (app s))
             = q +:+ Dispatcher.path (app s)
             /\ (q = "" \/ exists q0, q = q0 +:+ "/")).
Proof.
  intros Hnew.
  destruct (Dispatcher_new_inv kw fs s Hnew) as (_ & _ & _ & ->).
  pose proof (keeps_Dispatcher_scan fs (unscanned kw)) as (_ & _ & _ & Hd & Hp & _).
  rewrite Hd, Hp. cbn [unscanned app Dispatcher.directory Dispatcher.path].
  split; [reflexivity|]. split.
  - intros p -> Hne. destruct p; [congruence|reflexivity].
  - intros Hor.
    assert (Hpath : match kw_path kw with
                    | Some p =>
                        if Py.truthy p then p
                        else Py.split_tail "" (Py.strip "/" (default here (kw_directory kw)))
                    | None => Py.split_tail "" (Py.strip "/" (default here (kw_directory kw)))
                    end
                    = Py.split_tail "" (Py.strip "/" (default here (kw_directory kw)))).
    { destruct Hor as [-> | ->]; reflexivity. }
    rewrite Hpath.
    apply (split_tail_spec (Py.strip "/" (default here (kw_directory kw))) "").
    reflexivity.
Qed.

(** The outcomes of the construction on a directory that holds no file
    of the convention, and on one that holds some. *)
Lemma Dispatcher_new_Some (kw : Kw) (d : Directory) :
  Dispatcher_new kw (Some d)
  = match matching (default cls_Update (kw_update_class kw)) d with
    | [] => Raise (AssertionError
                     ("No updates found in " +:+ default here (kw_directory kw)))
    | _ :: _ =>
        Ok (scan_states d (matching (default cls_Update (kw_update_class kw)) d)
              (unscanned kw))
    end.
Proof.
  destruct (matching _ d) as [|x names] eqn:Hm.
  - unfold Dispatcher_new. rewrite Dispatcher_init_eq.
    unfold bind at 1. rewrite Dispatcher_scan_eq by apply wf_unscanned.
    cbn [unscanned app Dispatcher.update_class]. now rewrite Hm.
  - rewrite <- Hm. apply Dispatcher_new_found. now rewrite Hm.
Qed.

(** The objects that the loop adds have neither metadata nor hash. *)
Lemma scan_states_fresh (d : Directory) (names : list string) (s : State)
    (a : nat) (u : Update.t) :
  heap (scan_states d names s) !! a = Some u ->
  heap s !! a = Some u
  \/ (Update._application u = None /\ Update._hash u = None).
Proof.
  revert s. induction names as [|x names IH]; intros s H; [now left|].
  cbn [scan_states] in H. destruct (find_file x d) as [f|]; [|now left].
  destruct (IH _ H) as [H1|H1]; [|now right].
  rewrite sus_heap in H1. apply lookup_app_Some in H1 as [H1|[_ H1]]; [now left|].
  right. destruct (a - List.length (heap s))%nat; [|discriminate].
  injection H1 as <-. now split.
Qed.

(** X20. A directory that cannot be listed makes the construction raise
    [OSError], not the assertion.  When a dispatcher is built, its
    directory holds a file that the filter accepts, its cache holds the
    names that the filter accepts and no other, no file content has been
    read, and no object has metadata or a hash yet. *)
Theorem Dispatcher_built (kw : Kw) :
  Dispatcher_new kw None = Raise (OSError (default here (kw_directory kw)))
  /\ forall d s,
       Dispatcher_new kw (Some d) = Ok s ->
       (exists x, accepted (default cls_Update (kw_update_class kw)) x = true
                  /\ is_Some (find_file x d))
       /\ (forall name,
             is_Some (Dispatcher.updates (app s) !! name)
             <-> accepted (default cls_Update (kw_update_class kw)) name = true
                 /\ is_Some (find_file name d))
       /\ reads s = []
       /\ forall a u, heap s !! a = Some u ->
            Update._application u = None /\ Update._hash u = None.
Proof.
  split; [reflexivity|]. intros d s Hs.
  set (cls := default cls_Update (kw_update_class kw)).
  assert (Hin : forall x, x ∈ matching cls d
                          <-> accepted cls x = true /\ is_Some (find_file x d)).
  { intros x. rewrite matching_names. split; intros [H1 H2]; split; auto.
    - now apply find_file_names.
    - destruct (decide (x ∈ map fst d)) as [|Hn]; [assumption|].
      apply find_file_None in Hn. rewrite Hn in H2. now destruct H2. }
  rewrite Dispatcher_new_Some in Hs. fold cls in Hs.
  assert (Hex : exists x, x ∈ matching cls d).
  { destruct (matching cls d) as [|x0 names0]; [discriminate|].
    exists x0. now left. }
  assert (Hs' : s = scan_states d (matching cls d) (unscanned kw)).
  { destruct (matching cls d); [discriminate|]. now injection Hs. }
  subst s. clear Hs. split; [|split; [|split]].
  - destruct Hex as [x Hx]. exists x. now apply Hin.
  - intros name. rewrite <- Hin.
    pose proof (scan_states_wf d (matching cls d) (unscanned kw) (wf_unscanned kw))
      as Hwf.
    split.
    + intros [a Ha]. destruct (wf_updates _ Hwf name a Ha) as (u & Hu & _).
      assert (Hc : cached (scan_states d (matching cls d) (unscanned kw)) name u)
        by (exists a; auto).
      apply scan_states_cached in Hc;
        [|apply wf_unscanned|apply matching_NoDup
         |intros y Hy; now apply matching_names in Hy].
      destruct Hc as [[H _]|[_ (b & Hb & _)]]; [assumption|].
      cbn in Hb. rewrite lookup_empty in Hb. discriminate.
    + intros Hname. apply scan_states_scanned; [|assumption].
      intros y Hy. now apply matching_names in Hy.
  - now rewrite scan_states_reads.
  - intros a u Hu. apply scan_states_fresh in Hu as [Hu|Hu]; [|assumption].
    cbn in Hu. rewrite lookup_nil in Hu. discriminate.
Qed.

(** *** [Handler.link] *)

Lemma lstrip_head (c : ascii) (s : string) :
  Py.startswith (Py.lstrip c s) (String c "") = false.
Proof.
  induction s as [|d s IH]; [reflexivity|]. cbn [Py.lstrip].
  destruct (Ascii.eqb_spec d c) as [->|Hne]; [assumption|].
  cbn [Py.startswith]. rewrite Ascii.eqb_sym.
  apply Ascii.eqb_neq in Hne. now rewrite Hne.
Qed.

Lemma lstrip_id (c : ascii) (s : string) :
  Py.startswith s (String c "") = false -> Py.lstrip c s = s.
Proof.
  destruct s as [|d s]; [reflexivity|]. cbn [Py.startswith Py.lstrip].
  rewrite (Ascii.eqb_sym c d). destruct (Ascii.eqb d c); [|reflexivity].
  now destruct s.
Qed.

Lemma rstrip_head (c : ascii) (s : string) :
  Py.startswith s (String c "") = false ->
  Py.startswith (Py.rstrip c s) (String c "") = false.
Proof.
  destruct s as [|d s]; [reflexivity|]. cbn [Py.startswith Py.rstrip].
  destruct (Ascii.eqb c d) eqn:E; [now destruct s|]. intros _.
  rewrite (Ascii.eqb_sym d c), E.
  destruct (Py.rstrip c s); cbn [Py.startswith]; now rewrite E.
Qed.

Lemma rstrip_rstrip (c : ascii) (s : string) :
  Py.rstrip c (Py.rstrip c s) = Py.rstrip c s.
Proof.
  induction s as [|d s IH]; [reflexivity|]. cbn [Py.rstrip].
  destruct (Py.rstrip c s) as [|e r] eqn:Hr.
  - destruct (Ascii.eqb d c) eqn:E; [reflexivity|]. cbn [Py.rstrip]. now rewrite E.
  - change (Py.rstrip c (String d (String e r)))
      with (match Py.rstrip c (String e r) with
            | EmptyString => if Ascii.eqb d c then EmptyString else String d EmptyString
            | r' => String d r'
            end).
    now rewrite IH.
Qed.

(** Stripping the slashes of a component twice is stripping them once. *)
Lemma strip_strip (c : ascii) (s : string) :
  Py.strip c (Py.strip c s) = Py.strip c s.
Proof.
  unfold Py.strip.
  rewrite (lstrip_id c (Py.rstrip c (Py.lstrip c s))).
  - apply rstrip_rstrip.
  - apply rstrip_head, lstrip_head.
Qed.

(** X21. [link] without a path is the path of the application, or its URL for
    a permanent link; a path given as a string is the sequence of that one
    string; and the slashes at the ends of the components play no part:
    the link of the stripped components is the link of the components. *)
Theorem Handler_link_components (self : Handler) (permanant : bool) :
  Handler_link self (inr []) permanant
  = (if permanant then application_url self else application_path self)
  /\ (forall p, Handler_link self (inl p) permanant
                = Handler_link self (inr [p]) permanant)
  /\ (forall l, Handler_link self (inr (map (Py.strip "/") l)) permanant
                = Handler_link self (inr l) permanant).
Proof.
  split; [now destruct permanant|]. split; [reflexivity|].
  intros l. unfold Handler_link. cbv zeta. f_equal. f_equal.
  rewrite map_map. apply map_ext. intros x. apply strip_strip.
Qed.

End Dogdish.

(** * The scenarios, with the reader of plain files and the dictionary of
    CPython 2.7 *)

(** The dispatcher of the first scenario, as built. *)
Lemma nightly_built :
  Dispatcher_new site kw_nightly (Some nightly)
  = Ok (scan_states nightly [nightly_mar] (unscanned site kw_nightly)).
Proof. apply nightly_started. Qed.

(** The first scan of a dispatcher, on two updates of the same time: the
    current update is the entry of the first that was met. *)
Lemma scan_selects_newest_witness :
  exists s',
    Dispatcher_scan (Some twins) (unscanned site kw_nightly) = (Ok true, s')
    /\ wf s' /\ newest_first_observed s'
    /\ Dispatcher.current_update (app s') = Dispatcher.updates (app s') !! twin_first.
Proof.
  destruct (scan_selects_newest twins (unscanned site kw_nightly)
              (wf_unscanned site kw_nightly))
    as (s' & c & cu & Hs & Hwf & Hnew & Hc & _).
  - vm_compute. discriminate.
  - exists s'. split; [assumption|]. split; [assumption|]. split; [assumption|].
    rewrite Dispatcher_scan_eq in Hs by apply wf_unscanned.
    injection Hs as <-. vm_compute. reflexivity.
Defined.

(** The [twins] have the same time; the second is observed later, and the
    first stays current: with the files listed in the other order it is the
    other way round.  And the current update need not be an entry of the
    cache: when the directory of the first scenario is scanned again,
    unchanged, the entry of the update is a new object and the current
    update is the former one; when the update has been written again with
    an earlier time, the current update keeps a time and a size that no
    entry of the cache has. *)
Lemma scan_tie_keeps_first :
  (exists s,
     Dispatcher_new site kw_nightly (Some twins) = Ok s
     /\ current s (Update_of cls_Update "/srv/updates/nightly" twin_first
                     {| st_mtime := 1357002000; contents := [] |})
     /\ (newest_last_observed s -> False))
  /\ (exists s,
        Dispatcher_new site kw_nightly (Some (rev twins)) = Ok s
        /\ current s (Update_of cls_Update "/srv/updates/nightly" twin_second
                        {| st_mtime := 1357002000; contents := [] |})
        /\ (newest_last_observed s -> False))
  /\ (exists s0 s,
        Dispatcher_new site kw_nightly (Some nightly) = Ok s0
        /\ Dispatcher_scan (Some nightly) s0 = (Ok true, s)
        /\ Dispatcher.current_update (app s) = Some 0%nat
        /\ Dispatcher.updates (app s) !! nightly_mar = Some 1%nat
        /\ dom (Dispatcher.updates (app s)) = {[ nightly_mar ]}
        /\ (newest_last_observed s -> False))
  /\ (exists s0 s cu u,
        Dispatcher_new site kw_nightly (Some nightly) = Ok s0
        /\ Dispatcher_scan (Some nightly_rewritten) s0 = (Ok true, s)
        /\ current s cu
        /\ Update.modifiedTime cu = 1357002000 /\ Update.size cu = 100
        /\ dom (Dispatcher.updates (app s)) = {[ nightly_mar ]}
        /\ cached s nightly_mar u
        /\ Update.modifiedTime u = 1357000000 /\ Update.size u = 10
        /\ (newest_last_observed s -> False)).
Proof.
  split; [|split; [|split]].
  - rewrite Dispatcher_new_found by (vm_compute; discriminate).
    eexists. split; [reflexivity|]. split.
    + exists 0%nat. split; vm_compute; reflexivity.
    + intros (c & cu & Hc & Hcu & _ & Hall).
      vm_compute in Hc. injection Hc as <-.
      vm_compute in Hcu. injection Hcu as <-.
      destruct (Hall twin_second 1%nat
                  (Update_of cls_Update "/srv/updates/nightly" twin_second
                     {| st_mtime := 1357002000; contents := [] |}))
        as [_ Hle]; [vm_compute; reflexivity..|].
      specialize (Hle eq_refl). lia.
  - rewrite Dispatcher_new_found by (vm_compute; discriminate).
    eexists. split; [reflexivity|]. split.
    + exists 0%nat. split; vm_compute; reflexivity.
    + intros (c & cu & Hc & Hcu & _ & Hall).
      vm_compute in Hc. injection Hc as <-.
      vm_compute in Hcu. injection Hcu as <-.
      destruct (Hall twin_first 1%nat
                  (Update_of cls_Update "/srv/updates/nightly" twin_first
                     {| st_mtime := 1357002000; contents := [] |}))
        as [_ Hle]; [vm_compute; reflexivity..|].
      specialize (Hle eq_refl). lia.
  - rewrite nightly_built. eexists. eexists. split; [reflexivity|].
    split; [apply Dispatcher_scan_eq, scan_states_wf, wf_unscanned|].
    split; [vm_compute; reflexivity|]. split; [vm_compute; reflexivity|].
    split; [vm_compute; reflexivity|].
    intros (c & cu & Hc & Hcu & Hentry & _).
    vm_compute in Hc. injection Hc as <-.
    vm_compute in Hcu. injection Hcu as <-.
    vm_compute in Hentry. discriminate.
  - rewrite nightly_built. eexists. eexists. eexists. eexists.
    split; [reflexivity|].
    split; [apply Dispatcher_scan_eq, scan_states_wf, wf_unscanned|].
    split; [exists 0%nat; split; vm_compute; reflexivity|].
    split; [reflexivity|]. split; [reflexivity|].
    split; [vm_compute; reflexivity|].
    split; [exists 1%nat; split; vm_compute; reflexivity|].
    split; [reflexivity|]. split; [reflexivity|].
    intros (c & cu & Hc & Hcu & Hentry & _).
    vm_compute in Hc. injection Hc as <-.
    vm_compute in Hcu. injection Hcu as <-.
    vm_compute in Hentry. discriminate.
Qed.

(** The first scenario with the reader of plain files and the order of
    the dictionary of CPython. *)
Lemma nightly_manifest_witness :
  exists s0 s1 body,
    Dispatcher_new site kw_nightly (Some nightly) = Ok s0
    /\ Dispatcher_call read_plain PyDict.items (get_root []) (Some nightly) s0
       = (Ok (Response_OK "text/xml" body), s1)
    /\ attribute_value "size" body = Some "100".
Proof.
  destruct (nightly_manifest site read_plain PyDict.items)
    as (s0 & s1 & body & url & hash & Hnew & Hcall & _ & _ & Hsize & _).
  - vm_compute. reflexivity.
  - vm_compute. reflexivity.
  - exists s0, s1, body. auto.
Defined.

(** The [URL] of the first scenario goes on after the name of the file: it
    does not end in [.mar]. *)
Lemma nightly_URL_has_query :
  exists s0 s1 body,
    Dispatcher_new site kw_nightly (Some nightly) = Ok s0
    /\ Dispatcher_call read_plain PyDict.items (get_root []) (Some nightly) s0
       = (Ok (Response_OK "text/xml" body), s1)
    /\ attribute_value "URL" body
       = Some (nightly_URL +:+ "?build_id=20130101000000&amp;version=1.0")
    /\ Py.endswith (nightly_URL +:+ "?build_id=20130101000000&amp;version=1.0")
         nightly_mar = false
    /\ Py.endswith (nightly_URL +:+ "?build_id=20130101000000&amp;version=1.0")
         ".mar" = false.
Proof.
  rewrite nightly_built. eexists. eexists. eexists.
  split; [reflexivity|]. split; [vm_compute; reflexivity|].
  split; [vm_compute; reflexivity|]. split; vm_compute; reflexivity.
Qed.

(** A [POST] request is not found. *)
Lemma only_the_method_matters_witness :
  Dispatcher_call read_plain PyDict.items post_root (Some nightly)
    (scan_states nightly [nightly_mar] (unscanned site kw_nightly))
  = (Ok HTTPNotFound,
     scan_states nightly [nightly_mar]
       (scan_states nightly [nightly_mar] (unscanned site kw_nightly))).
Proof.
  destruct (only_the_method_matters read_plain PyDict.items post_root nightly
              (scan_states nightly [nightly_mar] (unscanned site kw_nightly))
              (scan_states_wf _ _ _ (wf_unscanned site kw_nightly)) eq_refl)
    as [Hpost _].
  apply Hpost. discriminate.
Defined.

(** A [GET] request to a path that is not the root is answered with the
    manifest, as the request to the root is. *)
Lemma get_elsewhere_is_answered :
  exists s0 s1 body,
    Dispatcher_new site kw_nightly (Some nightly) = Ok s0
    /\ path_info get_elsewhere = "/no/such/page"
    /\ Dispatcher_call read_plain PyDict.items get_elsewhere (Some nightly) s0
       = (Ok (Response_OK "text/xml" body), s1)
    /\ status (Response_OK "text/xml" body) = "200 OK"
    /\ attribute_value "URL" body
       = Some (nightly_URL +:+ "?build_id=20130101000000&amp;version=1.0")
    /\ Dispatcher_call read_plain PyDict.items (get_root []) (Some nightly) s0
       = (Ok (Response_OK "text/xml" body), s1).
Proof.
  rewrite nightly_built. eexists. eexists. eexists.
  split; [reflexivity|]. split; [reflexivity|].
  split; [vm_compute; reflexivity|]. split; [reflexivity|].
  split; vm_compute; reflexivity.
Qed.

(** The hash of the update of the first scenario. *)
Lemma hash_computed_once_witness :
  exists s1,
    Update_hash 0 (Some nightly)
      (scan_states nightly [nightly_mar] (unscanned site kw_nightly))
    = (Ok (SHA512.hexdigest (contents nightly_mar_file)), s1)
    /\ reads s1 = ["/srv/updates/nightly/b2g_update_20130101000000.mar"]
    /\ forall fs',
         Update_hash 0 fs' s1
         = (Ok (SHA512.hexdigest (contents nightly_mar_file)), s1).
Proof.
  apply (hash_computed_once 0
           (Update_of cls_Update "/srv/updates/nightly" nightly_mar nightly_mar_file)
           nightly_mar_file (Some nightly)
           (scan_states nightly [nightly_mar] (unscanned site kw_nightly)));
    reflexivity.
Defined.

(** A directory without any update: the dispatcher is not built. *)
Lemma no_updates_found_witness :
  Dispatcher_new site kw_nightly (Some companion_only)
  = Raise (AssertionError "No updates found in /srv/updates/nightly").
Proof. apply (no_updates_found site kw_nightly companion_only). reflexivity. Defined.

(** The second scenario, on the dispatcher of the first. *)
Lemma dogfood_id_in_query_witness :
  exists before after body,
    Permutation (before ++ after)%list ["build_id=20130101000000"; "version=1.0"]
    /\ fst (Get_call read_plain PyDict.items get_dogfood (Some nightly)
              (scan_states nightly [nightly_mar] (unscanned site kw_nightly)))
       = Ok (Response_OK "text/xml" body).
Proof.
  set (s := scan_states nightly [nightly_mar] (unscanned site kw_nightly)).
  destruct (dogfood_id_in_query read_plain PyDict.items get_dogfood "abc"
              (Some nightly) s
              (snd (Update_application read_plain 0 (Some nightly) s))
              (snd (Update_hash 0 (Some nightly)
                      (snd (Update_application read_plain 0 (Some nightly) s))))
              0
              (Update.set_application nightly_application
                 (Update_of cls_Update "/srv/updates/nightly" nightly_mar
                    nightly_mar_file))
              nightly_application
              (SHA512.hexdigest (contents nightly_mar_file)))
    as (before & after & Hperm & Hcall).
  - reflexivity.
  - discriminate.
  - reflexivity.
  - vm_compute. reflexivity.
  - vm_compute. reflexivity.
  - vm_compute. reflexivity.
  - vm_compute. symmetry. apply (Permutation_cons_append [_; _]).
  - exists before, after. eexists. split; [exact Hperm|].
    rewrite Hcall. reflexivity.
Defined.

(** In the order of the dictionary of CPython the item of the request
    comes last, after [&amp;]: the URL does not hold
    [?dogfooding_prerelease_id=abc]. *)
Lemma dogfood_id_follows_ampersand :
  exists s0 s1 body,
    Dispatcher_new site kw_nightly (Some nightly) = Ok s0
    /\ Dispatcher_call read_plain PyDict.items get_dogfood (Some nightly) s0
       = (Ok (Response_OK "text/xml" body), s1)
    /\ attribute_value "URL" body
       = Some (nightly_URL
               +:+ "?build_id=20130101000000&amp;version=1.0&amp;dogfooding_prerelease_id=abc")
    /\ contains
         (nightly_URL
          +:+ "?build_id=20130101000000&amp;version=1.0&amp;dogfooding_prerelease_id=abc")
         "?dogfooding_prerelease_id=abc" = false
    /\ contains body "?dogfooding_prerelease_id=abc" = false.
Proof.
  rewrite nightly_built. eexists. eexists. eexists.
  split; [reflexivity|]. split; [vm_compute; reflexivity|].
  split; [vm_compute; reflexivity|]. split; vm_compute; reflexivity.
Qed.

(** The update of the first scenario without its companion: the
    dispatcher is built, and the request fails. *)
Lemma broken_companion_fails_witness :
  Dispatcher_call read_plain PyDict.items (get_root []) (Some lonely)
    (scan_states lonely [nightly_mar] (unscanned site kw_nightly))
  = (Raise (AssertionError ""),
     scan_states lonely [nightly_mar]
       (scan_states lonely [nightly_mar] (unscanned site kw_nightly))).
Proof.
  destruct (broken_companion_fails read_plain PyDict.items (get_root []) lonely
              (scan_states lonely [nightly_mar] (unscanned site kw_nightly))
              (scan_states lonely [nightly_mar]
                 (scan_states lonely [nightly_mar] (unscanned site kw_nightly)))
              0
              (Update_of cls_Update "/srv/updates/nightly" nightly_mar
                 nightly_mar_file)
              (scan_states_wf _ _ _ (wf_unscanned site kw_nightly))
              eq_refl eq_refl eq_refl eq_refl eq_refl eq_refl)
    as [Hmissing _].
  apply Hmissing. reflexivity.
Defined.

(** The companion is read at the first request and deleted before the
    second: the second request is answered as the first, from the metadata
    that the current object keeps. *)
Lemma stale_metadata_served :
  exists s0 s2 body,
    Dispatcher_new site kw_nightly (Some nightly) = Ok s0
    /\ find_file nightly_ini lonely = None
    /\ serve read_plain PyDict.items
         [(get_root [], Some nightly); (get_root [], Some lonely)] s0
       = ([Ok (Response_OK "text/xml" body); Ok (Response_OK "text/xml" body)], s2)
    /\ (exists u, current s2 u
          /\ application_ini u = nightly_ini
          /\ Update._application u = Some nightly_application).
Proof.
  rewrite nightly_built. eexists. eexists. eexists.
  split; [reflexivity|]. split; [reflexivity|].
  split; [vm_compute; reflexivity|].
  eexists. split; [|split].
  - exists 0%nat. split; vm_compute; reflexivity.
  - vm_compute. reflexivity.
  - vm_compute. reflexivity.
Qed.

(** The directory is emptied after the dispatcher is built. *)
Lemma current_update_stays_witness :
  is_Some (Dispatcher.current_update
             (app (snd (serve read_plain PyDict.items [(get_root [], Some [])]
                          (scan_states nightly [nightly_mar]
                             (unscanned site kw_nightly)))))).
Proof.
  destruct (current_update_stays site read_plain PyDict.items kw_nightly
              (Some nightly)
              (scan_states nightly [nightly_mar] (unscanned site kw_nightly))
              [(get_root [], Some [])] nightly_built)
    as (c & Hc & _).
  rewrite Hc. eauto.
Defined.

(** * More scenarios *)

(** The companion of the first scenario, read. *)
Lemma Application_init_loads_witness :
  exists a,
    Application_init read_plain (Some nightly_ini_file) = Ok a
    /\ Config_get nightly_config "App" "BuildID" = Ok (Application.build_id a)
    /\ Config_get nightly_config "App" "Version" = Ok (Application.version a).
Proof.
  destruct (Application_init_loads read_plain nightly_ini_file nightly_config
              read_plain_nightly) as [_ H].
  apply H. vm_compute. intros [[H1 _]|[H1 _]]; discriminate.
Defined.

Lemma scan_returns_True_witness :
  fst (Dispatcher_scan (Some nightly) (unscanned site kw_nightly)) = Ok true.
Proof.
  destruct (Dispatcher_scan (Some nightly) (unscanned site kw_nightly))
    as [[b|e] s'] eqn:E.
  - now rewrite (scan_returns_True _ _ _ _ E).
  - rewrite Dispatcher_scan_eq in E by apply wf_unscanned. discriminate.
Defined.

Lemma scan_refreshes_cache_witness :
  exists s',
    Dispatcher_scan (Some nightly) (unscanned site kw_nightly) = (Ok true, s')
    /\ cached s' nightly_mar
         (Update_of cls_Update "/srv/updates/nightly" nightly_mar nightly_mar_file).
Proof.
  destruct (scan_refreshes_cache nightly (unscanned site kw_nightly)
              (wf_unscanned site kw_nightly)) as (s' & Hs & Hc).
  exists s'. split; [assumption|]. apply Hc. left.
  split; [reflexivity|]. exists nightly_mar_file. split; reflexivity.
Defined.

(** The update of the first scenario is current; it stays so on the same
    directory. *)
Lemma scan_keeps_current_witness :
  exists s',
    Dispatcher_scan (Some nightly)
      (scan_states nightly [nightly_mar] (unscanned site kw_nightly))
    = (Ok true, s')
    /\ Dispatcher.current_update (app s') = Some 0%nat.
Proof.
  destruct (scan_keeps_current nightly
              (scan_states nightly [nightly_mar] (unscanned site kw_nightly)) 0
              (Update_of cls_Update "/srv/updates/nightly" nightly_mar
                 nightly_mar_file)
              (scan_states_wf _ _ _ (wf_unscanned site kw_nightly))
              eq_refl eq_refl)
    as (s' & Hs & Hc & _).
  - intros x f _ Hf.
    change (find_file x nightly)
      with (if String.eqb nightly_mar x then Some nightly_mar_file
            else if String.eqb nightly_ini x then Some nightly_ini_file
                 else None) in Hf.
    destruct (String.eqb nightly_mar x); [injection Hf as <-; cbn; lia|].
    destruct (String.eqb nightly_ini x); [injection Hf as <-; cbn; lia|].
    discriminate.
  - exists s'. auto.
Defined.

Lemma scan_current_newest_witness :
  exists s' c' cu',
    Dispatcher_scan (Some twins)
      (scan_states nightly [nightly_mar] (unscanned site kw_nightly))
    = (Ok true, s')
    /\ Dispatcher.current_update (app s') = Some c'
    /\ heap s' !! c' = Some cu'
    /\ 1357002000 <= Update.modifiedTime cu'.
Proof.
  destruct (scan_current_newest twins
              (scan_states nightly [nightly_mar] (unscanned site kw_nightly)) 0
              (Update_of cls_Update "/srv/updates/nightly" nightly_mar
                 nightly_mar_file)
              (scan_states_wf _ _ _ (wf_unscanned site kw_nightly))
              eq_refl eq_refl)
    as (s' & c' & cu' & Hs & Hc & Hcu & Hmax & _).
  exists s', c', cu'. repeat split; try assumption.
  apply (Hmax twin_first {| st_mtime := 1357002000; contents := [] |});
    reflexivity.
Defined.

Lemma running_well_formed_witness :
  newest_first_observed
    (snd (serve read_plain PyDict.items
            [(get_root [], Some nightly); (get_root [], Some twins)]
            (scan_states nightly [nightly_mar] (unscanned site kw_nightly)))).
Proof.
  apply (running_well_formed site read_plain PyDict.items kw_nightly
           (Some nightly) _ _ nightly_built).
Defined.

Lemma application_loaded_once_witness :
  exists s1,
    Update_application read_plain 0 (Some nightly)
      (scan_states nightly [nightly_mar] (unscanned site kw_nightly))
    = (Ok nightly_application, s1)
    /\ reads s1 = []
    /\ forall fs',
         Update_application read_plain 0 fs' s1 = (Ok nightly_application, s1).
Proof.
  apply (application_loaded_once read_plain 0
           (Update_of cls_Update "/srv/updates/nightly" nightly_mar nightly_mar_file)
           nightly_ini_file nightly_application (Some nightly)
           (scan_states nightly [nightly_mar] (unscanned site kw_nightly)));
    vm_compute; reflexivity.
Defined.

Lemma hash_is_hex_witness :
  String.length (SHA512.hexdigest (contents nightly_mar_file)) = 128%nat
  /\ all_hex (SHA512.hexdigest (contents nightly_mar_file)) = true.
Proof.
  eapply (hash_is_hex 0
            (Update_of cls_Update "/srv/updates/nightly" nightly_mar nightly_mar_file)
            (Some nightly)
            (scan_states nightly [nightly_mar] (unscanned site kw_nightly)));
    [reflexivity|reflexivity|].
  apply (Update_hash_reads 0
           (Update_of cls_Update "/srv/updates/nightly" nightly_mar nightly_mar_file)
           nightly_mar_file); reflexivity.
Defined.

(** The object of the first scenario after two requests, the second on a
    directory with other files. *)
Lemma objects_keep_their_fields_witness :
  exists u',
    heap (snd (serve read_plain PyDict.items
                 [(get_root [], Some nightly); (get_root [], Some twins)]
                 (scan_states nightly [nightly_mar] (unscanned site kw_nightly))))
      !! 0%nat = Some u'
    /\ fills (Update_of cls_Update "/srv/updates/nightly" nightly_mar
                nightly_mar_file) u'.
Proof.
  apply (objects_keep_their_fields read_plain PyDict.items). reflexivity.
Defined.

Lemma request_method_and_dogfood_id_witness :
  Dispatcher_call read_plain PyDict.items get_elsewhere (Some nightly)
    (scan_states nightly [nightly_mar] (unscanned site kw_nightly))
  = Dispatcher_call read_plain PyDict.items
      (get_root [("build_id", "1"); ("version", "2")]) (Some nightly)
      (scan_states nightly [nightly_mar] (unscanned site kw_nightly)).
Proof.
  apply (request_method_and_dogfood_id read_plain PyDict.items); reflexivity.
Defined.

Lemma empty_dogfood_id_dropped_witness :
  Dispatcher_call read_plain PyDict.items
    (get_root [("dogfood_id", "abc"); ("dogfood_id", "")]) (Some nightly)
    (scan_states nightly [nightly_mar] (unscanned site kw_nightly))
  = Dispatcher_call read_plain PyDict.items (get_root []) (Some nightly)
      (scan_states nightly [nightly_mar] (unscanned site kw_nightly)).
Proof.
  apply (empty_dogfood_id_dropped read_plain PyDict.items
           (get_root [("dogfood_id", "abc"); ("dogfood_id", "")])).
  reflexivity.
Defined.

(** The dispatcher of the first scenario: its path is the last component
    of its directory. *)
Lemma Dispatcher_path_witness :
  Dispatcher.directory
    (app (scan_states nightly [nightly_mar] (unscanned site kw_nightly)))
  = "/srv/updates/nightly".
Proof.
  destruct (Dispatcher_path site kw_nightly (Some nightly) _ nightly_built)
    as [H _].
  exact H.
Defined.

(** The first scenario, then the same request when the update and its
    companion are gone: the answer is the same, and nothing is read. *)
Lemma served_from_cache_witness :
  exists r s1 s2,
    Dispatcher_call read_plain PyDict.items (get_root []) (Some nightly)
      (scan_states nightly [nightly_mar] (unscanned site kw_nightly))
    = (Ok r, s1)
    /\ Dispatcher_call read_plain PyDict.items (get_root []) (Some []) s1
       = (Ok r, s2)
    /\ reads s2 = reads s1.
Proof.
  destruct (Dispatcher_call read_plain PyDict.items (get_root []) (Some nightly)
              (scan_states nightly [nightly_mar] (unscanned site kw_nightly)))
    as [[r|e] s1] eqn:E.
  - destruct (served_from_cache read_plain PyDict.items (get_root []) nightly
                (scan_states nightly [nightly_mar] (unscanned site kw_nightly))
                s1 r (scan_states_wf _ _ _ (wf_unscanned site kw_nightly))
                eq_refl eq_refl E)
      as (c & cu & _ & _ & _ & Hnext).
    destruct (Hnext []) as (s2 & H2 & Hr); [discriminate|].
    exists r, s1, s2. auto.
  - vm_compute in E. discriminate.
Defined.

(** The dispatcher of the first scenario, as built: nothing is read yet. *)
Lemma Dispatcher_built_witness :
  reads (scan_states nightly [nightly_mar] (unscanned site kw_nightly)) = [].
Proof.
  destruct (Dispatcher_built site kw_nightly) as [_ H].
  destruct (H nightly _ nightly_built) as (_ & _ & Hr & _).
  exact Hr.
Defined.
